(** * Long-horizon consistency memory: a shallow embedding

    The two core modules of the novel generator, [core/consistency.py]
    (class [ConsistencyChecker]) and [core/memory_system.py] (class
    [SmartMemory]), are translated to Rocq functions and the behaviour the
    specification describes is proved (or refuted) on them.

    - Python [str] is a list of code points, [dict] an insertion-ordered
      association list, [float] the kernel's binary64 numbers.
    - [datetime.now()], the file system and [hashlib.md5] are part of the
      model: a clock indexed by the number of readings, a record of the
      files the store writes, and MD5 itself. *)

From Stdlib Require Import ZArith List Lia Bool String Ascii.
From Stdlib Require Import DecimalString.
From Stdlib Require Import Floats.
From Stdlib Require Import Sorted Permutation.
From Stdlib Require DecimalPos.
Import ListNotations.

Set Warnings "-inexact-float,-register-all".
Set Implicit Arguments.
Open Scope Z_scope.

(* ===================================================================== *)
(** * Python values *)
(* ===================================================================== *)

Module Py.

(** A [str] is its sequence of code points. *)
Definition str := list Z.

Definition len {A : Type} (l : list A) : Z := Z.of_nat (List.length l).

(** UTF-8 decoding, used to write literals of the source as Rocq strings. *)
Fixpoint utf8_decode (bs : list Z) : str :=
  match bs with
  | [] => []
  | b0 :: r0 =>
      if b0 <? 128 then b0 :: utf8_decode r0
      else if b0 <? 224 then
        match r0 with
        | b1 :: r1 => ((b0 - 192) * 64 + (b1 - 128)) :: utf8_decode r1
        | _ => []
        end
      else if b0 <? 240 then
        match r0 with
        | b1 :: b2 :: r2 =>
            ((b0 - 224) * 4096 + (b1 - 128) * 64 + (b2 - 128)) :: utf8_decode r2
        | _ => []
        end
      else
        match r0 with
        | b1 :: b2 :: b3 :: r3 =>
            ((b0 - 240) * 262144 + (b1 - 128) * 4096 + (b2 - 128) * 64 + (b3 - 128))
              :: utf8_decode r3
        | _ => []
        end
  end.

Definition bytes_of_string (s : string) : list Z :=
  map (fun b => Z.of_N (Byte.to_N b)) (list_byte_of_string s).

(** [u "..."] is the Python literal ["..."]. *)
Definition u (s : string) : str := utf8_decode (bytes_of_string s).

(** [s.encode()]: UTF-8. *)
Definition utf8_encode_char (c : Z) : list Z :=
  if c <? 128 then [c]
  else if c <? 2048 then [192 + c / 64; 128 + c mod 64]
  else if c <? 65536 then [224 + c / 4096; 128 + (c / 64) mod 64; 128 + c mod 64]
  else [240 + c / 262144; 128 + (c / 4096) mod 64; 128 + (c / 64) mod 64; 128 + c mod 64].

Definition encode (s : str) : list Z := flat_map utf8_encode_char s.

(** [str(n)] for an integer. *)
Definition str_of_int (n : Z) : str := u (NilZero.string_of_int (Z.to_int n)).

Fixpoint str_eqb (a b : str) : bool :=
  match a, b with
  | [], [] => true
  | x :: a', y :: b' => (x =? y) && str_eqb a' b'
  | _, _ => false
  end.

(** [x in l] for a list (or set) of strings. *)
Definition mem (x : str) (l : list str) : bool := existsb (str_eqb x) l.

Fixpoint startswith (p s : str) : bool :=
  match p, s with
  | [], _ => true
  | a :: p', b :: s' => (a =? b) && startswith p' s'
  | _ :: _, [] => false
  end.

(** [sub in s] for strings. *)
Fixpoint contains (sub s : str) : bool :=
  startswith sub s ||
  match s with
  | [] => false
  | _ :: s' => contains sub s'
  end.

(** [s.find(sub)]: the first index, or -1. *)
Fixpoint find_from (sub s : str) (i : Z) : Z :=
  if startswith sub s then i
  else match s with
       | [] => -1
       | _ :: s' => find_from sub s' (i + 1)
       end.

Definition find (s sub : str) : Z := find_from sub s 0.

(** [sep.join(l)]. *)
Fixpoint join (sep : str) (l : list str) : str :=
  match l with
  | [] => []
  | [x] => x
  | x :: r => x ++ sep ++ join sep r
  end.

(** [l[:n]] for a literal [n >= 0]. *)
Definition take {A : Type} (n : nat) (l : list A) : list A := firstn n l.

(** [list(dict.fromkeys(l))]: the distinct elements, first occurrences kept;
    the elements of [set(l)]. *)
Fixpoint distinct (l : list str) : list str :=
  match l with
  | [] => []
  | x :: r => x :: filter (fun y => negb (str_eqb x y)) (distinct r)
  end.

(** ** Dictionaries: insertion-ordered, keys unique. *)
Section Dict.
Variables (K V : Type) (eqb : K -> K -> bool).

Fixpoint dict_get (k : K) (d : list (K * V)) : option V :=
  match d with
  | [] => None
  | (k', v) :: r => if eqb k k' then Some v else dict_get k r
  end.

(** [d[k] = v]: replaces in place, or appends a new key. *)
Fixpoint dict_set (k : K) (v : V) (d : list (K * V)) : list (K * V) :=
  match d with
  | [] => [(k, v)]
  | (k', v') :: r => if eqb k k' then (k', v) :: r else (k', v') :: dict_set k v r
  end.

Definition dict_mem (k : K) (d : list (K * V)) : bool :=
  match dict_get k d with Some _ => true | None => false end.
End Dict.

Definition dict (V : Type) := list (str * V).
Definition get {V} (k : str) (d : dict V) : option V := dict_get str_eqb k d.
Definition set {V} (k : str) (v : V) (d : dict V) : dict V := dict_set str_eqb k v d.
Definition has {V} (k : str) (d : dict V) : bool := dict_mem str_eqb k d.
Definition keys {K V} (d : list (K * V)) : list K := map fst d.

(** [sorted(l)] on integers (insertion sort). *)
Fixpoint insert_sorted (x : Z) (l : list Z) : list Z :=
  match l with
  | [] => [x]
  | y :: r => if x <=? y then x :: l else y :: insert_sorted x r
  end.

Definition sorted (l : list Z) : list Z := fold_right insert_sorted [] l.

(** [sorted(l)] on strings: by code points. *)
Fixpoint str_leb (a b : str) : bool :=
  match a, b with
  | [], _ => true
  | _ :: _, [] => false
  | x :: a', y :: b' => (x <? y) || ((x =? y) && str_leb a' b')
  end.

Fixpoint insert_sorted_str (x : str) (l : list str) : list str :=
  match l with
  | [] => [x]
  | y :: r => if str_leb x y then x :: l else y :: insert_sorted_str x r
  end.

Definition sorted_str (l : list str) : list str := fold_right insert_sorted_str [] l.

(** [range(a, b)]. *)
Definition range (a b : Z) : list Z :=
  map (fun i => a + Z.of_nat i) (seq 0 (Z.to_nat (b - a))).

(** [sum(l)] on integers. *)
Definition sum (l : list Z) : Z := fold_left Z.add l 0.

(** JSON-like values, for the categories the store keeps untyped
    (core settings, worldview). *)
Inductive value : Type :=
| VNone
| VInt (n : Z)
| VStr (s : str)
| VList (l : list value)
| VDict (d : list (str * value)).

(** Truthiness. *)
Definition truthy (v : value) : bool :=
  match v with
  | VNone => false
  | VInt n => negb (n =? 0)
  | VStr s => negb (len s =? 0)
  | VList l => negb (len l =? 0)
  | VDict d => negb (len d =? 0)
  end.

(** ** Floats *)

(** [float(n)]: the nearest binary64 number. *)
Definition float_of_int (n : Z) : float :=
  SF2Prim (binary_normalize prec emax n 0 false).

(** [int(f)] for a finite [f]: truncation toward zero. *)
Definition int_of_float (f : float) : Z :=
  match Prim2SF f with
  | S754_finite s m e =>
      let a := if 0 <=? e then Z.pos m * 2 ^ e else Z.pos m / 2 ^ (- e) in
      if s then - a else a
  | _ => 0
  end.

(** [min(a, b)] on floats: [b] only when it is strictly smaller. *)
Definition fmin (a b : float) : float := if PrimFloat.ltb b a then b else a.

(** [sum(l)] on floats. *)
Definition fsum (l : list float) : float :=
  fold_left PrimFloat.add l (float_of_int 0).

(** [n <= f] for an integer and a float: the two are compared exactly. *)
Definition int_le_float (n : Z) (f : float) : bool :=
  match Prim2SF f with
  | S754_finite false m e =>
      if 0 <=? e then n <=? Z.pos m * 2 ^ e else n * 2 ^ (- e) <=? Z.pos m
  | S754_finite true m e =>
      if 0 <=? e then n <=? - (Z.pos m * 2 ^ e) else n * 2 ^ (- e) <=? - Z.pos m
  | S754_zero _ => n <=? 0
  | S754_infinity s => negb s
  | S754_nan => false
  end.

End Py.

Import Py.

(* ===================================================================== *)
(** * Records shared by the checker and the memory *)
(* ===================================================================== *)

(** One entry of a character's [development_history]. *)
Record Development := {
  dev_chapter : Z;
  dev_development : str;
  dev_timestamp : str
}.

(** A character profile (a dict in the source).  A field read with
    [.get(k, '')] or [.get(k, [])] is absent when empty; the fields read with
    another default, or tested with [in], are options. *)
Record Character := {
  char_name : str;
  char_identity : str;
  char_personality : str;
  char_motivation : str;
  char_importance : option Z;
  char_abilities : list str;
  char_last_appearance : option Z;
  char_development_history : option (list Development);
  char_created_at : option str;
  char_updated_at : option str
}.

(** A generated chapter: [{title, content, summary, key_events,
    character_development}], every field read with an empty default. *)
Record ChapterData := {
  title : str;
  content : str;
  summary : str;
  key_events : list str;
  character_development : dict str
}.

(* ===================================================================== *)
(** * core/consistency.py *)
(* ===================================================================== *)

Module ConsistencyChecker.

(** The result dict of the three axis checks. *)
Record Result := {
  passed : bool;
  score : Z;
  issues : list str;
  suggestions : list str
}.

(** The worldview dict, as far as the checker reads it. *)
Record WorldView := {
  special_rules : value;
  culture : str
}.

(** ** [_extract_keywords] *)

(** The character class [[一-龥]]. *)
Definition is_cjk (c : Z) : bool := (19968 <=? c) && (c <=? 40869).

Definition emit_run (run : str) : list str :=
  if 2 <=? len run then [run] else [].

(** [re.findall(r'[一-龥]{2,}', text)]: the maximal runs of the
    class that have at least two characters ([run] is the run being read). *)
Fixpoint findall_cjk_runs (text run : str) : list str :=
  match text with
  | [] => emit_run run
  | c :: rest =>
      if is_cjk c then findall_cjk_runs rest (run ++ [c])
      else emit_run run ++ findall_cjk_runs rest []
  end.

Definition stopwords : list str :=
  map u ["的"; "了"; "在"; "是"; "我"; "有"; "和"; "就"; "不"; "人"; "都"; "一";
         "一个"; "上"; "也"; "很"; "到"; "说"; "要"; "去"; "你"; "会"; "着";
         "没有"; "看"; "好"; "自己"; "这"]%string.

Definition _extract_keywords (text : str) (max_keywords : nat) : list str :=
  let chinese_words := findall_cjk_runs text [] in
  let keywords := filter (fun word => negb (mem word stopwords)) chinese_words in
  take max_keywords keywords.

(** ** [check_character_consistency] *)

Definition check_character_consistency
    (character_name new_content : str) (existing_profile : Character) : Result :=
  let results := {| passed := true; score := 100; issues := []; suggestions := [] |} in
  let personality := char_personality existing_profile in
  let results :=
    if negb (len personality =? 0) then
      let personality_keywords := _extract_keywords personality 10 in
      let content_keywords := _extract_keywords new_content 10 in
      let matching_keywords :=
        filter (fun k => mem k content_keywords) personality_keywords in
      let match_ratio :=
        (float_of_int (len matching_keywords)
         / float_of_int (Z.max (len personality_keywords) 1))%float in
      if (match_ratio <? 0.3)%float then
        {| passed := false;
           score := score results - 30;
           issues := issues results
             ++ [u "人物'" ++ character_name ++ u "'的性格表现不一致"];
           suggestions := suggestions results
             ++ [u "在描述" ++ character_name ++ u "时，请更多体现: "
                 ++ join (u ", ") (take 5 personality_keywords)] |}
      else results
    else results in
  let abilities := char_abilities existing_profile in
  if negb (len abilities =? 0) then
    let mentioned_abilities := filter (fun ability => contains ability new_content) abilities in
    if (len mentioned_abilities =? 0) && (0 <? len abilities) then
      {| passed := passed results;
         score := score results;
         issues := issues results
           ++ [u "人物'" ++ character_name ++ u "'的能力未在场景中体现"];
         suggestions := suggestions results |}
    else results
  else results.

(** ** [_calculate_continuity] *)

Definition _calculate_continuity (last_keywords current_keywords : list str) : float :=
  if (len last_keywords =? 0) || (len current_keywords =? 0) then 0%float
  else
    let common_keywords :=
      filter (fun k => mem k current_keywords) (distinct last_keywords) in
    (float_of_int (len common_keywords)
     / float_of_int (Z.max (len (distinct last_keywords)) 1))%float.

(** ** [_check_logical_issues] *)

Definition time_indicators : list str :=
  map u ["之前"; "之后"; "刚才"; "现在"; "未来"; "过去"]%string.

Definition contradictions : list (str * str) :=
  [(u "死", u "活"); (u "有", u "无"); (u "存在", u "不存在")].

Definition _check_logical_issues (content : str) : list str :=
  let time_mentions := filter (fun indicator => contains indicator content) time_indicators in
  let issues := if 3 <? len time_mentions then [u "时间描述可能存在矛盾"] else [] in
  issues ++
  flat_map (fun '(word1, word2) =>
              if contains word1 content && contains word2 content
              then [u "可能存在'" ++ word1 ++ u "'和'" ++ word2 ++ u "'的矛盾"]
              else [])
           contradictions.

(** ** [check_plot_consistency] *)

Definition check_plot_consistency (new_content : str) (previous_summaries : list str) : Result :=
  let results := {| passed := true; score := 100; issues := []; suggestions := [] |} in
  let results :=
    if negb (len previous_summaries =? 0) then
      let last_summary := last previous_summaries [] in
      let last_keywords := _extract_keywords last_summary 10 in
      let current_keywords := _extract_keywords new_content 10 in
      let continuity_score := _calculate_continuity last_keywords current_keywords in
      if (continuity_score <? 0.2)%float then
        {| passed := passed results;
           score := score results - 20;
           issues := issues results ++ [u "情节连贯性较弱"];
           suggestions := suggestions results ++ [u "考虑增加与上一章的连接"] |}
      else results
    else results in
  let logical_issues := _check_logical_issues new_content in
  if negb (len logical_issues =? 0) then
    {| passed := false;
       score := score results - len logical_issues * 10;
       issues := issues results ++ logical_issues;
       suggestions := suggestions results ++ [u "检查情节逻辑，修复矛盾之处"] |}
  else results.

(** ** [check_worldview_consistency] *)

Definition check_worldview_consistency (new_content : str) (worldview : WorldView) : Result :=
  let results := {| passed := true; score := 100; issues := []; suggestions := [] |} in
  let rules := special_rules worldview in
  let results :=
    if truthy rules then
      let violations : list str := [] in
      if negb (len violations =? 0) then
        {| passed := false;
           score := score results - len violations * 15;
           issues := issues results ++ violations;
           suggestions := suggestions results |}
      else results
    else results in
  let culture := culture worldview in
  if negb (len culture =? 0) then
    let culture_keywords := _extract_keywords culture 10 in
    let content_keywords := _extract_keywords new_content 10 in
    let culture_match :=
      existsb (fun keyword => mem keyword content_keywords) (take 5 culture_keywords) in
    if negb culture_match && negb (len culture_keywords =? 0) then
      {| passed := passed results;
         score := score results;
         issues := issues results ++ [u "文化风俗元素未充分体现"];
         suggestions := suggestions results
           ++ [u "考虑加入: " ++ join (u ", ") (take 3 culture_keywords)] |}
    else results
  else results.

(** ** [full_consistency_check] *)

Record Axis := {
  axis_score : Z;
  axis_issues : list str
}.

Record FullResult := {
  overall_score : Z;
  character_consistency : Axis;
  plot_consistency : Axis;
  worldview_consistency : Axis;
  timeline_consistency : Axis
}.

(** The checks of the loop over characters and, inside it, over chapters. *)
Definition character_checks
    (characters : list Character) (chapters : list (Z * ChapterData)) : list Result :=
  flat_map (fun character =>
    let char_name := char_name character in
    flat_map (fun '(chapter_num, chapter_data) =>
      let content := content chapter_data in
      if contains char_name content
      then [check_character_consistency char_name content character]
      else []) chapters) characters.

(** The checks of the loop [for i in range(1, len(chapter_numbers))]. *)
Fixpoint plot_checks (chapters : list (Z * ChapterData)) (chapter_numbers : list Z)
  : list Result :=
  match chapter_numbers with
  | previous :: ((current :: _) as rest) =>
      match dict_get Z.eqb current chapters, dict_get Z.eqb previous chapters with
      | Some current_chapter, Some previous_chapter =>
          [check_plot_consistency (content current_chapter) [summary previous_chapter]]
      | _, _ => []
      end ++ plot_checks chapters rest
  | _ => []
  end.

Definition weights : list float := [0.3; 0.4; 0.2; 0.1]%float.

(** [int(sum(score * weight for score, weight in zip(component_scores, weights)))]. *)
Definition weighted_overall (component_scores : list Z) : Z :=
  int_of_float
    (fsum (map (fun '(score, weight) => (float_of_int score * weight)%float)
               (combine component_scores weights))).

Definition full_consistency_check
    (outline : dict value) (characters : list Character)
    (chapters : list (Z * ChapterData)) : FullResult :=
  let zero := {| axis_score := 0; axis_issues := [] |} in
  let char_results := character_checks characters chapters in
  let char_scores := map score char_results in
  let char_issues := flat_map issues char_results in
  let character_consistency :=
    if negb (len char_scores =? 0)
    then {| axis_score := sum char_scores / len char_scores;
            axis_issues := take 5 char_issues |}
    else zero in
  let chapter_numbers := sorted (keys chapters) in
  let plot_results := plot_checks chapters chapter_numbers in
  let plot_scores := map score plot_results in
  let plot_issues := flat_map issues plot_results in
  let plot_consistency :=
    if negb (len plot_scores =? 0)
    then {| axis_score := sum plot_scores / len plot_scores;
            axis_issues := take 5 plot_issues |}
    else zero in
  let worldview_consistency := zero in
  let timeline_consistency := zero in
  let component_scores :=
    [axis_score character_consistency; axis_score plot_consistency;
     axis_score worldview_consistency; axis_score timeline_consistency] in
  {| overall_score := weighted_overall component_scores;
     character_consistency := character_consistency;
     plot_consistency := plot_consistency;
     worldview_consistency := worldview_consistency;
     timeline_consistency := timeline_consistency |}.

(** ** [check_chapter_consistency] *)

(** The context dict: a key that is absent is [None]. *)
Record Context := {
  ctx_characters : option (list Character);
  ctx_previous_summaries : option (list str);
  ctx_worldview : option WorldView
}.

Record ChapterResult := {
  ch_passed : bool;
  ch_score : Z;
  detailed_checks : dict Result;
  ch_issues : list str;
  ch_suggestions : list str
}.

(** What the source does with the result of one axis check: it is filed
    under [key], and merged into the totals only [if not result['passed']]. *)
Definition record_check (key : str) (result : Result) (results : ChapterResult)
  : ChapterResult :=
  let detailed := set key result (detailed_checks results) in
  if negb (passed result) then
    {| ch_passed := false;
       ch_score := Z.min (ch_score results) (score result);
       detailed_checks := detailed;
       ch_issues := ch_issues results ++ issues result;
       ch_suggestions := ch_suggestions results ++ suggestions result |}
  else
    {| ch_passed := ch_passed results;
       ch_score := ch_score results;
       detailed_checks := detailed;
       ch_issues := ch_issues results;
       ch_suggestions := ch_suggestions results |}.

Definition check_chapter_consistency (chapter_data : ChapterData) (context : Context)
  : ChapterResult :=
  let results :=
    {| ch_passed := true; ch_score := 100; detailed_checks := [];
       ch_issues := []; ch_suggestions := [] |} in
  let content := content chapter_data in
  let results :=
    match ctx_characters context with
    | Some characters =>
        fold_left (fun results character =>
          let char_name := char_name character in
          if contains char_name content then
            record_check (u "character_" ++ char_name)
              (check_character_consistency char_name content character) results
          else results) characters results
    | None => results
    end in
  let results :=
    match ctx_previous_summaries context with
    | Some previous_summaries =>
        record_check (u "plot") (check_plot_consistency content previous_summaries) results
    | None => results
    end in
  match ctx_worldview context with
  | Some worldview =>
      record_check (u "worldview") (check_worldview_consistency content worldview) results
  | None => results
  end.

(** The axis checks [check_chapter_consistency] runs, in the order it runs them. *)
Definition executed_checks (chapter_data : ChapterData) (context : Context) : list Result :=
  let content := content chapter_data in
  match ctx_characters context with
  | Some characters =>
      flat_map (fun character =>
        if contains (char_name character) content
        then [check_character_consistency (char_name character) content character]
        else []) characters
  | None => []
  end ++
  match ctx_previous_summaries context with
  | Some previous_summaries => [check_plot_consistency content previous_summaries]
  | None => []
  end ++
  match ctx_worldview context with
  | Some worldview => [check_worldview_consistency content worldview]
  | None => []
  end.

End ConsistencyChecker.

(* ===================================================================== *)
(** * hashlib.md5 *)
(* ===================================================================== *)

Module MD5.

Definition K : list Z :=
  [0xd76aa478; 0xe8c7b756; 0x242070db; 0xc1bdceee;
   0xf57c0faf; 0x4787c62a; 0xa8304613; 0xfd469501;
   0x698098d8; 0x8b44f7af; 0xffff5bb1; 0x895cd7be;
   0x6b901122; 0xfd987193; 0xa679438e; 0x49b40821;
   0xf61e2562; 0xc040b340; 0x265e5a51; 0xe9b6c7aa;
   0xd62f105d; 0x02441453; 0xd8a1e681; 0xe7d3fbc8;
   0x21e1cde6; 0xc33707d6; 0xf4d50d87; 0x455a14ed;
   0xa9e3e905; 0xfcefa3f8; 0x676f02d9; 0x8d2a4c8a;
   0xfffa3942; 0x8771f681; 0x6d9d6122; 0xfde5380c;
   0xa4beea44; 0x4bdecfa9; 0xf6bb4b60; 0xbebfbc70;
   0x289b7ec6; 0xeaa127fa; 0xd4ef3085; 0x04881d05;
   0xd9d4d039; 0xe6db99e5; 0x1fa27cf8; 0xc4ac5665;
   0xf4292244; 0x432aff97; 0xab9423a7; 0xfc93a039;
   0x655b59c3; 0x8f0ccc92; 0xffeff47d; 0x85845dd1;
   0x6fa87e4f; 0xfe2ce6e0; 0xa3014314; 0x4e0811a1;
   0xf7537e82; 0xbd3af235; 0x2ad7d2bb; 0xeb86d391].

Definition shifts : list Z :=
  [7; 12; 17; 22; 7; 12; 17; 22; 7; 12; 17; 22; 7; 12; 17; 22;
   5; 9; 14; 20; 5; 9; 14; 20; 5; 9; 14; 20; 5; 9; 14; 20;
   4; 11; 16; 23; 4; 11; 16; 23; 4; 11; 16; 23; 4; 11; 16; 23;
   6; 10; 15; 21; 6; 10; 15; 21; 6; 10; 15; 21; 6; 10; 15; 21].

Definition w32 (x : Z) : Z := x mod 2 ^ 32.
Definition not32 (x : Z) : Z := Z.lxor x 0xffffffff.
Definition rotl (x c : Z) : Z := Z.lor (w32 (Z.shiftl x c)) (Z.shiftr x (32 - c)).

(** The message followed by [0x80], zeros up to 56 modulo 64, and the bit
    length as 8 little-endian bytes. *)
Definition pad (msg : list Z) : list Z :=
  let n := len msg in
  let zeros := (55 - n) mod 64 in
  let bits := (8 * n) mod 2 ^ 64 in
  msg ++ [128] ++ repeat 0 (Z.to_nat zeros)
      ++ map (fun i => (bits / 256 ^ Z.of_nat i) mod 256) (seq 0 8).

Fixpoint le_words (bs : list Z) : list Z :=
  match bs with
  | b0 :: b1 :: b2 :: b3 :: r => (b0 + 256 * b1 + 65536 * b2 + 16777216 * b3) :: le_words r
  | _ => []
  end.

Definition state : Type := Z * Z * Z * Z.

Definition step (M : list Z) (st : state) (i : nat) : state :=
  let '(A, B, C, D) := st in
  let iz := Z.of_nat i in
  let '(F, g) :=
    if iz <? 16 then (Z.lor (Z.land B C) (Z.land (not32 B) D), iz)
    else if iz <? 32 then (Z.lor (Z.land D B) (Z.land (not32 D) C), (5 * iz + 1) mod 16)
    else if iz <? 48 then (Z.lxor (Z.lxor B C) D, (3 * iz + 5) mod 16)
    else (Z.lxor C (Z.lor B (not32 D)), (7 * iz) mod 16) in
  let F := w32 (F + A + nth i K 0 + nth (Z.to_nat g) M 0) in
  (D, w32 (B + rotl F (nth i shifts 0)), B, C).

Definition block (M : list Z) (st : state) : state :=
  let '(a0, b0, c0, d0) := st in
  let '(A, B, C, D) := fold_left (step M) (seq 0 64) st in
  (w32 (a0 + A), w32 (b0 + B), w32 (c0 + C), w32 (d0 + D)).

Fixpoint blocks (fuel : nat) (ws : list Z) (st : state) : state :=
  match fuel, ws with
  | S fuel', _ :: _ => blocks fuel' (skipn 16 ws) (block (firstn 16 ws) st)
  | _, _ => st
  end.

Definition le_bytes (w : Z) : list Z := map (fun i => (w / 256 ^ Z.of_nat i) mod 256) (seq 0 4).

(** The 16 bytes of the digest. *)
Definition digest (msg : list Z) : list Z :=
  let ws := le_words (pad msg) in
  let '(a, b, c, d) :=
    blocks (List.length ws) ws (0x67452301, 0xefcdab89, 0x98badcfe, 0x10325476) in
  le_bytes a ++ le_bytes b ++ le_bytes c ++ le_bytes d.

(** [int(hashlib.md5(msg).hexdigest(), 16)]. *)
Definition hexdigest_int (msg : list Z) : Z :=
  fold_left (fun acc b => acc * 256 + b) (digest msg) 0.

End MD5.

(* ===================================================================== *)
(** * core/memory_system.py *)
(* ===================================================================== *)

Module SmartMemory.

(** ** The categories of the store *)

(** The dict [update_with_chapter] files under [str(chapter_number)]. *)
Record ChapterSummary := {
  cs_summary : str;
  cs_chapter_number : Z;
  cs_word_count : Z;
  cs_key_events : list str;
  cs_timestamp : str
}.

(** A value of [chapter_summaries]: the dict above, or a plain string (the
    readers accept both). *)
Inductive SummaryEntry :=
| SummaryDict (d : ChapterSummary)
| SummaryText (s : str).

Record TimelineEvent := {
  ev_chapter : Z;
  ev_description : str;
  ev_timestamp : str;
  ev_type : str
}.

Record Location := {
  loc_name : str;
  loc_first_appearance : Z;
  loc_last_appearance : Z;
  loc_appearance_count : Z;
  loc_description : str;
  loc_created_at : str
}.

(** A plot thread; ['chapters'] and ['last_updated'] may be absent. *)
Record Plot := {
  plot_name : str;
  plot_start_chapter : Z;
  plot_end_chapter : Z;
  plot_keywords : list str;
  plot_chapters : option (list Z);
  plot_created_at : str;
  plot_last_updated : option str;
  plot_current_status : str
}.

(** A record of [relationship_graph['relationships']], as
    [_update_relationships] builds it. *)
Record Relationship := {
  rel_characters : list str;
  rel_interaction_count : Z;
  rel_first_interaction : Z;
  rel_last_interaction : Z;
  rel_interaction_chapters : list Z
}.

(** An entry as [add_relationship] appends it. *)
Record ManualRelationship := {
  mr_char1 : str;
  mr_char2 : str;
  mr_relationship : str;
  mr_timestamp : str
}.

(** [relationship_graph]: [{}], or ['relationships'] holding the dict of
    [_update_relationships], or the list of [add_relationship]. *)
Inductive RelationshipGraph :=
| RelEmpty
| RelDict (d : dict Relationship)
| RelList (l : list ManualRelationship).

(** The attributes of a [SmartMemory] object. *)
Record Memory := {
  core_settings : dict value;
  characters : dict Character;
  worldview : dict value;
  chapter_summaries : dict SummaryEntry;
  relationship_graph : RelationshipGraph;
  timeline : list TimelineEvent;
  plots : list Plot;
  locations : dict Location
}.

Definition set_core_settings (v : dict value) (m : Memory) : Memory :=
  {| core_settings := v; characters := characters m; worldview := worldview m;
     chapter_summaries := chapter_summaries m; relationship_graph := relationship_graph m;
     timeline := timeline m; plots := plots m; locations := locations m |}.

Definition set_characters (v : dict Character) (m : Memory) : Memory :=
  {| core_settings := core_settings m; characters := v; worldview := worldview m;
     chapter_summaries := chapter_summaries m; relationship_graph := relationship_graph m;
     timeline := timeline m; plots := plots m; locations := locations m |}.

Definition set_worldview (v : dict value) (m : Memory) : Memory :=
  {| core_settings := core_settings m; characters := characters m; worldview := v;
     chapter_summaries := chapter_summaries m; relationship_graph := relationship_graph m;
     timeline := timeline m; plots := plots m; locations := locations m |}.

Definition set_chapter_summaries (v : dict SummaryEntry) (m : Memory) : Memory :=
  {| core_settings := core_settings m; characters := characters m; worldview := worldview m;
     chapter_summaries := v; relationship_graph := relationship_graph m;
     timeline := timeline m; plots := plots m; locations := locations m |}.

Definition set_relationship_graph (v : RelationshipGraph) (m : Memory) : Memory :=
  {| core_settings := core_settings m; characters := characters m; worldview := worldview m;
     chapter_summaries := chapter_summaries m; relationship_graph := v;
     timeline := timeline m; plots := plots m; locations := locations m |}.

Definition set_timeline (v : list TimelineEvent) (m : Memory) : Memory :=
  {| core_settings := core_settings m; characters := characters m; worldview := worldview m;
     chapter_summaries := chapter_summaries m; relationship_graph := relationship_graph m;
     timeline := v; plots := plots m; locations := locations m |}.

Definition set_plots (v : list Plot) (m : Memory) : Memory :=
  {| core_settings := core_settings m; characters := characters m; worldview := worldview m;
     chapter_summaries := chapter_summaries m; relationship_graph := relationship_graph m;
     timeline := timeline m; plots := v; locations := locations m |}.

Definition set_locations (v : dict Location) (m : Memory) : Memory :=
  {| core_settings := core_settings m; characters := characters m; worldview := worldview m;
     chapter_summaries := chapter_summaries m; relationship_graph := relationship_graph m;
     timeline := timeline m; plots := plots m; locations := v |}.

(** ** The world around the store *)

(** A reading of [datetime.now()], by the two renderings the source uses. *)
Record datetime := {
  isoformat : str;
  strftime_backup : str   (* strftime("%Y%m%d_%H%M%S") *)
}.

(** The files [_save_to_disk] writes. *)
Inductive Target :=
| CoreSettingsFile                 (* core_settings.json *)
| CharacterFile (safe_name : str)  (* characters/<safe_name>.json *)
| SummariesFile                    (* summaries/chapter_summaries.json *)
| WorldviewFile                    (* worldview.json *)
| TimelineFile                     (* timeline.json *)
| PlotFile (index : Z)             (* plots/plot_<index>.json *)
| LocationFile (safe_name : str).  (* locations/<safe_name>.json *)

(** What the memory directory holds: the last value dumped to each file, and
    the names of the backup directories ([None]: the file does not exist). *)
Record Disk := {
  core_settings_json : option (dict value);
  character_files : dict Character;
  chapter_summaries_json : option (dict SummaryEntry);
  worldview_json : option (dict value);
  timeline_json : option (list TimelineEvent);
  plot_files : list (Z * Plot);
  location_files : dict Location;
  backups : list str
}.

(** What the embedding does not decide: the clock (the reading of the
    [n]-th call of [datetime.now()]), which writes raise, [str.isalnum] on
    a code point, and the order in which a set of strings is iterated. *)
Record Env := {
  now : nat -> datetime;
  write_fails : Target -> bool;
  isalnum : Z -> bool;
  set_order : list str -> list str
}.

(** The state the methods run in: the object, the disk, and how many times
    the clock was read. *)
Record System := {
  self : Memory;
  disk : Disk;
  ticks : nat
}.

(** ** A state monad for the methods *)

Definition M (A : Type) : Type := System -> A * System.

Definition ret {A : Type} (a : A) : M A := fun s => (a, s).

Definition bind {A B : Type} (c : M A) (k : A -> M B) : M B :=
  fun s => let (a, s') := c s in k a s'.

Notation "x <- c ;; k" := (bind c (fun x => k))
  (at level 61, c at next level, right associativity).
Notation "c ;;; k" := (bind c (fun _ => k))
  (at level 61, right associativity).

Definition get_self : M Memory := fun s => (self s, s).

Definition modify_self (f : Memory -> Memory) : M unit :=
  fun s => (tt, {| self := f (self s); disk := disk s; ticks := ticks s |}).

Definition modify_disk (f : Disk -> Disk) : M unit :=
  fun s => (tt, {| self := self s; disk := f (disk s); ticks := ticks s |}).

Fixpoint for_each {A : Type} (l : list A) (body : A -> M unit) : M unit :=
  match l with
  | [] => ret tt
  | x :: r => body x ;;; for_each r body
  end.

(** ** Relevance of characters (read-only methods) *)

(** The keys of the dict [update_with_chapter] stores as a summary. *)
Definition summary_keys : list str :=
  map u ["summary"; "chapter_number"; "word_count"; "key_events"; "timestamp"]%string.

(** [summary and character_name in summary] for
    [summary = chapter_summaries.get(str(chap_num), "")]: on a string a
    substring test, on a dict a test of its keys. *)
Definition mentioned_in (character_name : str) (summary : option SummaryEntry) : bool :=
  match summary with
  | None => false
  | Some (SummaryText s) => negb (len s =? 0) && contains character_name s
  | Some (SummaryDict _) => mem character_name summary_keys
  end.

Definition _count_character_mentions (m : Memory) (character_name : str) (up_to_chapter : Z) : Z :=
  len (filter (fun chap_num =>
                 mentioned_in character_name (get (str_of_int chap_num) (chapter_summaries m)))
              (range (Z.max 1 (up_to_chapter - 5)) up_to_chapter)).

Definition importance_or (default : Z) (char_data : Character) : Z :=
  match char_importance char_data with Some i => i | None => default end.

Definition _calculate_character_relevance
    (m : Memory) (character_name : str) (chapter_number : Z) : float :=
  match get character_name (characters m) with
  | None => 0%float
  | Some char_data =>
      let relevance := 0%float in
      let importance := importance_or 5 char_data in
      let relevance := (relevance + float_of_int importance * 0.05)%float in
      let last_appearance :=
        match char_last_appearance char_data with Some n => n | None => 0 end in
      let relevance :=
        if 0 <? last_appearance then
          let chapters_since := chapter_number - last_appearance in
          if chapters_since <=? 3 then (relevance + 0.3)%float
          else if chapters_since <=? 10 then (relevance + 0.1)%float
          else relevance
        else relevance in
      let dev_history :=
        match char_development_history char_data with Some h => h | None => [] end in
      let relevance :=
        if negb (len dev_history =? 0)
        then (relevance + fmin 0.2 (float_of_int (len dev_history) * 0.02))%float
        else relevance in
      let hash_input := character_name ++ u "_" ++ str_of_int chapter_number in
      let hash_val := MD5.hexdigest_int (encode hash_input) in
      let hash_score := (float_of_int (hash_val mod 100) / 100)%float in
      let recent_mentions := _count_character_mentions m character_name chapter_number in
      let relevance := (relevance + fmin 0.2 (float_of_int recent_mentions * 0.05))%float in
      fmin 1 (relevance + hash_score * 0.2)%float
  end.

(** Rule 1: the protagonist and the characters of importance 8 or more. *)
Definition always_relevant (chars : dict Character) : dict Character :=
  fold_left (fun relevant_chars '(name, data) =>
               if contains (u "主角") name || (8 <=? importance_or 0 data)
               then set name data relevant_chars else relevant_chars)
            chars [].

(** Rule 2, chapters 1 to 3; the [break] is inside the [if]. *)
Fixpoint opening_characters (chars relevant_chars : dict Character) : dict Character :=
  match chars with
  | [] => relevant_chars
  | (name, data) :: rest =>
      if (6 <=? importance_or 0 data) && negb (has name relevant_chars) then
        let relevant_chars := set name data relevant_chars in
        if 5 <=? len relevant_chars then relevant_chars
        else opening_characters rest relevant_chars
      else opening_characters rest relevant_chars
  end.

(** Rule 2, later chapters; the [break] is tested on every iteration. *)
Fixpoint scored_characters (m : Memory) (chapter_number : Z)
    (chars relevant_chars : dict Character) : dict Character :=
  match chars with
  | [] => relevant_chars
  | (name, data) :: rest =>
      let relevance_score := _calculate_character_relevance m name chapter_number in
      let relevant_chars :=
        if (0.3 <=? relevance_score)%float || (7 <=? importance_or 0 data)
        then set name data relevant_chars else relevant_chars in
      if 8 <=? len relevant_chars then relevant_chars
      else scored_characters m chapter_number rest relevant_chars
  end.

Definition _get_relevant_characters (m : Memory) (chapter_number : Z) : dict Character :=
  let relevant_chars := always_relevant (characters m) in
  if chapter_number <=? 3
  then opening_characters (characters m) relevant_chars
  else scored_characters m chapter_number (characters m) relevant_chars.

(** ** The chapter plan *)

(** An entry of the plan [get_chapter_plan] builds; the keys of the source
    are 章节, 幕, 目标字数, 状态 and 摘要. *)
Record PlanEntry := {
  plan_chapter : Z;
  plan_act : str;
  plan_target_words : Z;
  plan_status : str;
  plan_summary : str
}.

Definition plan_entry_value (e : PlanEntry) : value :=
  VDict [(u "章节", VInt (plan_chapter e)); (u "幕", VStr (plan_act e));
         (u "目标字数", VInt (plan_target_words e)); (u "状态", VStr (plan_status e));
         (u "摘要", VStr (plan_summary e))].

(** The plan as the Python value it is (a list of dicts). *)
Definition plan_value (plan : list PlanEntry) : value := VList (map plan_entry_value plan).

Definition plan_entry (m : Memory) (estimated_chapters i : Z) : PlanEntry :=
  let act :=
    if int_le_float i (float_of_int estimated_chapters * 0.3)%float then u "第一幕：建立"
    else if int_le_float i (float_of_int estimated_chapters * 0.7)%float then u "第二幕：对抗"
    else u "第三幕：解决" in
  let status := if has (str_of_int i) (chapter_summaries m) then u "已完成" else u "待生成" in
  let summary :=
    match get (str_of_int i) (chapter_summaries m) with
    | None => []
    | Some (SummaryDict d) => cs_summary d
    | Some (SummaryText s) => s
    end in
  {| plan_chapter := i;
     plan_act := act;
     plan_target_words := 3000;
     plan_status := status;
     plan_summary := if 100 <? len summary then take 100 summary ++ u "..." else summary |}.

(** The first definition of [get_chapter_plan] in the class (line 225). *)
Definition get_chapter_plan_first (m : Memory) : value :=
  match get (u "chapter_plan") (core_settings m) with
  | Some plan => plan
  | None => VList []
  end.

(** [outline = self.core_settings.get('outline', {})] and
    [target_words = outline.get('target_words', 100000)]; [None] when the
    method raises on them (an outline that is not a dict, a [target_words]
    that [//] does not accept). *)
Definition target_words_of (m : Memory) : option Z :=
  let outline :=
    match get (u "outline") (core_settings m) with Some v => v | None => VDict [] end in
  match outline with
  | VDict outline =>
      let target_words :=
        match get (u "target_words") outline with Some v => v | None => VInt 100000 end in
      match target_words with
      | VInt target_words => Some target_words
      | _ => None
      end
  | _ => None
  end.

(** The second definition (line 728), which is the one the class ends up
    with.  [None]: the call raises. *)
Definition get_chapter_plan (m : Memory) : option (list PlanEntry) :=
  match target_words_of m with
  | Some target_words =>
      let estimated_chapters := Z.max 10 (target_words / 3000) in
      Some (map (plan_entry m estimated_chapters) (range 1 (estimated_chapters + 1)))
  | None => None
  end.

(** ** The other readers of [get_context] *)

(** [if summary:] for a value of [chapter_summaries]: the dict of
    [update_with_chapter] always has its five keys, a string counts when it
    is not empty. *)
Definition summary_truthy (summary : SummaryEntry) : bool :=
  match summary with
  | SummaryDict _ => true
  | SummaryText s => negb (len s =? 0)
  end.

(** [summary.get('summary', '')] on a dict, [str(summary)] otherwise. *)
Definition summary_text_of (summary : SummaryEntry) : str :=
  match summary with
  | SummaryDict d => cs_summary d
  | SummaryText s => s
  end.

Definition _get_recent_summaries (m : Memory) (current_chapter window_size : Z)
  : list (Z * str) :=
  let start_chapter := Z.max 1 (current_chapter - window_size) in
  flat_map (fun chap_num =>
    match get (str_of_int chap_num) (chapter_summaries m) with
    | Some summary =>
        if summary_truthy summary then
          let summary_text := summary_text_of summary in
          let summary_text :=
            if 200 <? len summary_text then take 200 summary_text ++ u "..."
            else summary_text in
          [(chap_num, summary_text)]
        else []
    | None => []
    end) (range start_chapter current_chapter).

(** The loop of [_get_relevant_locations]; the [break] is tested on every
    iteration. *)
Fixpoint hashed_locations (chapter_number : Z) (locs relevant_locs : dict Location)
  : dict Location :=
  match locs with
  | [] => relevant_locs
  | (name, data) :: rest =>
      let hash_input := name ++ u "_" ++ str_of_int chapter_number in
      let hash_val := MD5.hexdigest_int (encode hash_input) in
      let relevant_locs :=
        if hash_val mod 3 =? 0 then set name data relevant_locs else relevant_locs in
      if 5 <=? len relevant_locs then relevant_locs
      else hashed_locations chapter_number rest relevant_locs
  end.

Definition _get_relevant_locations (m : Memory) (chapter_number : Z) : dict Location :=
  hashed_locations chapter_number (locations m) [].

(** [_get_active_plots]; the threads of the store carry ['start_chapter']
    and ['end_chapter'] (every thread [_extract_plots] creates does). *)
Definition _get_active_plots (m : Memory) (chapter_number : Z) : list Plot :=
  take 5 (filter (fun plot =>
                    (plot_start_chapter plot <=? chapter_number)
                    && (chapter_number <=? plot_end_chapter plot))
                 (plots m)).

(** *** [_get_timeline_events] *)

(** [s.split(sep)] for a separator of one character: the parts between
    its occurrences, at least one. *)
Fixpoint split_on (sep : Z) (s : str) : list str :=
  match s with
  | [] => [[]]
  | c :: r =>
      let parts := split_on sep r in
      if c =? sep then [] :: parts else (c :: hd [] parts) :: tl parts
  end.

(** The digits of a plain decimal numeral, [None] with any other character. *)
Fixpoint decimal_digits (s : str) : option Decimal.uint :=
  match s with
  | [] => Some Decimal.Nil
  | c :: r =>
      match decimal_digits r with
      | Some d =>
          if c =? 48 then Some (Decimal.D0 d) else if c =? 49 then Some (Decimal.D1 d)
          else if c =? 50 then Some (Decimal.D2 d) else if c =? 51 then Some (Decimal.D3 d)
          else if c =? 52 then Some (Decimal.D4 d) else if c =? 53 then Some (Decimal.D5 d)
          else if c =? 54 then Some (Decimal.D6 d) else if c =? 55 then Some (Decimal.D7 d)
          else if c =? 56 then Some (Decimal.D8 d) else if c =? 57 then Some (Decimal.D9 d)
          else None
      | None => None
      end
  end.

(** [int(s)] on a plain decimal numeral, as [str(n)] writes a positive
    [n]; [None] on the empty string, where [int] raises, and on every
    other string (signs, blanks, underscores and letters are not read). *)
Definition int_of_str (s : str) : option Z :=
  match s with
  | [] => None
  | _ => option_map Z.of_uint (decimal_digits s)
  end.

(** The sort key [int(x.split('第')[1].split('章')[0])]; [None] when it
    raises. *)
Definition event_key (x : str) : option Z :=
  match nth_error (split_on 31532 x) 1 with
  | Some part =>
      match split_on 31456 part with
      | first :: _ => int_of_str first
      | [] => None
      end
  | None => None
  end.

(** The keys of [list.sort(key=...)], computed for every element before
    any is moved; [None] when a key raises. *)
Fixpoint keyed (events : list str) : option (list (Z * str)) :=
  match events with
  | [] => Some []
  | x :: rest =>
      match event_key x, keyed rest with
      | Some k, Some l => Some ((k, x) :: l)
      | _, _ => None
      end
  end.

(** A stable sort by key (insertion sort). *)
Fixpoint insert_keyed {A : Type} (x : Z * A) (l : list (Z * A)) : list (Z * A) :=
  match l with
  | [] => [x]
  | y :: r => if fst x <=? fst y then x :: l else y :: insert_keyed x r
  end.

Definition sort_keyed {A : Type} (l : list (Z * A)) : list (Z * A) :=
  fold_right insert_keyed [] l.

(** The line [f"第{event_chapter}章: {event_desc}"]. *)
Definition event_line (event : TimelineEvent) : str :=
  u "第" ++ str_of_int (ev_chapter event) ++ u "章: " ++ ev_description event.

(** [_get_timeline_events]; [None] when the sort raises. *)
Definition _get_timeline_events (m : Memory) (up_to_chapter : Z) : option (list str) :=
  let events :=
    flat_map (fun event =>
                let event_chapter := ev_chapter event in
                if (0 <? event_chapter) && (event_chapter <=? up_to_chapter)
                then [event_line event] else [])
             (timeline m) in
  match keyed events with
  | Some l =>
      let events := map snd (sort_keyed l) in
      Some (skipn (List.length events - 10) events)
  | None => None
  end.

Section WithEnv.
Variable env : Env.

(** [datetime.now()]. *)
Definition datetime_now : M datetime :=
  fun s => (now env (ticks s),
            {| self := self s; disk := disk s; ticks := S (ticks s) |}).

(** ** Saving *)

(** [_create_backup]: a directory named after the clock; when it exists
    already (a second save within the same second) copying into it raises,
    which the method swallows before it prunes; otherwise the five last
    names in sorted order are kept. *)
Definition _create_backup : M unit :=
  t <- datetime_now ;;
  let timestamp := strftime_backup t in
  modify_disk (fun d =>
    if mem timestamp (backups d) then d
    else
      let names := sorted_str (timestamp :: backups d) in
      {| core_settings_json := core_settings_json d;
         character_files := character_files d;
         chapter_summaries_json := chapter_summaries_json d;
         worldview_json := worldview_json d;
         timeline_json := timeline_json d;
         plot_files := plot_files d;
         location_files := location_files d;
         backups := skipn (List.length names - 5) names |}).

(** ["".join(c for c in name if c.isalnum() or c in " _-")]. *)
Definition safe_name (name : str) : str :=
  filter (fun c => isalnum env c || existsb (Z.eqb c) (u " _-")) name.

(** One [json.dump] into a freshly opened file.  A write that raises is
    taken to raise as the file is opened, before its content changes. *)
Inductive Write :=
| WriteCoreSettings (v : dict value)
| WriteCharacter (name : str) (v : Character)
| WriteSummaries (v : dict SummaryEntry)
| WriteWorldview (v : dict value)
| WriteTimeline (v : list TimelineEvent)
| WritePlot (index : Z) (v : Plot)
| WriteLocation (name : str) (v : Location).

Definition target (w : Write) : Target :=
  match w with
  | WriteCoreSettings _ => CoreSettingsFile
  | WriteCharacter name _ => CharacterFile name
  | WriteSummaries _ => SummariesFile
  | WriteWorldview _ => WorldviewFile
  | WriteTimeline _ => TimelineFile
  | WritePlot index _ => PlotFile index
  | WriteLocation name _ => LocationFile name
  end.

Definition perform (w : Write) (d : Disk) : Disk :=
  {| core_settings_json :=
       match w with WriteCoreSettings v => Some v | _ => core_settings_json d end;
     character_files :=
       match w with WriteCharacter name v => set name v (character_files d)
               | _ => character_files d end;
     chapter_summaries_json :=
       match w with WriteSummaries v => Some v | _ => chapter_summaries_json d end;
     worldview_json :=
       match w with WriteWorldview v => Some v | _ => worldview_json d end;
     timeline_json :=
       match w with WriteTimeline v => Some v | _ => timeline_json d end;
     plot_files :=
       match w with WritePlot index v => dict_set Z.eqb index v (plot_files d)
               | _ => plot_files d end;
     location_files :=
       match w with WriteLocation name v => set name v (location_files d)
               | _ => location_files d end;
     backups := backups d |}.

(** [for i, plot in enumerate(self.plots)]: the file is [plot_{i+1}.json]. *)
Fixpoint plot_writes (i : Z) (l : list Plot) : list Write :=
  match l with
  | [] => []
  | plot :: rest => WritePlot (i + 1) plot :: plot_writes (i + 1) rest
  end.

(** The writes of [_save_to_disk] after the backup, in the order of the source. *)
Definition save_writes (m : Memory) : list Write :=
  [WriteCoreSettings (core_settings m)]
  ++ map (fun '(char_name, char_data) => WriteCharacter (safe_name char_name) char_data)
         (characters m)
  ++ [WriteSummaries (chapter_summaries m);
      WriteWorldview (worldview m);
      WriteTimeline (timeline m)]
  ++ plot_writes 0 (plots m)
  ++ map (fun '(loc_name, loc_data) => WriteLocation (safe_name loc_name) loc_data)
         (locations m).

(** The body of the [try]: the writes in turn, until one raises.  The
    result says whether the end was reached. *)
Fixpoint run_writes (ws : list Write) (d : Disk) : bool * Disk :=
  match ws with
  | [] => (true, d)
  | w :: rest =>
      if write_fails env (target w) then (false, d)
      else run_writes rest (perform w d)
  end.

(** [_save_to_disk]: [True] when every write went through, [False] from the
    [except] branch. *)
Definition _save_to_disk : M bool :=
  _create_backup ;;;
  fun s =>
    let (ok, d) := run_writes (save_writes (self s)) (disk s) in
    (ok, {| self := self s; disk := d; ticks := ticks s |}).

(** [save_chapter_plan] *)
Definition save_chapter_plan (chapter_plan : value) : M unit :=
  modify_self (fun m => set_core_settings (set (u "chapter_plan") chapter_plan (core_settings m)) m) ;;;
  _save_to_disk ;;;
  ret tt.

(** ** [update_with_chapter] *)

(** The dict stored as the chapter's summary. *)
Definition chapter_summary_of (chapter_number : Z) (chapter_data : ChapterData)
    (timestamp : str) : ChapterSummary :=
  let summary :=
    if len (summary chapter_data) =? 0 then
      let content := content chapter_data in
      if 200 <? len content then take 200 content ++ u "..." else content
    else summary chapter_data in
  {| cs_summary := summary;
     cs_chapter_number := chapter_number;
     cs_word_count := len (content chapter_data);
     cs_key_events := key_events chapter_data;
     cs_timestamp := timestamp |}.

(** The character after the body of [if char_name in self.characters]. *)
Definition developed (c : Character) (chapter_number : Z) (development timestamp : str)
  : Character :=
  let history := match char_development_history c with Some h => h | None => [] end in
  {| char_name := char_name c;
     char_identity := char_identity c;
     char_personality := char_personality c;
     char_motivation := char_motivation c;
     char_importance := char_importance c;
     char_abilities := char_abilities c;
     char_last_appearance := Some chapter_number;
     char_development_history :=
       Some (history ++ [{| dev_chapter := chapter_number;
                            dev_development := development;
                            dev_timestamp := timestamp |}]);
     char_created_at := char_created_at c;
     char_updated_at := char_updated_at c |}.

(** One iteration of [for char_name, development in character_development.items()]. *)
Definition record_development (chapter_number : Z) (item : str * str) : M unit :=
  let (char_name, development) := item in
  m <- get_self ;;
  match get char_name (characters m) with
  | Some c =>
      t <- datetime_now ;;
      modify_self (fun m =>
        set_characters
          (set char_name (developed c chapter_number development (isoformat t)) (characters m))
          m)
  | None => ret tt
  end.

(** One iteration of [for event in key_events]. *)
Definition record_event (chapter_number : Z) (event : str) : M unit :=
  t <- datetime_now ;;
  modify_self (fun m =>
    set_timeline
      (timeline m ++ [{| ev_chapter := chapter_number;
                         ev_description := event;
                         ev_timestamp := isoformat t;
                         ev_type := u "chapter_event" |}])
      m).

(** *** [_extract_locations] *)

(** A location pattern: a literal, a group of 2 to 6 characters of
    [[一-龥]], then optional literal characters. *)
Record LocationPattern := {
  lp_literal : str;
  lp_optional : str
}.

Definition location_patterns : list LocationPattern :=
  [ {| lp_literal := u "在"; lp_optional := u "地区" |};
    {| lp_literal := u "来到"; lp_optional := [] |};
    {| lp_literal := u "位于"; lp_optional := [] |};
    {| lp_literal := []; lp_optional := u "中" |} ].

(** The longest prefix of at most [n] characters of the class (greedy
    [{2,6}] for [n = 6]). *)
Fixpoint take_class (n : nat) (s : str) : str :=
  match n, s with
  | S n', c :: r => if ConsistencyChecker.is_cjk c then c :: take_class n' r else []
  | _, _ => []
  end.

(** How many characters the trailing optional characters consume. *)
Fixpoint optional_length (optional s : str) : nat :=
  match optional with
  | [] => O
  | o :: rest =>
      match s with
      | c :: r => if c =? o then S (optional_length rest r) else optional_length rest s
      | [] => O
      end
  end.

(** A match of the pattern at the start of [s]: the group and the length of
    the whole match. *)
Definition match_here (p : LocationPattern) (s : str) : option (str * nat) :=
  if startswith (lp_literal p) s then
    let after := skipn (List.length (lp_literal p)) s in
    let group := take_class 6 after in
    if 2 <=? len group then
      Some (group,
            (List.length (lp_literal p) + List.length group
             + optional_length (lp_optional p) (skipn (List.length group) after))%nat)
    else None
  else None.

(** [re.findall(pattern, content)]: the groups of the non-overlapping
    matches, left to right ([skip] characters belong to the last match). *)
Fixpoint findall_pattern (p : LocationPattern) (s : str) (skip : nat) : list str :=
  match s with
  | [] => []
  | _ :: r =>
      match skip with
      | S k => findall_pattern p r k
      | O =>
          match match_here p s with
          | Some (group, n) => group :: findall_pattern p r (n - 1)
          | None => findall_pattern p r O
          end
      end
  end.

(** The elements of [locations_found], in the order the set is iterated. *)
Definition locations_found (content : str) : list str :=
  set_order env
    (distinct (flat_map (fun pattern =>
                           filter (fun m => 2 <=? len m) (findall_pattern pattern content O))
                        location_patterns)).

Definition record_location (chapter_number : Z) (loc_name : str) : M unit :=
  m <- get_self ;;
  match get loc_name (locations m) with
  | None =>
      t <- datetime_now ;;
      modify_self (fun m =>
        set_locations
          (set loc_name
               {| SmartMemory.loc_name := loc_name;
                  loc_first_appearance := chapter_number;
                  loc_last_appearance := chapter_number;
                  loc_appearance_count := 1;
                  loc_description := u "在" ++ loc_name ++ u "发生的事件";
                  loc_created_at := isoformat t |}
               (locations m))
          m)
  | Some l =>
      modify_self (fun m =>
        set_locations
          (set loc_name
               {| SmartMemory.loc_name := SmartMemory.loc_name l;
                  loc_first_appearance := loc_first_appearance l;
                  loc_last_appearance := chapter_number;
                  loc_appearance_count := loc_appearance_count l + 1;
                  loc_description := loc_description l;
                  loc_created_at := loc_created_at l |}
               (locations m))
          m)
  end.

Definition _extract_locations (content : str) (chapter_number : Z) : M unit :=
  for_each (locations_found content) (record_location chapter_number).

(** *** [_extract_plots] *)

(** Whether the loop [for event in key_events] reaches its [break]: some
    event contains some keyword of the plot. *)
Definition plot_matches (plot : Plot) (key_events : list str) : bool :=
  existsb (fun event => existsb (fun keyword => contains keyword event) (plot_keywords plot))
          key_events.

(** The plot after the body of the [if any(...)]. *)
Definition extended (plot : Plot) (chapter_number : Z) (timestamp : str) : Plot :=
  let chapters := match plot_chapters plot with Some l => l | None => [] end in
  {| plot_name := plot_name plot;
     plot_start_chapter := plot_start_chapter plot;
     plot_end_chapter := plot_end_chapter plot;
     plot_keywords := plot_keywords plot;
     plot_chapters := Some (chapters ++ [chapter_number]);
     plot_created_at := plot_created_at plot;
     plot_last_updated := Some timestamp;
     plot_current_status := plot_current_status plot |}.

(** [for plot in self.plots]: every plot is visited; the [break] only leaves
    the loop over the events of that plot. *)
Fixpoint extend_plots (l : list Plot) (key_events : list str) (chapter_number : Z)
  : M (list Plot) :=
  match l with
  | [] => ret []
  | plot :: rest =>
      plot' <- (if plot_matches plot key_events
                then t <- datetime_now ;; ret (extended plot chapter_number (isoformat t))
                else ret plot) ;;
      rest' <- extend_plots rest key_events chapter_number ;;
      ret (plot' :: rest')
  end.

Definition new_plot (count : Z) (key_events : list str) (chapter_number : Z)
    (timestamp : str) : Plot :=
  {| plot_name := u "情节线_" ++ str_of_int (count + 1);
     plot_start_chapter := chapter_number;
     plot_end_chapter := chapter_number;
     plot_keywords := take 3 key_events;
     plot_chapters := Some [chapter_number];
     plot_created_at := timestamp;
     plot_last_updated := None;
     plot_current_status := u "进行中" |}.

Definition _extract_plots (chapter_data : ChapterData) (chapter_number : Z) : M unit :=
  let key_events := key_events chapter_data in
  if negb (len key_events =? 0) then
    m <- get_self ;;
    plots' <- extend_plots (plots m) key_events chapter_number ;;
    modify_self (set_plots plots') ;;;
    if 2 <=? len key_events then
      t <- datetime_now ;;
      modify_self (fun m =>
        set_plots (plots m ++ [new_plot (len (plots m)) key_events chapter_number (isoformat t)]) m)
    else ret tt
  else ret tt.

(** *** [_update_relationships] *)

(** The list [character_interactions]: both orders of a pair are listed. *)
Definition character_interactions (m : Memory) (content : str) : list (str * str) :=
  flat_map (fun char1 =>
    flat_map (fun char2 =>
      if negb (str_eqb char1 char2)
         && (contains char1 content && contains char2 content)
         && (Z.abs (find content char1 - find content char2) <? 500)
      then [(char1, char2)] else [])
      (keys (characters m)))
    (keys (characters m)).

(** One iteration of [for char1, char2 in character_interactions]; [None]
    when the assignment raises (['relationships'] is the list of
    [add_relationship], which a string cannot index). *)
Definition record_interaction (chapter_number : Z) (g : RelationshipGraph)
    (interaction : str * str) : option RelationshipGraph :=
  let (char1, char2) := interaction in
  let relationship_key := char1 ++ u "-" ++ char2 in
  match (match g with RelEmpty => RelDict [] | _ => g end) with
  | RelDict d =>
      match get relationship_key d with
      | None =>
          Some (RelDict (set relationship_key
                  {| rel_characters := [char1; char2];
                     rel_interaction_count := 1;
                     rel_first_interaction := chapter_number;
                     rel_last_interaction := chapter_number;
                     rel_interaction_chapters := [chapter_number] |} d))
      | Some rel =>
          Some (RelDict (set relationship_key
                  {| rel_characters := rel_characters rel;
                     rel_interaction_count := rel_interaction_count rel + 1;
                     rel_first_interaction := rel_first_interaction rel;
                     rel_last_interaction := chapter_number;
                     rel_interaction_chapters :=
                       if existsb (Z.eqb chapter_number) (rel_interaction_chapters rel)
                       then rel_interaction_chapters rel
                       else rel_interaction_chapters rel ++ [chapter_number] |} d))
      end
  | _ => None
  end.

(** The loop over the interactions: the graph reached, and whether the loop
    ended without raising. *)
Fixpoint record_interactions (chapter_number : Z) (pairs : list (str * str))
    (g : RelationshipGraph) : bool * RelationshipGraph :=
  match pairs with
  | [] => (true, g)
  | interaction :: rest =>
      match record_interaction chapter_number g interaction with
      | Some g' => record_interactions chapter_number rest g'
      | None => (false, g)
      end
  end.

Definition _update_relationships (chapter_data : ChapterData) (chapter_number : Z) : M bool :=
  m <- get_self ;;
  let content := content chapter_data in
  let (ok, g) :=
    record_interactions chapter_number (character_interactions m content)
                        (relationship_graph m) in
  modify_self (set_relationship_graph g) ;;;
  ret ok.

(** [update_with_chapter]; the result is [false] when the call raises (from
    [_update_relationships], before the save). *)
Definition update_with_chapter (chapter_number : Z) (chapter_data : ChapterData) : M bool :=
  t <- datetime_now ;;
  let chapter_summary := chapter_summary_of chapter_number chapter_data (isoformat t) in
  modify_self (fun m =>
    set_chapter_summaries
      (set (str_of_int chapter_number) (SummaryDict chapter_summary) (chapter_summaries m)) m) ;;;
  for_each (character_development chapter_data) (record_development chapter_number) ;;;
  for_each (key_events chapter_data) (record_event chapter_number) ;;;
  _extract_locations (content chapter_data) chapter_number ;;;
  _extract_plots chapter_data chapter_number ;;;
  ok <- _update_relationships chapter_data chapter_number ;;
  if ok then _save_to_disk ;;; ret true else ret false.

(** [add_relationship]; [false] when the call raises (['relationships'] is
    the dict of [_update_relationships], which has no [append]). *)
Definition add_relationship (char1 char2 relationship : str) : M bool :=
  m <- get_self ;;
  match (match relationship_graph m with RelEmpty => RelList [] | g => g end) with
  | RelList l =>
      t <- datetime_now ;;
      modify_self (set_relationship_graph
        (RelList (l ++ [{| mr_char1 := char1; mr_char2 := char2;
                           mr_relationship := relationship;
                           mr_timestamp := isoformat t |}]))) ;;;
      _save_to_disk ;;;
      ret true
  | g => modify_self (set_relationship_graph g) ;;; ret false
  end.

(** ** [import_memory] *)

(** What is at [import_path]. *)
Record ImportData := {
  imp_core_settings : option (dict value);
  imp_characters : option (dict Character);
  imp_worldview : option (dict value);
  imp_chapter_summaries : option (dict SummaryEntry);
  imp_timeline : option (list TimelineEvent);
  imp_plots : option (list Plot);
  imp_locations : option (dict Location)
}.

Inductive ImportFile :=
| FileMissing                    (* os.path.exists is false *)
| FileMalformed                  (* json.load raises *)
| FileData (data : ImportData).

Definition present {A : Type} (o : option A) : bool :=
  match o with Some _ => true | None => false end.

(** [key in import_data] for the keys of [required_keys], in their order. *)
Definition required_keys (data : ImportData) : list bool :=
  [present (imp_core_settings data); present (imp_characters data);
   present (imp_worldview data); present (imp_chapter_summaries data)].

Definition or_default {A : Type} (default : A) (o : option A) : A :=
  match o with Some a => a | None => default end.

Definition import_memory (file : ImportFile) : M bool :=
  match file with
  | FileMissing => ret false
  | FileMalformed => ret false
  | FileData import_data =>
      if forallb (fun b => b) (required_keys import_data) then
        modify_self (fun m =>
          {| core_settings := or_default [] (imp_core_settings import_data);
             characters := or_default [] (imp_characters import_data);
             worldview := or_default [] (imp_worldview import_data);
             chapter_summaries := or_default [] (imp_chapter_summaries import_data);
             relationship_graph := relationship_graph m;
             timeline := or_default [] (imp_timeline import_data);
             plots := or_default [] (imp_plots import_data);
             locations := or_default [] (imp_locations import_data) |}) ;;;
        _save_to_disk ;;;
        ret true
      else ret false
  end.

(** ** The setters of the application *)

(** [save_core_settings]: [dict.update], then the save. *)
Definition save_core_settings (settings : dict value) : M unit :=
  modify_self (fun m =>
    set_core_settings
      (fold_left (fun d '(key, v) => set key v d) settings (core_settings m)) m) ;;;
  _save_to_disk ;;;
  ret tt.

(** [save_worldview]: the copy in the core settings is made only when they
    have no ['worldview'] yet. *)
Definition save_worldview (worldview : dict value) : M unit :=
  modify_self (set_worldview worldview) ;;;
  modify_self (fun m =>
    if has (u "worldview") (core_settings m) then m
    else set_core_settings (set (u "worldview") (VDict worldview) (core_settings m)) m) ;;;
  _save_to_disk ;;;
  ret tt.

(** ** [export_memory] *)

(** The dict [export_memory] dumps. *)
Record ExportData := {
  exp_core_settings : dict value;
  exp_characters : dict Character;
  exp_worldview : dict value;
  exp_chapter_summaries : dict SummaryEntry;
  exp_timeline : list TimelineEvent;
  exp_plots : list Plot;
  exp_locations : dict Location;
  exp_export_time : str;
  exp_version : str
}.

(** [export_memory]: the clock is read as the dict is built, then the file
    is opened and written.  [export_path_fails] says whether opening
    [export_path] raises; the result is what the file then holds, [None]
    from the [except] branch (the method returns [False]). *)
Definition export_memory (export_path_fails : bool) : M (option ExportData) :=
  m <- get_self ;;
  t <- datetime_now ;;
  let export_data :=
    {| exp_core_settings := core_settings m;
       exp_characters := characters m;
       exp_worldview := worldview m;
       exp_chapter_summaries := chapter_summaries m;
       exp_timeline := timeline m;
       exp_plots := plots m;
       exp_locations := locations m;
       exp_export_time := isoformat t;
       exp_version := u "1.0" |} in
  if export_path_fails then ret None else ret (Some export_data).

(** What [json.load] reads back from an exported file: every category is
    present (the keys [export_time] and [version] are not read by
    [import_memory]). *)
Definition exported_file (export_data : ExportData) : ImportFile :=
  FileData
    {| imp_core_settings := Some (exp_core_settings export_data);
       imp_characters := Some (exp_characters export_data);
       imp_worldview := Some (exp_worldview export_data);
       imp_chapter_summaries := Some (exp_chapter_summaries export_data);
       imp_timeline := Some (exp_timeline export_data);
       imp_plots := Some (exp_plots export_data);
       imp_locations := Some (exp_locations export_data) |}.

End WithEnv.

End SmartMemory.

(* ===================================================================== *)
(** * core/generator.py *)
(* ===================================================================== *)

Module NovelGenerator.

(** [generate_chapter_plan]: the plan the application stores with
    [save_chapter_plan]. *)
Definition generate_chapter_plan (outline : dict value) (target_words : Z) : value :=
  let estimated_chapters := Z.max 10 (target_words / 3000) in
  VList (map (fun i =>
    let act :=
      if int_le_float i (float_of_int estimated_chapters * 0.3)%float then u "第一幕"
      else if int_le_float i (float_of_int estimated_chapters * 0.7)%float then u "第二幕"
      else u "第三幕" in
    VDict [(u "chapter", VInt i); (u "act", VStr act);
           (u "target_words", VInt 3000); (u "status", VStr (u "待生成"))])
    (range 1 (estimated_chapters + 1))).

End NovelGenerator.

(* ===================================================================== *)
(** * Sample inputs *)
(* ===================================================================== *)

Module Samples.
Import ConsistencyChecker.

(** The character of the test at the end of [consistency.py]. *)
Definition test_character : Character :=
  {| char_name := u "张三"; char_identity := [];
     char_personality := u "勇敢、聪明、善良"; char_motivation := [];
     char_importance := None; char_abilities := [u "剑法"; u "法术"];
     char_last_appearance := None; char_development_history := None;
     char_created_at := None; char_updated_at := None |}.

Definition chapter (text synopsis : string) : ChapterData :=
  {| title := []; content := u text; summary := u synopsis;
     key_events := []; character_development := [] |}.

(** Two chapters: the first mentions the character, the second follows a
    summary it shares no keyword with. *)
Definition two_chapters : list (Z * ChapterData) :=
  [(1, chapter "张三是一个胆小的人，他什么都不会。" "上一章结束了战斗。");
   (2, chapter "新的章节开始了。" "第二章")].

(** A chapter that shares no keyword with the previous summary and holds no
    contradiction word. *)
Definition new_chapter : ChapterData := chapter "新的章节开始了。" "".

Definition plot_only_context : Context :=
  {| ctx_characters := None;
     ctx_previous_summaries := Some [u "上一章结束了战斗。"];
     ctx_worldview := None |}.

Definition empty_context : Context :=
  {| ctx_characters := None; ctx_previous_summaries := None; ctx_worldview := None |}.
(** *** The memory system *)

Import SmartMemory.

(** A clock that advances by one second per reading, from 2024-01-01
    00:00:00 (readings within the first minute are all the samples need). *)
Definition two_digits (n : nat) : str :=
  (if (n <? 10)%nat then u "0" else []) ++ str_of_int (Z.of_nat n).

Definition sample_clock (n : nat) : datetime :=
  {| isoformat := u "2024-01-01T00:00:" ++ two_digits n;
     strftime_backup := u "20240101_0000" ++ two_digits n |}.

(** ASCII letters and digits and the CJK block: enough of [str.isalnum] for
    the names of the samples. *)
Definition sample_isalnum (c : Z) : bool :=
  ((48 <=? c) && (c <=? 57)) || ((65 <=? c) && (c <=? 90)) || ((97 <=? c) && (c <=? 122))
  || ConsistencyChecker.is_cjk c.

Definition sample_env : Env :=
  {| now := sample_clock;
     write_fails := fun _ => false;
     isalnum := sample_isalnum;
     set_order := fun l => l |}.

(** The same world, in which the character files cannot be written. *)
Definition failing_env : Env :=
  {| now := sample_clock;
     write_fails := fun t => match t with CharacterFile _ => true | _ => false end;
     isalnum := sample_isalnum;
     set_order := fun l => l |}.

Definition empty_memory : Memory :=
  {| core_settings := []; characters := []; worldview := []; chapter_summaries := [];
     relationship_graph := RelEmpty; timeline := []; plots := []; locations := [] |}.

Definition empty_disk : Disk :=
  {| core_settings_json := None; character_files := []; chapter_summaries_json := None;
     worldview_json := None; timeline_json := None; plot_files := []; location_files := [];
     backups := [] |}.

Definition character (name : string) (importance : Z) : Character :=
  {| char_name := u name; char_identity := []; char_personality := [];
     char_motivation := []; char_importance := Some importance; char_abilities := [];
     char_last_appearance := None; char_development_history := None;
     char_created_at := None; char_updated_at := None |}.

(** Two known characters, 甲 and 乙. *)
Definition two_characters : Memory :=
  set_characters [(u "甲", character "甲" 10); (u "乙", character "乙" 8)] empty_memory.

Definition start (m : Memory) : System := {| self := m; disk := empty_disk; ticks := O |}.

(** A chapter in which both names appear once, next to each other. *)
Definition meeting : ChapterData :=
  {| title := u "相遇"; content := u "甲 meets 乙."; summary := u "甲 meets 乙";
     key_events := []; character_development := [(u "甲", u "meets 乙")] |}.

(** Two plot threads, one about the mentor and one about the crossing, and
    a chapter whose key events touch both. *)
Definition plot (name keyword : string) (chapter : Z) : Plot :=
  {| plot_name := u name; plot_start_chapter := chapter; plot_end_chapter := chapter;
     plot_keywords := [u keyword]; plot_chapters := Some [chapter];
     plot_created_at := []; plot_last_updated := None;
     plot_current_status := u "进行中" |}.

Definition two_plots : Memory :=
  set_plots [plot "情节线_1" "导师" 1; plot "情节线_2" "穿越" 2] empty_memory.

Definition eventful : ChapterData :=
  {| title := []; content := []; summary := u "第五章";
     key_events := [u "穿越事件"; u "遇到导师"]; character_development := [] |}.

(** An export that lacks [chapter_summaries]. *)
Definition incomplete_import : ImportData :=
  {| imp_core_settings := Some [(u "title", VStr (u "测试小说"))];
     imp_characters := Some [];
     imp_worldview := Some [];
     imp_chapter_summaries := None;
     imp_timeline := None; imp_plots := None; imp_locations := None |}.

(** A store with core settings, two characters and one chapter summary. *)
Definition small_store : Memory :=
  set_chapter_summaries [(u "1", SummaryText (u "甲 meets 乙"))]
    (set_core_settings
       [(u "outline", VDict [(u "target_words", VInt 60000)])] two_characters).

(** The same characters and summaries, other locations, plots and timeline. *)
Definition small_store_elsewhere : Memory :=
  set_locations
    [(u "青云山", {| loc_name := u "青云山"; loc_first_appearance := 1;
                     loc_last_appearance := 1; loc_appearance_count := 1;
                     loc_description := []; loc_created_at := [] |})]
    (set_timeline
       [{| ev_chapter := 1; ev_description := u "相遇"; ev_timestamp := [];
           ev_type := u "chapter_event" |}]
       small_store).

End Samples.

(* ===================================================================== *)
(** * Properties of the Python layer *)
(* ===================================================================== *)

Module PyFacts.

Lemma len_nonneg {A : Type} (l : list A) : 0 <= len l.
Proof. unfold len. lia. Qed.

Lemma len_app {A : Type} (l1 l2 : list A) : len (l1 ++ l2) = len l1 + len l2.
Proof. unfold len. rewrite length_app. lia. Qed.

Lemma len_zero_nil {A : Type} (l : list A) : (len l =? 0) = true -> l = [].
Proof.
  destruct l as [|a l]; [reflexivity|].
  unfold len; simpl List.length. intros H. apply Z.eqb_eq in H. lia.
Qed.

Lemma str_eqb_eq (a b : str) : str_eqb a b = true <-> a = b.
Proof.
  revert b. induction a as [|x a IH]; destruct b as [|y b]; simpl; split;
    try congruence; try reflexivity.
  - intros H. apply andb_true_iff in H as [Hx Hr].
    apply Z.eqb_eq in Hx. apply IH in Hr. congruence.
  - intros H. injection H as -> ->. rewrite Z.eqb_refl. simpl. now apply IH.
Qed.

Lemma str_eqb_refl (a : str) : str_eqb a a = true.
Proof. now apply str_eqb_eq. Qed.

Lemma str_eqb_neq (a b : str) : str_eqb a b = false <-> a <> b.
Proof.
  split.
  - intros H E. apply str_eqb_eq in E. congruence.
  - intros H. destruct (str_eqb a b) eqn:E; [|reflexivity].
    apply str_eqb_eq in E. contradiction.
Qed.

Lemma sum_from (l : list Z) (a : Z) : fold_left Z.add l a = a + sum l.
Proof.
  unfold sum. revert a. induction l as [|x l IH]; intros a; simpl; [lia|].
  rewrite IH. rewrite (IH x). lia.
Qed.

Lemma sum_cons (x : Z) (l : list Z) : sum (x :: l) = x + sum l.
Proof. unfold sum at 1. simpl. apply sum_from. Qed.

(** Every element within [[a, b]] bounds the sum by [len] times the bounds. *)
Lemma sum_bounds (a b : Z) (l : list Z) :
  Forall (fun x => a <= x <= b) l -> a * len l <= sum l <= b * len l.
Proof.
  induction 1 as [|x l Hx Hl IH].
  - unfold sum, len; simpl; lia.
  - rewrite sum_cons. unfold len in *. simpl List.length. lia.
Qed.

(** The integer average [sum(l) // len(l)] stays within the bounds of the
    elements. *)
Lemma average_bounds (a b : Z) (l : list Z) :
  Forall (fun x => a <= x <= b) l -> 0 < len l -> a <= sum l / len l <= b.
Proof.
  intros HF Hlen. pose proof (sum_bounds HF) as [Hlo Hhi]. split.
  - apply Z.div_le_lower_bound; lia.
  - apply Z.div_le_upper_bound; lia.
Qed.

Lemma in_range (lo n : nat) (x : Z) :
  Z.of_nat lo <= x < Z.of_nat (lo + n) -> In x (map Z.of_nat (seq lo n)).
Proof.
  intros H. apply in_map_iff. exists (Z.to_nat x). split; [lia|].
  apply in_seq. lia.
Qed.

Lemma get_set_same {V : Type} (k : str) (v : V) (d : dict V) :
  get k (set k v d) = Some v.
Proof.
  unfold get, set. induction d as [|[k' v'] d IH]; cbn.
  - now rewrite str_eqb_refl.
  - destruct (str_eqb k k') eqn:E; cbn; rewrite E; [reflexivity|exact IH].
Qed.

Lemma get_set_other {V : Type} (k k0 : str) (v : V) (d : dict V) :
  str_eqb k k0 = false -> get k (set k0 v d) = get k d.
Proof.
  intros Hk. unfold get, set. induction d as [|[k' v'] d IH]; cbn.
  - now rewrite Hk.
  - destruct (str_eqb k0 k') eqn:E; cbn.
    + apply str_eqb_eq in E. subst k'. now rewrite Hk.
    + destruct (str_eqb k k'); [reflexivity|exact IH].
Qed.

Lemma set_set {V : Type} (k : str) (v1 v2 : V) (d : dict V) :
  set k v2 (set k v1 d) = set k v2 d.
Proof.
  unfold set. induction d as [|[k' v'] d IH]; cbn.
  - now rewrite str_eqb_refl.
  - destruct (str_eqb k k') eqn:E; cbn; rewrite E; [reflexivity|now rewrite IH].
Qed.

Lemma keys_set_known {V : Type} (k : str) (v v0 : V) (d : dict V) :
  get k d = Some v0 -> keys (set k v d) = keys d.
Proof.
  unfold get, set, keys. induction d as [|[k' v'] d IH]; cbn; [discriminate|].
  destruct (str_eqb k k') eqn:E; cbn; [reflexivity|].
  intros H. now rewrite IH.
Qed.

Lemma has_get {V : Type} (k : str) (d : dict V) :
  has k d = true <-> exists v, get k d = Some v.
Proof.
  unfold has, dict_mem, get. destruct (dict_get str_eqb k d) as [v|]; split;
    try reflexivity; try discriminate.
  - intros _. now exists v.
  - intros [v H]. discriminate.
Qed.

Lemma get_in_keys {V : Type} (k : str) (v : V) (d : dict V) :
  get k d = Some v -> In k (keys d).
Proof.
  unfold get, keys. induction d as [|[k' v'] d IH]; cbn; [discriminate|].
  destruct (str_eqb k k') eqn:E.
  - intros _. left. symmetry. now apply str_eqb_eq.
  - intros H. right. now apply IH.
Qed.

End PyFacts.

(* ===================================================================== *)
(** * Properties of the consistency checker *)
(* ===================================================================== *)

Module CheckerFacts.
Import ConsistencyChecker PyFacts.

(** ** The axis checks *)

Lemma character_check_cases name text profile :
  let r := check_character_consistency name text profile in
  (score r = 100 /\ passed r = true) \/ (score r = 70 /\ passed r = false).
Proof.
  unfold check_character_consistency.
  destruct (negb (len (char_personality profile) =? 0));
    [destruct (PrimFloat.ltb _ _)|];
    destruct (negb (len (char_abilities profile) =? 0));
    try destruct (_ && _); simpl; auto.
Qed.

Lemma len_optional {A : Type} (b : bool) (x : A) : 0 <= len (if b then [x] else []) <= 1.
Proof. destruct b; unfold len; simpl; lia. Qed.

Lemma len_flat_map_optional {A B : Type} (f : A -> list B) (l : list A) :
  (forall x, len (f x) <= 1) -> len (flat_map f l) <= len l.
Proof.
  intros Hf. induction l as [|x l IH]; [unfold len; simpl; lia|].
  cbn [flat_map]. rewrite len_app. specialize (Hf x).
  unfold len in *. cbn [List.length]. lia.
Qed.

Lemma logical_issues_at_most_4 text : len (_check_logical_issues text) <= 4.
Proof.
  unfold _check_logical_issues. rewrite len_app.
  match goal with
  | |- len (if ?b then [?x] else []) + ?n <= 4 =>
      pose proof (len_optional b x) as H1;
      assert (H2 : n <= len contradictions)
        by (apply len_flat_map_optional; intros [w1 w2]; apply len_optional);
      change (len contradictions) with 3 in H2;
      revert H1 H2; generalize n; generalize (len (if b then [x] else []))
  end.
  intros m n H1 H2. lia.
Qed.

Lemma plot_check_bounds text previous :
  40 <= score (check_plot_consistency text previous) <= 100.
Proof.
  unfold check_plot_consistency.
  pose proof (logical_issues_at_most_4 text) as H4.
  pose proof (len_nonneg (_check_logical_issues text)) as H0.
  generalize dependent (len (_check_logical_issues text)). intros k Hk4 Hk0.
  destruct (negb (len previous =? 0)); [destruct (PrimFloat.ltb _ _)|];
    destruct (negb (k =? 0)); cbn [score]; lia.
Qed.

Lemma worldview_check_passes text worldview :
  score (check_worldview_consistency text worldview) = 100 /\
  passed (check_worldview_consistency text worldview) = true.
Proof.
  unfold check_worldview_consistency.
  destruct (truthy (special_rules worldview)); simpl;
    destruct (negb (len (culture worldview) =? 0)); simpl;
    try destruct (_ && _); simpl; auto.
Qed.

(** ** The aggregate check *)

Lemma character_checks_scores characters chapters :
  Forall (fun x => 70 <= x <= 100) (map score (character_checks characters chapters)).
Proof.
  apply Forall_forall. intros x Hx. apply in_map_iff in Hx as [r [<- Hr]].
  unfold character_checks in Hr.
  apply in_flat_map in Hr as [c [_ Hr]].
  apply in_flat_map in Hr as [[n d] [_ Hr]].
  destruct (contains (char_name c) (content d)); [|contradiction].
  destruct Hr as [<-|[]].
  destruct (character_check_cases (char_name c) (content d) c) as [[-> _]|[-> _]]; lia.
Qed.

Lemma plot_checks_scores chapters numbers :
  Forall (fun x => 40 <= x <= 100) (map score (plot_checks chapters numbers)).
Proof.
  induction numbers as [|previous rest IH]; [constructor|].
  destruct rest as [|current rest']; [constructor|].
  change (plot_checks chapters (previous :: current :: rest'))
    with (match dict_get Z.eqb current chapters, dict_get Z.eqb previous chapters with
          | Some current_chapter, Some previous_chapter =>
              [check_plot_consistency (content current_chapter) [summary previous_chapter]]
          | _, _ => []
          end ++ plot_checks chapters (current :: rest')).
  rewrite map_app. apply Forall_app. split; [|exact IH].
  destruct (dict_get Z.eqb current chapters), (dict_get Z.eqb previous chapters);
    try constructor; [apply plot_check_bounds|constructor].
Qed.

(** The score of an axis of the aggregate: 0 when no check ran, else the
    integer average of the checks' scores. *)
Lemma axis_average_bounds (lo : Z) (scores : list Z) :
  Forall (fun x => lo <= x <= 100) scores ->
  (len scores =? 0) = false ->
  lo <= sum scores / len scores <= 100.
Proof.
  intros HF Hlen. apply average_bounds; [exact HF|].
  pose proof (len_nonneg scores). apply Z.eqb_neq in Hlen. lia.
Qed.

Definition reachable_character_scores : list Z := 0 :: map Z.of_nat (seq 70 31).
Definition reachable_plot_scores : list Z := 0 :: map Z.of_nat (seq 40 61).

(** The binary64 evaluation of [0.3*c + 0.4*p + 0.2*0 + 0.1*0], truncated,
    agrees with the exact [(3c + 4p) div 10] on every pair of component scores
    the checker can produce (it does not on all pairs: at [c = 12, p = 1]
    the float sum is just below 4). *)
Lemma weighted_overall_table :
  forallb (fun c =>
    forallb (fun p => weighted_overall [c; p; 0; 0] =? (3 * c + 4 * p) / 10)
            reachable_plot_scores) reachable_character_scores = true.
Proof. vm_compute. reflexivity. Qed.

Lemma weighted_overall_exact c p :
  c = 0 \/ 70 <= c <= 100 ->
  p = 0 \/ 40 <= p <= 100 ->
  weighted_overall [c; p; 0; 0] = (3 * c + 4 * p) / 10.
Proof.
  intros Hc Hp.
  pose proof weighted_overall_table as T.
  rewrite forallb_forall in T.
  assert (Ic : In c reachable_character_scores).
  { destruct Hc as [->|Hc]; [now left|right]. apply (in_range 70 31). lia. }
  assert (Ip : In p reachable_plot_scores).
  { destruct Hp as [->|Hp]; [now left|right]. apply (in_range 40 61). lia. }
  specialize (T c Ic). rewrite forallb_forall in T.
  specialize (T p Ip). now apply Z.eqb_eq in T.
Qed.

Lemma full_check_character_axis outline characters chapters :
  let c := axis_score (character_consistency (full_consistency_check outline characters chapters)) in
  c = 0 \/ 70 <= c <= 100.
Proof.
  cbn zeta. unfold full_consistency_check. cbn [character_consistency].
  destruct (len (map score (character_checks characters chapters)) =? 0) eqn:E;
    cbn [negb axis_score]; [now left|right].
  apply axis_average_bounds; [apply character_checks_scores|exact E].
Qed.

Lemma full_check_plot_axis outline characters chapters :
  let p := axis_score (plot_consistency (full_consistency_check outline characters chapters)) in
  p = 0 \/ 40 <= p <= 100.
Proof.
  cbn zeta. unfold full_consistency_check. cbn [plot_consistency].
  destruct (len (map score (plot_checks chapters (sorted (keys chapters)))) =? 0) eqn:E;
    cbn [negb axis_score]; [now left|right].
  apply axis_average_bounds; [apply plot_checks_scores|exact E].
Qed.

Lemma full_check_untouched_axes outline characters chapters :
  axis_score (worldview_consistency (full_consistency_check outline characters chapters)) = 0 /\
  axis_score (timeline_consistency (full_consistency_check outline characters chapters)) = 0.
Proof. split; reflexivity. Qed.

Lemma full_check_overall_exact outline characters chapters :
  overall_score (full_consistency_check outline characters chapters)
  = (3 * axis_score (character_consistency (full_consistency_check outline characters chapters))
     + 4 * axis_score (plot_consistency (full_consistency_check outline characters chapters))) / 10.
Proof.
  change (overall_score (full_consistency_check outline characters chapters))
    with (weighted_overall
      [axis_score (character_consistency (full_consistency_check outline characters chapters));
       axis_score (plot_consistency (full_consistency_check outline characters chapters));
       0; 0]).
  apply weighted_overall_exact;
    [apply full_check_character_axis|apply full_check_plot_axis].
Qed.

(** C1 (as the code has it): the aggregate check never computes the
    worldview and timeline components, which keep their initial score 0; the
    overall score is the truncated weighted sum
    [int(0.3*character + 0.4*plot + 0.2*0 + 0.1*0)], which on every input is
    exactly [(3*character + 4*plot) div 10]. *)
Theorem full_check_overall_score outline characters chapters :
  axis_score (worldview_consistency (full_consistency_check outline characters chapters)) = 0 /\
  axis_score (timeline_consistency (full_consistency_check outline characters chapters)) = 0 /\
  overall_score (full_consistency_check outline characters chapters)
  = weighted_overall
      [axis_score (character_consistency (full_consistency_check outline characters chapters));
       axis_score (plot_consistency (full_consistency_check outline characters chapters));
       axis_score (worldview_consistency (full_consistency_check outline characters chapters));
       axis_score (timeline_consistency (full_consistency_check outline characters chapters))] /\
  overall_score (full_consistency_check outline characters chapters)
  = (3 * axis_score (character_consistency (full_consistency_check outline characters chapters))
     + 4 * axis_score (plot_consistency (full_consistency_check outline characters chapters))) / 10.
Proof.
  repeat split; try reflexivity. apply full_check_overall_exact.
Qed.

(** C1 (as the specification states it) fails: with worldview and timeline
    counted as 100 the two sample chapters would score 83, the code returns
    53; on the component scores 60 and 90 of the specification's scenario the
    code's weighted sum is 54, not 84. *)
Lemma full_check_overall_counterexample :
  axis_score (character_consistency
    (full_consistency_check [] [Samples.test_character] Samples.two_chapters)) = 70 /\
  axis_score (plot_consistency
    (full_consistency_check [] [Samples.test_character] Samples.two_chapters)) = 80 /\
  overall_score (full_consistency_check [] [Samples.test_character] Samples.two_chapters) = 53 /\
  weighted_overall [70; 80; 100; 100] = 83 /\
  weighted_overall [60; 90; 0; 0] = 54 /\
  weighted_overall [60; 90; 100; 100] = 84 /\
  overall_score (full_consistency_check [] [Samples.test_character] Samples.two_chapters)
  <> weighted_overall
       [axis_score (character_consistency
          (full_consistency_check [] [Samples.test_character] Samples.two_chapters));
        axis_score (plot_consistency
          (full_consistency_check [] [Samples.test_character] Samples.two_chapters));
        100; 100].
Proof. vm_compute. repeat split; try reflexivity. discriminate. Qed.

(** ** The per-chapter check *)

(** The running minimum the source keeps: only failed checks lower it. *)
Definition weakest_failed (checks : list Result) (start : Z) : Z :=
  fold_left (fun acc r => if passed r then acc else Z.min acc (score r)) checks start.

Definition record_all (checks : list (str * Result)) (results : ChapterResult) : ChapterResult :=
  fold_left (fun results kr => record_check (fst kr) (snd kr) results) checks results.

Lemma record_check_score key r results :
  ch_score (record_check key r results)
  = (if passed r then ch_score results else Z.min (ch_score results) (score r)).
Proof. unfold record_check. destruct (passed r); reflexivity. Qed.

Lemma record_check_passed key r results :
  ch_passed (record_check key r results) = ch_passed results && passed r.
Proof.
  unfold record_check. destruct (passed r); cbn [negb ch_passed];
    [now rewrite andb_true_r|now rewrite andb_false_r].
Qed.

(** The invariant of [check_chapter_consistency]: after the checks [checks]
    have been recorded, the score is their running minimum from 100 and
    [passed] says whether all of them passed. *)
Definition summarises (results : ChapterResult) (checks : list Result) : Prop :=
  ch_score results = weakest_failed checks 100 /\
  ch_passed results = forallb passed checks.

Lemma weakest_failed_app l1 l2 start :
  weakest_failed (l1 ++ l2) start = weakest_failed l2 (weakest_failed l1 start).
Proof. unfold weakest_failed. apply fold_left_app. Qed.

Lemma summarises_record key r results checks :
  summarises results checks ->
  summarises (record_check key r results) (checks ++ [r]).
Proof.
  intros [Hs Hp]. split.
  - rewrite record_check_score, weakest_failed_app, Hs. reflexivity.
  - rewrite record_check_passed, forallb_app, Hp. cbn [forallb].
    now rewrite andb_true_r.
Qed.

Lemma summarises_character_loop content characters results checks :
  summarises results checks ->
  summarises
    (fold_left (fun results character =>
       if contains (char_name character) content then
         record_check (u "character_" ++ char_name character)
           (check_character_consistency (char_name character) content character) results
       else results) characters results)
    (checks ++ flat_map (fun character =>
       if contains (char_name character) content
       then [check_character_consistency (char_name character) content character]
       else []) characters).
Proof.
  revert results checks. induction characters as [|c cs IH]; intros results checks H.
  - cbn. now rewrite app_nil_r.
  - cbn [fold_left flat_map].
    destruct (contains (char_name c) content).
    + rewrite app_assoc. apply IH. now apply summarises_record.
    + cbn [app]. now apply IH.
Qed.

(** The composite score is the running minimum over the executed checks. *)
Lemma chapter_check_score chapter_data context :
  summarises (check_chapter_consistency chapter_data context)
             (executed_checks chapter_data context).
Proof.
  unfold check_chapter_consistency, executed_checks.
  destruct context as [cs ps wv]. cbn [ctx_characters ctx_previous_summaries ctx_worldview].
  assert (H0 : summarises {| ch_passed := true; ch_score := 100; detailed_checks := [];
                             ch_issues := []; ch_suggestions := [] |} [])
    by (split; reflexivity).
  destruct cs as [cs|].
  - apply (summarises_character_loop (content chapter_data) cs) in H0. cbn [app] in H0.
    destruct ps as [ps|], wv as [wv|]; rewrite ?app_nil_r.
    + rewrite app_assoc. now repeat apply summarises_record.
    + now apply summarises_record.
    + now apply summarises_record.
    + exact H0.
  - cbn [app]. destruct ps as [ps|], wv as [wv|]; cbn [app].
    + apply (summarises_record _ _ (checks := [_])).
      now apply (summarises_record _ _ (checks := [])).
    + now apply (summarises_record _ _ (checks := [])).
    + now apply (summarises_record _ _ (checks := [])).
    + exact H0.
Qed.

Lemma weakest_failed_le_start checks start : weakest_failed checks start <= start.
Proof.
  revert start. induction checks as [|r rs IH]; intros start; cbn; [lia|].
  destruct (passed r); [apply IH|]. specialize (IH (Z.min start (score r))).
  unfold weakest_failed in IH. lia.
Qed.

Lemma weakest_failed_le checks start r :
  In r checks -> passed r = false -> weakest_failed checks start <= score r.
Proof.
  revert start. induction checks as [|x xs IH]; intros start Hin Hf; [contradiction|].
  cbn. destruct Hin as [->|Hin].
  - rewrite Hf. pose proof (weakest_failed_le_start xs (Z.min start (score r))) as H.
    unfold weakest_failed in H. lia.
  - apply IH; assumption.
Qed.

Lemma weakest_failed_attained checks start :
  weakest_failed checks start = start \/
  exists r, In r checks /\ passed r = false /\ weakest_failed checks start = score r.
Proof.
  revert start. induction checks as [|x xs IH]; intros start; [now left|].
  cbn. destruct (passed x) eqn:Hx.
  - destruct (IH start) as [E|[r [Hin [Hf E]]]]; [now left|right].
    exists r. repeat split; auto; now right.
  - destruct (IH (Z.min start (score x))) as [E|[r [Hin [Hf E]]]].
    + unfold weakest_failed in E. rewrite E.
      destruct (Z.min_spec start (score x)) as [[_ ->]|[_ ->]]; [now left|right].
      exists x. repeat split; auto; now left.
    + right. exists r. repeat split; auto; now right.
Qed.

Lemma weakest_failed_bounds lo checks start :
  Forall (fun r => lo <= score r) checks -> lo <= start -> lo <= weakest_failed checks start.
Proof.
  intros HF. revert start. induction HF as [|x xs Hx _ IH]; intros start Hs; cbn; [exact Hs|].
  destruct (passed x); apply IH; lia.
Qed.

Lemma executed_checks_scores chapter_data context :
  Forall (fun r => 40 <= score r <= 100) (executed_checks chapter_data context).
Proof.
  unfold executed_checks. apply Forall_app; split; [|apply Forall_app; split].
  - destruct (ctx_characters context) as [cs|]; [|constructor].
    apply Forall_forall. intros r Hr. apply in_flat_map in Hr as [c [_ Hr]].
    destruct (contains (char_name c) (content chapter_data)); [|contradiction].
    destruct Hr as [<-|[]].
    destruct (character_check_cases (char_name c) (content chapter_data) c)
      as [[-> _]|[-> _]]; lia.
  - destruct (ctx_previous_summaries context); constructor;
      [apply plot_check_bounds|constructor].
  - destruct (ctx_worldview context) as [wv|]; constructor; [|constructor].
    destruct (worldview_check_passes (content chapter_data) wv) as [-> _]. lia.
Qed.

(** ** Which checks are filed *)

Lemma detailed_checks_record key r results :
  detailed_checks (record_check key r results) = set key r (detailed_checks results).
Proof. unfold record_check. destruct (passed r); reflexivity. Qed.

Lemma character_loop_other_key k content characters results :
  (forall n, str_eqb k (u "character_" ++ n) = false) ->
  get k (detailed_checks
    (fold_left (fun results character =>
       if contains (char_name character) content then
         record_check (u "character_" ++ char_name character)
           (check_character_consistency (char_name character) content character) results
       else results) characters results))
  = get k (detailed_checks results).
Proof.
  intros Hk. revert results. induction characters as [|c cs IH]; intros results;
    [reflexivity|].
  cbn [fold_left]. rewrite IH.
  destruct (contains (char_name c) content); [|reflexivity].
  rewrite detailed_checks_record. now apply get_set_other.
Qed.

Lemma plot_key_not_character n : str_eqb (u "plot") (u "character_" ++ n) = false.
Proof. reflexivity. Qed.

Lemma worldview_key_not_character n : str_eqb (u "worldview") (u "character_" ++ n) = false.
Proof. reflexivity. Qed.

Lemma character_key_not_plot n : str_eqb (u "character_" ++ n) (u "plot") = false.
Proof. reflexivity. Qed.

Lemma character_key_not_worldview n : str_eqb (u "character_" ++ n) (u "worldview") = false.
Proof. reflexivity. Qed.

(** The plot check is filed exactly when [previous_summaries] is in the context. *)
Lemma chapter_check_plot_entry chapter_data context :
  get (u "plot") (detailed_checks (check_chapter_consistency chapter_data context))
  = option_map (check_plot_consistency (content chapter_data))
               (ctx_previous_summaries context).
Proof.
  unfold check_chapter_consistency. destruct context as [cs ps wv].
  cbn [ctx_characters ctx_previous_summaries ctx_worldview].
  assert (Hc : get (u "plot") (detailed_checks
     match cs with
     | Some characters =>
         fold_left (fun results character =>
           if contains (char_name character) (content chapter_data) then
             record_check (u "character_" ++ char_name character)
               (check_character_consistency (char_name character)
                  (content chapter_data) character) results
           else results) characters
           {| ch_passed := true; ch_score := 100; detailed_checks := [];
              ch_issues := []; ch_suggestions := [] |}
     | None => {| ch_passed := true; ch_score := 100; detailed_checks := [];
                  ch_issues := []; ch_suggestions := [] |}
     end) = None).
  { destruct cs as [cs|]; [|reflexivity].
    rewrite character_loop_other_key; [reflexivity|apply plot_key_not_character]. }
  destruct wv as [wv|]; [rewrite detailed_checks_record, get_set_other by reflexivity|];
    (destruct ps as [ps|]; cbn [option_map];
     [rewrite detailed_checks_record; apply get_set_same|exact Hc]).
Qed.

(** The worldview check is filed exactly when [worldview] is in the context. *)
Lemma chapter_check_worldview_entry chapter_data context :
  get (u "worldview") (detailed_checks (check_chapter_consistency chapter_data context))
  = option_map (check_worldview_consistency (content chapter_data)) (ctx_worldview context).
Proof.
  unfold check_chapter_consistency. destruct context as [cs ps wv].
  cbn [ctx_characters ctx_previous_summaries ctx_worldview].
  destruct wv as [wv|]; cbn [option_map];
    [rewrite detailed_checks_record; apply get_set_same|].
  destruct ps as [ps|];
    [rewrite detailed_checks_record, get_set_other by reflexivity|];
    (destruct cs as [cs|]; [|reflexivity];
     rewrite character_loop_other_key; [reflexivity|apply worldview_key_not_character]).
Qed.

(** No character check is filed when [characters] is not in the context. *)
Lemma chapter_check_no_character_entry chapter_data context n :
  ctx_characters context = None ->
  get (u "character_" ++ n) (detailed_checks (check_chapter_consistency chapter_data context))
  = None.
Proof.
  unfold check_chapter_consistency. destruct context as [cs ps wv].
  cbn [ctx_characters ctx_previous_summaries ctx_worldview]. intros ->.
  destruct wv as [wv|], ps as [ps|];
    rewrite ?detailed_checks_record;
    repeat (rewrite get_set_other by reflexivity; rewrite ?detailed_checks_record);
    reflexivity.
Qed.

(** C6 (as the code has it): the per-chapter check runs the axis checks whose
    context category is present and no other; its score is the minimum of 100
    and the scores of the executed checks that are marked failed, so it is at
    most the score of every failed executed check, while a check that
    deducted points and still passed does not lower it. *)
Theorem chapter_check_weakest_failed chapter_data context :
  (forall r, In r (executed_checks chapter_data context) -> passed r = false ->
     ch_score (check_chapter_consistency chapter_data context) <= score r) /\
  (ch_score (check_chapter_consistency chapter_data context) = 100 \/
   exists r, In r (executed_checks chapter_data context) /\ passed r = false /\
             ch_score (check_chapter_consistency chapter_data context) = score r) /\
  ch_passed (check_chapter_consistency chapter_data context)
  = forallb passed (executed_checks chapter_data context) /\
  get (u "plot") (detailed_checks (check_chapter_consistency chapter_data context))
  = option_map (check_plot_consistency (content chapter_data))
               (ctx_previous_summaries context) /\
  get (u "worldview") (detailed_checks (check_chapter_consistency chapter_data context))
  = option_map (check_worldview_consistency (content chapter_data)) (ctx_worldview context) /\
  (ctx_characters context = None ->
   forall n, get (u "character_" ++ n)
               (detailed_checks (check_chapter_consistency chapter_data context)) = None).
Proof.
  destruct (chapter_check_score chapter_data context) as [Hs Hp].
  repeat split.
  - intros r Hin Hf. rewrite Hs. now apply weakest_failed_le.
  - rewrite Hs. apply weakest_failed_attained.
  - exact Hp.
  - apply chapter_check_plot_entry.
  - apply chapter_check_worldview_entry.
  - intros Hc n. now apply chapter_check_no_character_entry.
Qed.

(** C6 (as the specification states it) fails: the plot check of the sample
    chapter deducts 20 points for weak continuity and still passes, so the
    composite score stays 100, above the executed check's 80. *)
Lemma chapter_check_minimum_counterexample :
  In (check_plot_consistency (content Samples.new_chapter) [u "上一章结束了战斗。"])
     (executed_checks Samples.new_chapter Samples.plot_only_context) /\
  score (check_plot_consistency (content Samples.new_chapter) [u "上一章结束了战斗。"]) = 80 /\
  ch_score (check_chapter_consistency Samples.new_chapter Samples.plot_only_context) = 100 /\
  ~ (forall r, In r (executed_checks Samples.new_chapter Samples.plot_only_context) ->
       ch_score (check_chapter_consistency Samples.new_chapter Samples.plot_only_context)
       <= score r).
Proof.
  repeat split.
  - left. reflexivity.
  - intros H.
    specialize (H (check_plot_consistency (content Samples.new_chapter) [u "上一章结束了战斗。"])
                  (or_introl eq_refl)).
    vm_compute in H. now apply H.
Qed.

(** C7: every score the checker returns lies in [[0, 100]]: the three axis
    checks, the per-chapter composite, and the aggregate check's component
    and overall scores. *)
Theorem scores_within_bounds
    (name text : str) (profile : Character) (previous : list str) (worldview : WorldView)
    (chapter_data : ChapterData) (context : Context)
    (outline : dict value) (characters : list Character) (chapters : list (Z * ChapterData)) :
  0 <= score (check_character_consistency name text profile) <= 100 /\
  0 <= score (check_plot_consistency text previous) <= 100 /\
  0 <= score (check_worldview_consistency text worldview) <= 100 /\
  0 <= ch_score (check_chapter_consistency chapter_data context) <= 100 /\
  0 <= axis_score (character_consistency
         (full_consistency_check outline characters chapters)) <= 100 /\
  0 <= axis_score (plot_consistency
         (full_consistency_check outline characters chapters)) <= 100 /\
  0 <= axis_score (worldview_consistency
         (full_consistency_check outline characters chapters)) <= 100 /\
  0 <= axis_score (timeline_consistency
         (full_consistency_check outline characters chapters)) <= 100 /\
  0 <= overall_score (full_consistency_check outline characters chapters) <= 100.
Proof.
  pose proof (full_check_character_axis outline characters chapters) as Hc.
  pose proof (full_check_plot_axis outline characters chapters) as Hp.
  destruct (full_check_untouched_axes outline characters chapters) as [Hw Ht].
  pose proof (full_check_overall_exact outline characters chapters) as Ho.
  cbn zeta in Hc, Hp.
  set (c := axis_score (character_consistency
              (full_consistency_check outline characters chapters))) in *.
  set (p := axis_score (plot_consistency
              (full_consistency_check outline characters chapters))) in *.
  clearbody c p.
  repeat match goal with |- _ /\ _ => split end.
  - destruct (character_check_cases name text profile) as [[-> _]|[-> _]]; lia.
  - destruct (character_check_cases name text profile) as [[-> _]|[-> _]]; lia.
  - pose proof (plot_check_bounds text previous). lia.
  - pose proof (plot_check_bounds text previous). lia.
  - destruct (worldview_check_passes text worldview) as [-> _]. lia.
  - destruct (worldview_check_passes text worldview) as [-> _]. lia.
  - destruct (chapter_check_score chapter_data context) as [-> _].
    apply weakest_failed_bounds; [|lia].
    eapply Forall_impl; [|apply executed_checks_scores]. cbn. intros; lia.
  - destruct (chapter_check_score chapter_data context) as [-> _].
    apply weakest_failed_le_start.
  - lia.
  - lia.
  - lia.
  - lia.
  - rewrite Hw. lia.
  - rewrite Hw. lia.
  - rewrite Ht. lia.
  - rewrite Ht. lia.
  - rewrite Ho. apply Z.div_pos; lia.
  - rewrite Ho. apply Z.div_le_upper_bound; lia.
Qed.

End CheckerFacts.


(* ===================================================================== *)
(** * Properties of the memory system *)
(* ===================================================================== *)

Module MemoryFacts.
Import SmartMemory PyFacts.
Unset Implicit Arguments.

(** ** Test vectors for MD5 (RFC 1321) *)

Example md5_empty : MD5.hexdigest_int [] = 0xd41d8cd98f00b204e9800998ecf8427e.
Proof. vm_compute. reflexivity. Qed.

Example md5_abc : MD5.hexdigest_int (encode (u "abc")) = 0x900150983cd24fb0d6963f7d28e17f72.
Proof. vm_compute. reflexivity. Qed.

(** ** Saving leaves the object alone *)

Lemma create_backup_self env s : self (snd (_create_backup env s)) = self s.
Proof. reflexivity. Qed.

Lemma create_backup_ticks env s : ticks (snd (_create_backup env s)) = S (ticks s).
Proof. reflexivity. Qed.

(** [_save_to_disk], step by step: the backup, then the writes. *)
Lemma save_to_disk_run env s :
  _save_to_disk env s
  = (fst (run_writes env (save_writes env (self s)) (disk (snd (_create_backup env s)))),
     {| self := self s;
        disk := snd (run_writes env (save_writes env (self s))
                                (disk (snd (_create_backup env s))));
        ticks := S (ticks s) |}).
Proof.
  unfold _save_to_disk, bind.
  destruct (_create_backup env s) as [[] s0] eqn:E.
  assert (E1 : self s0 = self s)
    by (change s0 with (snd (tt, s0)); rewrite <- E; apply create_backup_self).
  assert (E2 : ticks s0 = S (ticks s))
    by (change s0 with (snd (tt, s0)); rewrite <- E; apply create_backup_ticks).
  cbn [snd]. rewrite E1, E2.
  destruct (run_writes env (save_writes env (self s)) (disk s0)). reflexivity.
Qed.

Lemma save_to_disk_self env s : self (snd (_save_to_disk env s)) = self s.
Proof. now rewrite save_to_disk_run. Qed.

Lemma save_to_disk_ticks env s : ticks (snd (_save_to_disk env s)) = S (ticks s).
Proof. now rewrite save_to_disk_run. Qed.

(** ** Import *)

(** C9: an import whose data lacks one of the four mandatory categories
    returns failure and changes nothing: the object, the disk and the clock
    are as before the call. *)
Theorem import_rejects_missing_category env data s :
  imp_core_settings data = None \/ imp_characters data = None \/
  imp_worldview data = None \/ imp_chapter_summaries data = None ->
  import_memory env (FileData data) s = (false, s).
Proof.
  intros H. unfold import_memory, required_keys.
  destruct (imp_core_settings data), (imp_characters data),
    (imp_worldview data), (imp_chapter_summaries data);
    try reflexivity.
  destruct H as [H|[H|[H|H]]]; discriminate H.
Qed.

(** A missing or unreadable file is rejected in the same way. *)
Lemma import_rejects_bad_file env s :
  import_memory env FileMissing s = (false, s) /\
  import_memory env FileMalformed s = (false, s).
Proof. split; reflexivity. Qed.

Lemma import_rejects_missing_category_witness :
  imp_chapter_summaries Samples.incomplete_import = None /\
  import_memory Samples.sample_env (FileData Samples.incomplete_import)
                (Samples.start Samples.small_store)
  = (false, Samples.start Samples.small_store).
Proof.
  split; [reflexivity|].
  apply (import_rejects_missing_category Samples.sample_env Samples.incomplete_import
           (Samples.start Samples.small_store)).
  right; right; right; reflexivity.
Defined.

(** ** The chapter plan *)

Lemma range_length a b : List.length (range a b) = Z.to_nat (b - a).
Proof. unfold range. now rewrite length_map, length_seq. Qed.

Lemma range_cons a b : a < b -> range a b = a :: range (a + 1) b.
Proof.
  intros H. unfold range.
  replace (Z.to_nat (b - a)) with (S (Z.to_nat (b - (a + 1)))) by lia.
  cbn [seq map]. f_equal; [lia|].
  rewrite <- seq_shift, map_map. apply map_ext. intros i. lia.
Qed.

Lemma save_chapter_plan_self env p s :
  self (snd (save_chapter_plan env p s))
  = set_core_settings (set (u "chapter_plan") p (core_settings (self s))) (self s).
Proof.
  unfold save_chapter_plan, bind, modify_self, ret.
  destruct (_save_to_disk env _) as [ok s'] eqn:E. cbn [snd].
  change s' with (snd (ok, s')). rewrite <- E. now rewrite save_to_disk_self.
Qed.

Lemma target_words_of_saved p m :
  target_words_of (set_core_settings (set (u "chapter_plan") p (core_settings m)) m)
  = target_words_of m.
Proof.
  unfold target_words_of. cbn [core_settings set_core_settings].
  now rewrite get_set_other by reflexivity.
Qed.

Lemma plan_entry_saved p m n i :
  plan_entry (set_core_settings (set (u "chapter_plan") p (core_settings m)) m) n i
  = plan_entry m n i.
Proof. reflexivity. Qed.

Lemma get_chapter_plan_saved p m :
  get_chapter_plan (set_core_settings (set (u "chapter_plan") p (core_settings m)) m)
  = get_chapter_plan m.
Proof.
  unfold get_chapter_plan. rewrite target_words_of_saved.
  destruct (target_words_of m); reflexivity.
Qed.

Lemma plan_differs_from_generated m n outline tw :
  10 <= n ->
  plan_value (map (plan_entry m n) (range 1 (n + 1)))
  <> NovelGenerator.generate_chapter_plan outline tw.
Proof.
  intros Hn. unfold plan_value, NovelGenerator.generate_chapter_plan.
  rewrite (range_cons 1 (n + 1)) by lia.
  rewrite (range_cons 1 (Z.max 10 (tw / 3000) + 1)) by lia.
  cbn [map]. unfold plan_entry_value at 1. intros E.
  injection E as E _. vm_compute in E. discriminate E.
Qed.

Lemma target_words_default_no_outline m :
  get (u "outline") (core_settings m) = None -> target_words_of m = Some 100000.
Proof. intros H. unfold target_words_of. now rewrite H. Qed.

Lemma target_words_default_no_key m outline :
  get (u "outline") (core_settings m) = Some (VDict outline) ->
  get (u "target_words") outline = None ->
  target_words_of m = Some 100000.
Proof. intros H1 H2. unfold target_words_of. now rewrite H1, H2. Qed.

Lemma target_words_stored m outline target_words :
  get (u "outline") (core_settings m) = Some (VDict outline) ->
  get (u "target_words") outline = Some (VInt target_words) ->
  target_words_of m = Some target_words.
Proof. intros H1 H2. unfold target_words_of. now rewrite H1, H2. Qed.

(** C10: the definition of [get_chapter_plan] that the class ends up with
    never reads [core_settings['chapter_plan']]: in every state, after
    [save_chapter_plan(p)] it returns what it returned before the save,
    whatever [p] is, while the shadowed first definition would return [p].
    What it returns is a plan of [max(10, target_words // 3000)] entries
    recomputed from the outline's [target_words] (100000 when there is
    none); that plan is never one the generator builds for
    [save_chapter_plan], and it is not [p] unless [p] already was that very
    plan. *)
Theorem get_chapter_plan_ignores_saved_plan env p s :
  get_chapter_plan (self (snd (save_chapter_plan env p s))) = get_chapter_plan (self s) /\
  get_chapter_plan_first (self (snd (save_chapter_plan env p s))) = p /\
  (forall target_words,
     target_words_of (self s) = Some target_words ->
     exists plan,
       get_chapter_plan (self (snd (save_chapter_plan env p s))) = Some plan /\
       len plan = Z.max 10 (target_words / 3000) /\
       (forall outline tw,
          plan_value plan <> NovelGenerator.generate_chapter_plan outline tw) /\
       (p <> plan_value plan ->
        option_map plan_value (get_chapter_plan (self (snd (save_chapter_plan env p s))))
        <> Some p)) /\
  (get (u "outline") (core_settings (self s)) = None ->
   target_words_of (self s) = Some 100000) /\
  (forall outline,
     get (u "outline") (core_settings (self s)) = Some (VDict outline) ->
     get (u "target_words") outline = None ->
     target_words_of (self s) = Some 100000) /\
  (forall outline target_words,
     get (u "outline") (core_settings (self s)) = Some (VDict outline) ->
     get (u "target_words") outline = Some (VInt target_words) ->
     target_words_of (self s) = Some target_words).
Proof.
  rewrite save_chapter_plan_self, get_chapter_plan_saved.
  split; [reflexivity|]. split.
  { unfold get_chapter_plan_first. cbn [core_settings set_core_settings].
    now rewrite get_set_same. }
  split.
  { intros target_words Htw.
    exists (map (plan_entry (self s) (Z.max 10 (target_words / 3000)))
                (range 1 (Z.max 10 (target_words / 3000) + 1))).
    assert (Hplan : get_chapter_plan (self s)
                    = Some (map (plan_entry (self s) (Z.max 10 (target_words / 3000)))
                                (range 1 (Z.max 10 (target_words / 3000) + 1))))
      by (unfold get_chapter_plan; now rewrite Htw).
    rewrite Hplan. repeat split.
    - unfold len. rewrite length_map, range_length. lia.
    - intros outline tw. apply plan_differs_from_generated. lia.
    - intros Hp. cbn [option_map]. congruence. }
  split; [apply target_words_default_no_outline|].
  split; [apply target_words_default_no_key|apply target_words_stored].
Qed.

(** The sample store asks for 60000 words: the plan has 20 entries, before
    and after an empty plan is saved; an empty store gets the 33 entries of
    the default 100000 words. *)
Example chapter_plan_of_samples :
  option_map len (get_chapter_plan Samples.small_store) = Some 20 /\
  option_map len
    (get_chapter_plan (self (snd (save_chapter_plan Samples.sample_env (VList [])
                                    (Samples.start Samples.small_store))))) = Some 20 /\
  option_map len (get_chapter_plan Samples.empty_memory) = Some 33.
Proof. vm_compute. repeat split; reflexivity. Qed.

(** ** Relevance *)

Lemma count_mentions_agree m1 m2 name n :
  chapter_summaries m1 = chapter_summaries m2 ->
  _count_character_mentions m1 name n = _count_character_mentions m2 name n.
Proof. intros H. unfold _count_character_mentions. now rewrite H. Qed.

Lemma relevance_agree m1 m2 name n :
  characters m1 = characters m2 ->
  chapter_summaries m1 = chapter_summaries m2 ->
  _calculate_character_relevance m1 name n = _calculate_character_relevance m2 name n.
Proof.
  intros Hc Hs. unfold _calculate_character_relevance.
  rewrite Hc, (count_mentions_agree m1 m2 name n Hs). reflexivity.
Qed.

Lemma scored_characters_agree m1 m2 n chars relevant :
  characters m1 = characters m2 ->
  chapter_summaries m1 = chapter_summaries m2 ->
  scored_characters m1 n chars relevant = scored_characters m2 n chars relevant.
Proof.
  intros Hc Hs. revert relevant.
  induction chars as [|[name data] rest IH]; intros relevant; [reflexivity|].
  cbn [scored_characters]. rewrite (relevance_agree m1 m2 name n Hc Hs).
  destruct (8 <=? len _); [reflexivity|apply IH].
Qed.

(** C8: the selection of relevant characters and every relevance score,
    with its MD5 jitter term, are functions of the characters, the chapter
    summaries and the chapter number alone: two stores that agree on those
    (whatever their locations, plots, timeline, settings) give the same
    selection and the same scores; no clock, disk or random source is read. *)
Theorem relevance_selection_deterministic m1 m2 chapter_number :
  characters m1 = characters m2 ->
  chapter_summaries m1 = chapter_summaries m2 ->
  _get_relevant_characters m1 chapter_number = _get_relevant_characters m2 chapter_number /\
  forall name,
    _calculate_character_relevance m1 name chapter_number
    = _calculate_character_relevance m2 name chapter_number.
Proof.
  intros Hc Hs. split.
  - unfold _get_relevant_characters. rewrite Hc.
    destruct (chapter_number <=? 3); [reflexivity|].
    apply scored_characters_agree; assumption.
  - intros name. apply relevance_agree; assumption.
Qed.

Lemma relevance_selection_deterministic_witness :
  characters Samples.small_store = characters Samples.small_store_elsewhere /\
  chapter_summaries Samples.small_store = chapter_summaries Samples.small_store_elsewhere /\
  _get_relevant_characters Samples.small_store 5
  = _get_relevant_characters Samples.small_store_elsewhere 5 /\
  forall name,
    _calculate_character_relevance Samples.small_store name 5
    = _calculate_character_relevance Samples.small_store_elsewhere name 5.
Proof.
  split; [reflexivity|]. split; [reflexivity|].
  apply (relevance_selection_deterministic Samples.small_store
           Samples.small_store_elsewhere 5); reflexivity.
Defined.

(** The score of 甲 for chapter 5 in the sample store: importance 10 gives
    0.5, one mention in the summary of chapter 1 gives 0.05, and the jitter
    term is 0.2 times the 0.28 of md5 mod 100. *)
Example relevance_of_sample_character :
  MD5.hexdigest_int (encode (u "甲_5")) mod 100 = 28 /\
  _calculate_character_relevance Samples.small_store (u "甲") 5
  = (0.5 + 0.05 + 0.28 * 0.2)%float.
Proof. vm_compute. split; reflexivity. Qed.

(** ** Saving *)

Definition perform_all (ws : list Write) (d : Disk) : Disk :=
  fold_left (fun d w => perform w d) ws d.

Lemma run_writes_first_failure env before w after d :
  forallb (fun w' => negb (write_fails env (target w'))) before = true ->
  write_fails env (target w) = true ->
  run_writes env (before ++ w :: after) d = (false, perform_all before d).
Proof.
  intros Hb Hw. revert d. induction before as [|x before IH]; intros d.
  - cbn. now rewrite Hw.
  - cbn in Hb. apply andb_true_iff in Hb as [Hx Hb].
    cbn [app run_writes]. apply negb_true_iff in Hx. rewrite Hx.
    now rewrite IH.
Qed.

Lemma run_writes_no_failure env ws d :
  forallb (fun w' => negb (write_fails env (target w'))) ws = true ->
  run_writes env ws d = (true, perform_all ws d).
Proof.
  revert d. induction ws as [|x ws IH]; intros d Hb; [reflexivity|].
  cbn in Hb. apply andb_true_iff in Hb as [Hx Hb].
  cbn [run_writes]. apply negb_true_iff in Hx. rewrite Hx. now apply IH.
Qed.

(** C4 (as the code has it): the writes of a save run in one [try] block,
    in a fixed order; the first write that raises ends the save, which
    returns [False]: the writes before it are on disk, the failing write and
    every write after it are not performed. *)
Theorem save_stops_at_first_failure env s before w after :
  save_writes env (self s) = before ++ w :: after ->
  forallb (fun w' => negb (write_fails env (target w'))) before = true ->
  write_fails env (target w) = true ->
  _save_to_disk env s
  = (false,
     {| self := self s;
        disk := perform_all before (disk (snd (_create_backup env s)));
        ticks := S (ticks s) |}).
Proof.
  intros Hplan Hbefore Hw.
  rewrite save_to_disk_run, Hplan.
  now rewrite (run_writes_first_failure env before w after _ Hbefore Hw).
Qed.

Lemma save_stops_at_first_failure_witness :
  save_writes Samples.failing_env (self (Samples.start Samples.small_store))
  = [WriteCoreSettings (core_settings Samples.small_store)]
    ++ WriteCharacter (u "甲") (Samples.character "甲" 10)
    :: [WriteCharacter (u "乙") (Samples.character "乙" 8);
        WriteSummaries (chapter_summaries Samples.small_store);
        WriteWorldview []; WriteTimeline []] /\
  _save_to_disk Samples.failing_env (Samples.start Samples.small_store)
  = (false,
     {| self := Samples.small_store;
        disk := perform_all [WriteCoreSettings (core_settings Samples.small_store)]
                  (disk (snd (_create_backup Samples.failing_env
                                (Samples.start Samples.small_store))));
        ticks := 1 |}).
Proof.
  split; [vm_compute; reflexivity|].
  apply (save_stops_at_first_failure Samples.failing_env
           (Samples.start Samples.small_store)
           [WriteCoreSettings (core_settings Samples.small_store)]
           (WriteCharacter (u "甲") (Samples.character "甲" 10))
           [WriteCharacter (u "乙") (Samples.character "乙" 8);
            WriteSummaries (chapter_summaries Samples.small_store);
            WriteWorldview []; WriteTimeline []]);
    vm_compute; reflexivity.
Defined.

(** When no write raises the save performs them all and returns [True]. *)
Lemma save_without_failure env s :
  forallb (fun w' => negb (write_fails env (target w'))) (save_writes env (self s)) = true ->
  _save_to_disk env s
  = (true,
     {| self := self s;
        disk := perform_all (save_writes env (self s)) (disk (snd (_create_backup env s)));
        ticks := S (ticks s) |}).
Proof.
  intros H. rewrite save_to_disk_run.
  now rewrite (run_writes_no_failure env _ _ H).
Qed.

(** An exception raised writing the first character file, after the core
    settings went through: the core settings are on disk, and the chapter
    summaries, the worldview, the timeline, the plots and the locations are
    as they were before the save. *)
Lemma save_with_unwritable_character env s name c rest :
  characters (self s) = (name, c) :: rest ->
  write_fails env CoreSettingsFile = false ->
  write_fails env (CharacterFile (safe_name env name)) = true ->
  fst (_save_to_disk env s) = false /\
  core_settings_json (disk (snd (_save_to_disk env s))) = Some (core_settings (self s)) /\
  character_files (disk (snd (_save_to_disk env s))) = character_files (disk s) /\
  chapter_summaries_json (disk (snd (_save_to_disk env s))) = chapter_summaries_json (disk s) /\
  worldview_json (disk (snd (_save_to_disk env s))) = worldview_json (disk s) /\
  timeline_json (disk (snd (_save_to_disk env s))) = timeline_json (disk s) /\
  plot_files (disk (snd (_save_to_disk env s))) = plot_files (disk s) /\
  location_files (disk (snd (_save_to_disk env s))) = location_files (disk s).
Proof.
  intros Hc Hcore Hchar. rewrite save_to_disk_run.
  unfold save_writes. rewrite Hc. cbn [map app].
  assert (Hcore' : forallb (fun w' => negb (write_fails env (target w')))
                     [WriteCoreSettings (core_settings (self s))] = true)
    by (cbn; now rewrite Hcore).
  match goal with
  | |- context [run_writes env (_ :: _ :: ?after) ?d] =>
      pose proof (run_writes_first_failure env
                    [WriteCoreSettings (core_settings (self s))]
                    (WriteCharacter (safe_name env name) c) after d Hcore' Hchar) as E
  end.
  cbn [app] in E. rewrite E.
  cbn [fst snd disk perform_all fold_left perform core_settings_json character_files
       chapter_summaries_json worldview_json timeline_json plot_files location_files].
  unfold _create_backup, bind, datetime_now, modify_disk. cbn [snd disk].
  destruct (mem _ _); repeat split; reflexivity.
Qed.

(** C4 (as the specification states it) fails: when the character files
    cannot be written the save returns [False] and the chapter summaries,
    which come later, never reach the disk. *)
Lemma save_best_effort_counterexample :
  fst (_save_to_disk Samples.failing_env (Samples.start Samples.small_store)) = false /\
  core_settings_json
    (disk (snd (_save_to_disk Samples.failing_env (Samples.start Samples.small_store))))
  = Some (core_settings Samples.small_store) /\
  chapter_summaries_json
    (disk (snd (_save_to_disk Samples.failing_env (Samples.start Samples.small_store))))
  = None /\
  chapter_summaries_json
    (disk (snd (_save_to_disk Samples.failing_env (Samples.start Samples.small_store))))
  <> Some (chapter_summaries Samples.small_store).
Proof. vm_compute. repeat split; try reflexivity. discriminate. Qed.

(** ** Reasoning about the methods *)

(** [c] leaves alone what [f] reads of the object. *)
Definition keeps {A X : Type} (f : Memory -> X) (c : M A) : Prop :=
  forall s, f (self (snd (c s))) = f (self s).

Lemma keeps_ret {A X : Type} (f : Memory -> X) (a : A) : keeps f (ret a).
Proof. intros s. reflexivity. Qed.

Lemma keeps_bind {A B X : Type} (f : Memory -> X) (c : M A) (k : A -> M B) :
  keeps f c -> (forall a, keeps f (k a)) -> keeps f (bind c k).
Proof.
  intros Hc Hk s. unfold bind. specialize (Hc s).
  destruct (c s) as [a s']. cbn [snd] in Hc. rewrite <- Hc. apply Hk.
Qed.

Lemma keeps_get_self {X : Type} (f : Memory -> X) : keeps f get_self.
Proof. intros s. reflexivity. Qed.

Lemma keeps_datetime_now {X : Type} (f : Memory -> X) env : keeps f (datetime_now env).
Proof. intros s. reflexivity. Qed.

Lemma keeps_modify_disk {X : Type} (f : Memory -> X) g : keeps f (modify_disk g).
Proof. intros s. reflexivity. Qed.

Lemma keeps_modify_self {X : Type} (f : Memory -> X) g :
  (forall m, f (g m) = f m) -> keeps f (modify_self g).
Proof. intros H s. apply H. Qed.

Lemma keeps_for_each {A X : Type} (f : Memory -> X) (l : list A) (body : A -> M unit) :
  (forall a, keeps f (body a)) -> keeps f (for_each l body).
Proof.
  intros Hb. induction l as [|a l IH]; [apply keeps_ret|].
  cbn [for_each]. apply keeps_bind; [apply Hb|intros _; exact IH].
Qed.

Lemma keeps_save_to_disk {X : Type} (f : Memory -> X) env : keeps f (_save_to_disk env).
Proof. intros s. now rewrite save_to_disk_self. Qed.

Ltac keeps_step :=
  match goal with
  | |- keeps _ (bind _ _) => apply keeps_bind; [|intros ?]
  | |- keeps _ (ret _) => apply keeps_ret
  | |- keeps _ get_self => apply keeps_get_self
  | |- keeps _ (datetime_now _) => apply keeps_datetime_now
  | |- keeps _ (modify_disk _) => apply keeps_modify_disk
  | |- keeps _ (modify_self _) => apply keeps_modify_self; intros ?; reflexivity
  | |- keeps _ (for_each _ _) => apply keeps_for_each; intros ?
  | |- keeps _ (_save_to_disk _) => apply keeps_save_to_disk
  | |- keeps _ (if ?b then _ else _) => destruct b
  | |- keeps _ (match ?x with Some _ => _ | None => _ end) => destruct x
  | |- keeps _ (let (_, _) := ?x in _) => destruct x
  end.

Ltac keeps_tac := repeat keeps_step.

Lemma record_event_keeps {X : Type} (f : Memory -> X) env n event :
  (forall v m, f (set_timeline v m) = f m) -> keeps f (record_event env n event).
Proof.
  intros H. unfold record_event. apply keeps_bind; [apply keeps_datetime_now|].
  intros t. apply keeps_modify_self. intros m. apply H.
Qed.

Lemma extract_locations_keeps {X : Type} (f : Memory -> X) env text n :
  (forall v m, f (set_locations v m) = f m) -> keeps f (_extract_locations env text n).
Proof.
  intros H. unfold _extract_locations. apply keeps_for_each. intros name.
  unfold record_location. apply keeps_bind; [apply keeps_get_self|]. intros m.
  destruct (get name (locations m)).
  - apply keeps_modify_self. intros m'. apply H.
  - apply keeps_bind; [apply keeps_datetime_now|]. intros t.
    apply keeps_modify_self. intros m'. apply H.
Qed.

Lemma extend_plots_keeps {X : Type} (f : Memory -> X) env l events n :
  keeps f (extend_plots env l events n).
Proof. induction l as [|p l IH]; cbn [extend_plots]; keeps_tac. exact IH. Qed.

Lemma extract_plots_keeps {X : Type} (f : Memory -> X) env data n :
  (forall v m, f (set_plots v m) = f m) -> keeps f (_extract_plots env data n).
Proof.
  intros H. unfold _extract_plots.
  destruct (negb (len (key_events data) =? 0)); [|apply keeps_ret].
  apply keeps_bind; [apply keeps_get_self|]. intros m.
  apply keeps_bind; [apply extend_plots_keeps|]. intros ps.
  apply keeps_bind; [apply keeps_modify_self; intros m'; apply H|]. intros _.
  destruct (2 <=? len (key_events data)); [|apply keeps_ret].
  apply keeps_bind; [apply keeps_datetime_now|]. intros t.
  apply keeps_modify_self. intros m'. apply H.
Qed.

Lemma update_relationships_keeps {X : Type} (f : Memory -> X) data n :
  (forall v m, f (set_relationship_graph v m) = f m) ->
  keeps f (_update_relationships data n).
Proof.
  intros H. unfold _update_relationships.
  apply keeps_bind; [apply keeps_get_self|]. intros m.
  destruct (record_interactions _ _ _) as [ok g].
  apply keeps_bind; [apply keeps_modify_self; intros m'; apply H|]. intros _.
  apply keeps_ret.
Qed.

Lemma record_development_keeps {X : Type} (f : Memory -> X) env n item :
  (forall v m, f (set_characters v m) = f m) -> keeps f (record_development env n item).
Proof.
  intros H. unfold record_development. destruct item as [name development].
  apply keeps_bind; [apply keeps_get_self|]. intros m.
  destruct (get name (characters m)); [|apply keeps_ret].
  apply keeps_bind; [apply keeps_datetime_now|]. intros t.
  apply keeps_modify_self. intros m'. apply H.
Qed.

(** ** [update_with_chapter], phase by phase *)

(** What follows the loop over [character_development]. *)
Definition after_development env (n : Z) (data : ChapterData) : M bool :=
  for_each (key_events data) (record_event env n) ;;;
  _extract_locations env (content data) n ;;;
  _extract_plots env data n ;;;
  ok <- _update_relationships data n ;;
  if ok then _save_to_disk env ;;; ret true else ret false.

(** The state once the summary is stored. *)
Definition summary_stored env (n : Z) (data : ChapterData) (s : System) : System :=
  {| self := set_chapter_summaries
               (set (str_of_int n)
                    (SummaryDict (chapter_summary_of n data (isoformat (now env (ticks s)))))
                    (chapter_summaries (self s)))
               (self s);
     disk := disk s;
     ticks := S (ticks s) |}.

Lemma update_with_chapter_phases env n data s :
  update_with_chapter env n data s
  = after_development env n data
      (snd (for_each (character_development data) (record_development env n)
              (summary_stored env n data s))).
Proof.
  unfold update_with_chapter, after_development, summary_stored.
  unfold bind at 1 2 3. unfold datetime_now at 1. unfold modify_self at 1.
  cbn [self disk ticks].
  destruct (for_each (character_development data) (record_development env n) _) as [[] s1].
  reflexivity.
Qed.

Lemma after_development_keeps_characters env n data :
  keeps characters (after_development env n data).
Proof.
  unfold after_development.
  apply keeps_bind; [apply keeps_for_each; intros e; now apply record_event_keeps|intros _].
  apply keeps_bind; [now apply extract_locations_keeps|intros _].
  apply keeps_bind; [now apply extract_plots_keeps|intros _].
  apply keeps_bind; [now apply update_relationships_keeps|intros ok].
  keeps_tac.
Qed.

Lemma after_development_keeps_summaries env n data :
  keeps chapter_summaries (after_development env n data).
Proof.
  unfold after_development.
  apply keeps_bind; [apply keeps_for_each; intros e; now apply record_event_keeps|intros _].
  apply keeps_bind; [now apply extract_locations_keeps|intros _].
  apply keeps_bind; [now apply extract_plots_keeps|intros _].
  apply keeps_bind; [now apply update_relationships_keeps|intros ok].
  keeps_tac.
Qed.

(** The summaries after a call: the chapter's entry is replaced (or added). *)
Lemma update_with_chapter_summaries env n data s :
  chapter_summaries (self (snd (update_with_chapter env n data s)))
  = set (str_of_int n)
        (SummaryDict (chapter_summary_of n data (isoformat (now env (ticks s)))))
        (chapter_summaries (self s)).
Proof.
  rewrite update_with_chapter_phases, after_development_keeps_summaries.
  rewrite (keeps_for_each chapter_summaries (character_development data)
             (record_development env n)).
  - reflexivity.
  - intros item. now apply record_development_keeps.
Qed.

(** ** Development history *)

(** [len(character.get('development_history', []))]. *)
Definition history_length (c : Character) : Z :=
  len (match char_development_history c with Some h => h | None => [] end).

Lemma developed_history_length c n development t :
  history_length (developed c n development t) = history_length c + 1.
Proof.
  unfold history_length, developed. cbn [char_development_history].
  rewrite len_app. reflexivity.
Qed.

Lemma bind_snd {A B : Type} (c : M A) (k : A -> M B) s :
  snd (bind c k s) = snd (k (fst (c s)) (snd (c s))).
Proof. unfold bind. destruct (c s). reflexivity. Qed.

Lemma record_development_characters env n name development s :
  characters (self (snd (record_development env n (name, development) s)))
  = match get name (characters (self s)) with
    | Some c => set name (developed c n development (isoformat (now env (ticks s))))
                    (characters (self s))
    | None => characters (self s)
    end.
Proof.
  unfold record_development, bind, get_self.
  destruct (get name (characters (self s))); reflexivity.
Qed.

Lemma not_in_keys_has {V : Type} (k : str) (d : dict V) :
  ~ In k (keys d) -> has k d = false.
Proof.
  intros H. destruct (has k d) eqn:E; [|reflexivity].
  apply has_get in E as [v E]. apply get_in_keys in E. contradiction.
Qed.

(** The loop over [character_development]: a known character gains one
    entry when the dict names it, none otherwise. *)
Lemma development_loop env n items :
  NoDup (keys items) ->
  forall s name c,
    get name (characters (self s)) = Some c ->
    exists c',
      get name (characters (self (snd (for_each items (record_development env n) s))))
      = Some c' /\
      history_length c' = history_length c + (if has name items then 1 else 0).
Proof.
  induction items as [|[k development] rest IH]; intros Hnd s name c Hc.
  - exists c. split; [exact Hc|]. cbn. lia.
  - cbn [keys map fst] in Hnd. apply NoDup_cons_iff in Hnd as [Hk Hnd].
    cbn [for_each]. rewrite bind_snd.
    set (s1 := snd (record_development env n (k, development) s)).
    assert (Hs1 : characters (self s1)
                  = match get k (characters (self s)) with
                    | Some c0 => set k (developed c0 n development
                                          (isoformat (now env (ticks s))))
                                     (characters (self s))
                    | None => characters (self s)
                    end) by apply record_development_characters.
    destruct (str_eqb name k) eqn:E.
    + apply str_eqb_eq in E. subst k. rewrite Hc in Hs1.
      destruct (IH Hnd s1 name
                  (developed c n development (isoformat (now env (ticks s)))))
        as [c' [Hget Hlen]].
      { rewrite Hs1. apply get_set_same. }
      exists c'. split; [exact Hget|].
      rewrite Hlen, developed_history_length.
      rewrite (not_in_keys_has name rest Hk).
      unfold has, dict_mem. cbn [dict_get]. rewrite str_eqb_refl. lia.
    + destruct (IH Hnd s1 name c) as [c' [Hget Hlen]].
      { rewrite Hs1. destruct (get k (characters (self s))); [|exact Hc].
        rewrite get_set_other by exact E. exact Hc. }
      exists c'. split; [exact Hget|].
      rewrite Hlen. unfold has, dict_mem. cbn [dict_get]. rewrite E. reflexivity.
Qed.

Lemma update_with_chapter_characters env n data s :
  NoDup (keys (character_development data)) ->
  forall name c,
    get name (characters (self s)) = Some c ->
    exists c',
      get name (characters (self (snd (update_with_chapter env n data s)))) = Some c' /\
      history_length c'
      = history_length c + (if has name (character_development data) then 1 else 0).
Proof.
  intros Hnd name c Hc.
  rewrite update_with_chapter_phases, after_development_keeps_characters.
  apply (development_loop env n (character_development data) Hnd
           (summary_stored env n data s) name c).
  exact Hc.
Qed.

(** The entry stored for chapter [n] after a call that read the clock at
    [ticks s] first. *)
Lemma update_with_chapter_entry env n data s :
  get (str_of_int n) (chapter_summaries (self (snd (update_with_chapter env n data s))))
  = Some (SummaryDict (chapter_summary_of n data (isoformat (now env (ticks s))))).
Proof. rewrite update_with_chapter_summaries. apply get_set_same. Qed.

(** C3 (as the code has it): two calls of [update_with_chapter] with the
    same chapter number and data leave one entry for the chapter, equal to
    the entry a single call leaves in every field except the timestamp,
    which is the clock reading of the second call; the entry is overwritten
    in place, so the keys of the summaries and every other entry are as
    after one call.  Every known character named in [character_development]
    (a dict, so named once) gains one development entry per call, two in
    all. *)
Theorem repeated_update_overwrites_summary_and_repeats_history env n data s :
  NoDup (keys (character_development data)) ->
  (exists once twice,
     get (str_of_int n) (chapter_summaries (self (snd (update_with_chapter env n data s))))
     = Some (SummaryDict once) /\
     get (str_of_int n)
         (chapter_summaries (self (snd (update_with_chapter env n data
                                          (snd (update_with_chapter env n data s))))))
     = Some (SummaryDict twice) /\
     cs_summary twice = cs_summary once /\
     cs_chapter_number twice = cs_chapter_number once /\
     cs_word_count twice = cs_word_count once /\
     cs_key_events twice = cs_key_events once /\
     cs_timestamp once = isoformat (now env (ticks s)) /\
     cs_timestamp twice
     = isoformat (now env (ticks (snd (update_with_chapter env n data s))))) /\
  (forall k, k <> str_of_int n ->
     get k (chapter_summaries (self (snd (update_with_chapter env n data
                                            (snd (update_with_chapter env n data s))))))
     = get k (chapter_summaries (self (snd (update_with_chapter env n data s))))) /\
  keys (chapter_summaries (self (snd (update_with_chapter env n data
                                        (snd (update_with_chapter env n data s))))))
  = keys (chapter_summaries (self (snd (update_with_chapter env n data s)))) /\
  (forall name c,
     get name (characters (self s)) = Some c ->
     has name (character_development data) = true ->
     exists c1 c2,
       get name (characters (self (snd (update_with_chapter env n data s)))) = Some c1 /\
       get name (characters (self (snd (update_with_chapter env n data
                                          (snd (update_with_chapter env n data s))))))
       = Some c2 /\
       history_length c1 = history_length c + 1 /\
       history_length c2 = history_length c + 2).
Proof.
  intros Hnd.
  set (s1 := snd (update_with_chapter env n data s)).
  split; [|split; [|split]].
  - exists (chapter_summary_of n data (isoformat (now env (ticks s)))),
           (chapter_summary_of n data (isoformat (now env (ticks s1)))).
    split; [apply update_with_chapter_entry|].
    split; [apply update_with_chapter_entry|].
    repeat split.
  - intros k Hk. rewrite (update_with_chapter_summaries env n data s1).
    apply get_set_other. now apply str_eqb_neq.
  - rewrite (update_with_chapter_summaries env n data s1).
    pose proof (update_with_chapter_entry env n data s) as Hentry. fold s1 in Hentry.
    now apply keys_set_known with (v0 := SummaryDict
              (chapter_summary_of n data (isoformat (now env (ticks s))))).
  - intros name c Hc Hin.
    destruct (update_with_chapter_characters env n data s Hnd name c Hc) as [c1 [Hg1 Hl1]].
    destruct (update_with_chapter_characters env n data s1 Hnd name c1 Hg1) as [c2 [Hg2 Hl2]].
    rewrite Hin in Hl1, Hl2.
    exists c1, c2. repeat split; [exact Hg1|exact Hg2|lia|lia].
Qed.

Lemma repeated_update_overwrites_summary_and_repeats_history_witness :
  NoDup (keys (character_development Samples.meeting)) /\
  (exists once twice,
     get (str_of_int 1)
         (chapter_summaries
            (self (snd (update_with_chapter Samples.sample_env 1 Samples.meeting
                          (Samples.start Samples.two_characters)))))
     = Some (SummaryDict once) /\
     get (str_of_int 1)
         (chapter_summaries
            (self (snd (update_with_chapter Samples.sample_env 1 Samples.meeting
                          (snd (update_with_chapter Samples.sample_env 1 Samples.meeting
                                  (Samples.start Samples.two_characters)))))))
     = Some (SummaryDict twice) /\
     cs_summary twice = cs_summary once /\
     cs_word_count twice = cs_word_count once) /\
  exists c1 c2,
    get (u "甲")
        (characters (self (snd (update_with_chapter Samples.sample_env 1 Samples.meeting
                                  (Samples.start Samples.two_characters))))) = Some c1 /\
    get (u "甲")
        (characters (self (snd (update_with_chapter Samples.sample_env 1 Samples.meeting
                                  (snd (update_with_chapter Samples.sample_env 1 Samples.meeting
                                          (Samples.start Samples.two_characters)))))))
    = Some c2 /\
    history_length c1 = history_length (Samples.character "甲" 10) + 1 /\
    history_length c2 = history_length (Samples.character "甲" 10) + 2.
Proof.
  assert (Hnd : NoDup (keys (character_development Samples.meeting)))
    by (repeat constructor; intros []).
  split; [exact Hnd|].
  destruct (repeated_update_overwrites_summary_and_repeats_history
              Samples.sample_env 1 Samples.meeting
              (Samples.start Samples.two_characters) Hnd)
    as [[once [twice [H1 [H2 [H3 [_ [H5 _]]]]]]] [_ [_ H]]].
  split.
  - exists once, twice. repeat split; assumption.
  - apply (H (u "甲") (Samples.character "甲" 10)); reflexivity.
Defined.

(** C3 (as the specification states it) fails: the entry two calls leave is
    not the entry one call leaves.  With a clock that advances, the first
    call stamps the summary at its first reading and the second call at its
    own, three readings later (the summary, the development of 甲 and the
    backup each read the clock once). *)
Lemma repeated_update_identical_summary_counterexample :
  (exists once twice,
     get (str_of_int 1)
         (chapter_summaries
            (self (snd (update_with_chapter Samples.sample_env 1 Samples.meeting
                          (Samples.start Samples.two_characters)))))
     = Some (SummaryDict once) /\
     get (str_of_int 1)
         (chapter_summaries
            (self (snd (update_with_chapter Samples.sample_env 1 Samples.meeting
                          (snd (update_with_chapter Samples.sample_env 1 Samples.meeting
                                  (Samples.start Samples.two_characters)))))))
     = Some (SummaryDict twice) /\
     cs_timestamp once = u "2024-01-01T00:00:00" /\
     cs_timestamp twice = u "2024-01-01T00:00:03") /\
  get (str_of_int 1)
      (chapter_summaries
         (self (snd (update_with_chapter Samples.sample_env 1 Samples.meeting
                       (snd (update_with_chapter Samples.sample_env 1 Samples.meeting
                               (Samples.start Samples.two_characters)))))))
  <> get (str_of_int 1)
         (chapter_summaries
            (self (snd (update_with_chapter Samples.sample_env 1 Samples.meeting
                          (Samples.start Samples.two_characters))))).
Proof.
  split.
  - eexists _, _. vm_compute. repeat split; reflexivity.
  - vm_compute. discriminate.
Qed.

(** ** Plot threads *)

(** What [_extract_plots] does to an existing thread. *)
Definition extends_match (events : list str) (n : Z) (p p' : Plot) : Prop :=
  if plot_matches p events then exists t, p' = extended p n t else p' = p.

Lemma extend_plots_cons env p l events n s :
  extend_plots env (p :: l) events n s
  = if plot_matches p events then
      (extended p n (isoformat (now env (ticks s)))
         :: fst (extend_plots env l events n
                   {| self := self s; disk := disk s; ticks := S (ticks s) |}),
       snd (extend_plots env l events n
              {| self := self s; disk := disk s; ticks := S (ticks s) |}))
    else (p :: fst (extend_plots env l events n s), snd (extend_plots env l events n s)).
Proof.
  cbn [extend_plots]. unfold bind, datetime_now, ret.
  destruct (plot_matches p events);
    destruct (extend_plots env l events n _); reflexivity.
Qed.

Lemma extend_plots_spec env l events n :
  forall s,
    Forall2 (extends_match events n) l (fst (extend_plots env l events n s)) /\
    self (snd (extend_plots env l events n s)) = self s.
Proof.
  induction l as [|p l IH]; intros s; [split; [constructor|reflexivity]|].
  rewrite extend_plots_cons.
  destruct (plot_matches p events) eqn:E; cbn [fst snd].
  - destruct (IH {| self := self s; disk := disk s; ticks := S (ticks s) |}) as [IH1 IH2].
    split; [|exact IH2]. constructor; [|exact IH1].
    unfold extends_match. rewrite E. now eexists.
  - destruct (IH s) as [IH1 IH2].
    split; [|exact IH2]. constructor; [|exact IH1].
    unfold extends_match. now rewrite E.
Qed.

Lemma plot_matches_no_event p : plot_matches p [] = false.
Proof. reflexivity. Qed.

Lemma forall2_same_when_no_event n l : Forall2 (extends_match [] n) l l.
Proof. induction l; constructor; auto. reflexivity. Qed.

(** C2 (as the code has it): every existing thread whose keywords occur in
    some key event is extended, once each (the [break] leaves only the loop
    over the events); a new thread is appended whenever there are at least
    two key events, matched or not, with the first three events as keywords
    and [start_chapter = end_chapter =] the current chapter. *)
Theorem extract_plots_extends_every_match env data n s :
  exists extended_plots created,
    plots (self (snd (_extract_plots env data n s))) = extended_plots ++ created /\
    Forall2 (extends_match (key_events data) n) (plots (self s)) extended_plots /\
    ((2 <=? len (key_events data)) = true ->
     exists t, created = [new_plot (len (plots (self s))) (key_events data) n t]) /\
    ((2 <=? len (key_events data)) = false -> created = []) /\
    (forall p, In p created ->
       plot_keywords p = take 3 (key_events data) /\
       plot_start_chapter p = n /\ plot_end_chapter p = n /\
       plot_chapters p = Some [n] /\ plot_current_status p = u "进行中").
Proof.
  unfold _extract_plots.
  destruct (len (key_events data) =? 0) eqn:E0; cbn [negb].
  - apply len_zero_nil in E0. rewrite E0.
    exists (plots (self s)), []. rewrite app_nil_r.
    repeat split; try (intros; discriminate || contradiction).
    apply forall2_same_when_no_event.
  - unfold bind at 1. unfold get_self at 1. unfold bind at 1.
    destruct (extend_plots_spec env (plots (self s)) (key_events data) n s) as [HF Hself].
    destruct (extend_plots env (plots (self s)) (key_events data) n s) as [l' s1].
    cbn [fst snd] in HF, Hself.
    unfold bind at 1. unfold modify_self at 1.
    assert (Hlen : len l' = len (plots (self s)))
      by (unfold len; now rewrite (Forall2_length HF)).
    destruct (2 <=? len (key_events data)) eqn:E2.
    + unfold bind, datetime_now, modify_self. cbn [snd self plots set_plots].
      exists l', [new_plot (len l') (key_events data) n (isoformat (now env (ticks s1)))].
      repeat split; try discriminate.
      * exact HF.
      * intros _. rewrite Hlen. now eexists.
      * destruct H as [<-|[]]. reflexivity.
      * destruct H as [<-|[]]. reflexivity.
      * destruct H as [<-|[]]. reflexivity.
      * destruct H as [<-|[]]. reflexivity.
      * destruct H as [<-|[]]. reflexivity.
    + cbn [ret snd self plots set_plots].
      exists l', []. rewrite app_nil_r.
      repeat split; try (intros; discriminate || contradiction). exact HF.
Qed.

(** C2 (as the specification states it) fails: the two threads of the
    sample both match the chapter's key events and both get chapter 5
    appended, and a third thread is created although threads matched. *)
Lemma extract_plots_first_match_counterexample :
  plot_matches (Samples.plot "情节线_1" "导师" 1) (key_events Samples.eventful) = true /\
  plot_matches (Samples.plot "情节线_2" "穿越" 2) (key_events Samples.eventful) = true /\
  map plot_chapters
      (plots (self (snd (_extract_plots Samples.sample_env Samples.eventful 5
                           (Samples.start Samples.two_plots)))))
  = [Some [1; 5]; Some [2; 5]; Some [5]] /\
  map plot_chapters
      (plots (self (snd (_extract_plots Samples.sample_env Samples.eventful 5
                           (Samples.start Samples.two_plots)))))
  <> [Some [1; 5]; Some [2]].
Proof. vm_compute. repeat split; try reflexivity. discriminate. Qed.

(** ** Relationships *)









Lemma character_interactions_keys m1 m2 text :
  keys (characters m1) = keys (characters m2) ->
  character_interactions m1 text = character_interactions m2 text.
Proof. intros H. unfold character_interactions. now rewrite H. Qed.

Lemma record_development_keeps_names env n item :
  keeps (fun m => keys (characters m)) (record_development env n item).
Proof.
  intros s. destruct item as [name development].
  rewrite record_development_characters.
  destruct (get name (characters (self s))) eqn:E; [|reflexivity].
  now apply keys_set_known with (v0 := c).
Qed.

(** What precedes [_update_relationships] in [after_development]. *)
Definition before_relationships env (n : Z) (data : ChapterData) : M unit :=
  for_each (key_events data) (record_event env n) ;;;
  _extract_locations env (content data) n ;;;
  _extract_plots env data n.

Lemma before_relationships_keeps {X : Type} (f : Memory -> X) env n data :
  (forall v m, f (set_timeline v m) = f m) ->
  (forall v m, f (set_locations v m) = f m) ->
  (forall v m, f (set_plots v m) = f m) ->
  keeps f (before_relationships env n data).
Proof.
  intros H1 H2 H3. unfold before_relationships.
  apply keeps_bind; [apply keeps_for_each; intros e; now apply record_event_keeps|intros _].
  apply keeps_bind; [now apply extract_locations_keeps|intros _].
  now apply extract_plots_keeps.
Qed.

Lemma after_development_relationships env n data s :
  snd (after_development env n data s)
  = snd ((ok <- _update_relationships data n ;;
          if ok then _save_to_disk env ;;; ret true else ret false)
           (snd (before_relationships env n data s))) /\
  fst (after_development env n data s)
  = fst ((ok <- _update_relationships data n ;;
          if ok then _save_to_disk env ;;; ret true else ret false)
           (snd (before_relationships env n data s))).
Proof.
  unfold after_development, before_relationships, bind.
  destruct (for_each (key_events data) (record_event env n) s) as [[] s1].
  destruct (_extract_locations env (content data) n s1) as [[] s2].
  destruct (_extract_plots env data n s2) as [[] s3].
  split; reflexivity.
Qed.

(** The graph after a call of [update_with_chapter], and whether the call
    returned: the interactions of the chapter recorded on the graph as it
    was. *)
Lemma update_with_chapter_relationships env n data s :
  relationship_graph (self (snd (update_with_chapter env n data s)))
  = snd (record_interactions n (character_interactions (self s) (content data))
                             (relationship_graph (self s))) /\
  fst (update_with_chapter env n data s)
  = fst (record_interactions n (character_interactions (self s) (content data))
                             (relationship_graph (self s))).
Proof.
  rewrite update_with_chapter_phases.
  set (s1 := snd (for_each (character_development data) (record_development env n)
                    (summary_stored env n data s))).
  destruct (after_development_relationships env n data s1) as [-> ->].
  set (s2 := snd (before_relationships env n data s1)).
  assert (Hg : relationship_graph (self s2) = relationship_graph (self s)).
  { unfold s2. rewrite before_relationships_keeps by reflexivity.
    unfold s1. rewrite keeps_for_each; [reflexivity|].
    intros item. now apply record_development_keeps. }
  assert (Hk : keys (characters (self s2)) = keys (characters (self s))).
  { unfold s2.
    rewrite (before_relationships_keeps (fun m => keys (characters m))) by reflexivity.
    unfold s1.
    rewrite (keeps_for_each (fun m => keys (characters m))); [reflexivity|].
    intros item. apply record_development_keeps_names. }
  unfold _update_relationships, bind, get_self, modify_self, ret.
  rewrite Hg, (character_interactions_keys (self s2) (self s) (content data) Hk).
  destruct (record_interactions n _ _) as [ok g]. cbn [fst snd].
  destruct ok; cbn [fst snd self relationship_graph set_relationship_graph].
  - destruct (_save_to_disk env _) as [saved s3] eqn:E. cbn [fst snd].
    split; [|reflexivity].
    change s3 with (snd (saved, s3)). rewrite <- E, save_to_disk_self. reflexivity.
  - split; reflexivity.
Qed.









End MemoryFacts.

(* ===================================================================== *)
(** * Further properties of the consistency checker *)
(* ===================================================================== *)

Module CheckerExtras.
Import ConsistencyChecker PyFacts CheckerFacts.
Unset Implicit Arguments.

(** ** Substrings *)

Lemma startswith_app p s : startswith p (p ++ s) = true.
Proof. induction p as [|a p IH]; cbn; [reflexivity|]. now rewrite Z.eqb_refl. Qed.

Lemma startswith_contains p s : startswith p s = true -> contains p s = true.
Proof. intros H. destruct s; cbn; now rewrite H. Qed.

Lemma contains_cons k a s : contains k s = true -> contains k (a :: s) = true.
Proof. intros H. cbn [contains]. rewrite H. apply orb_true_r. Qed.

Lemma contains_app_r k p s : contains k s = true -> contains k (p ++ s) = true.
Proof.
  intros H. induction p as [|a p IH]; [exact H|].
  cbn [app]. now apply contains_cons.
Qed.

Lemma contains_prefix k s : contains k (k ++ s) = true.
Proof. apply startswith_contains, startswith_app. Qed.

(** A text that contains a word contains the word without its first
    character. *)
Lemma contains_tail x w s : contains (x :: w) s = true -> contains w s = true.
Proof.
  induction s as [|c s IH]; cbn [contains startswith]; [discriminate|].
  intros H. apply orb_true_iff in H as [H|H].
  - apply andb_true_iff in H as [_ H].
    apply contains_cons. now apply startswith_contains.
  - apply contains_cons. now apply IH.
Qed.

(** ** Keywords *)

Lemma emit_run_in k run : In k (emit_run run) -> k = run /\ 2 <= len run.
Proof.
  unfold emit_run. destruct (2 <=? len run) eqn:E; [|contradiction].
  intros [<-|[]]. split; [reflexivity|]. now apply Z.leb_le.
Qed.

Lemma findall_cjk_runs_spec text :
  forall run k,
    forallb is_cjk run = true ->
    In k (findall_cjk_runs text run) ->
    2 <= len k /\ forallb is_cjk k = true /\ contains k (run ++ text) = true.
Proof.
  induction text as [|c rest IH]; intros run k Hrun Hk; cbn [findall_cjk_runs] in Hk.
  - apply emit_run_in in Hk as [-> Hlen]. repeat split; auto. apply contains_prefix.
  - destruct (is_cjk c) eqn:Ec.
    + destruct (IH (run ++ [c]) k) as [H1 [H2 H3]]; auto.
      { rewrite forallb_app, Hrun. cbn. now rewrite Ec. }
      rewrite <- app_assoc in H3. auto.
    + apply in_app_or in Hk as [Hk|Hk].
      * apply emit_run_in in Hk as [-> Hlen]. repeat split; auto. apply contains_prefix.
      * destruct (IH [] k eq_refl Hk) as [H1 [H2 H3]]. repeat split; auto.
        apply contains_app_r. now apply contains_cons.
Qed.

Lemma in_take {A : Type} (n : nat) (l : list A) x : In x (take n l) -> In x l.
Proof.
  unfold take. revert l. induction n as [|n IH]; intros [|a l]; cbn; try tauto.
  intros [H|H]; [now left|right; now apply IH].
Qed.

(** X1: every keyword is a piece of the text made of at least two
    characters of the class, none outside it, and is not a stop word; there
    are at most [max_keywords] of them. *)
Theorem extract_keywords_sound text max_keywords :
  (List.length (_extract_keywords text max_keywords) <= max_keywords)%nat /\
  forall k, In k (_extract_keywords text max_keywords) ->
    2 <= len k /\ forallb is_cjk k = true /\
    mem k stopwords = false /\ contains k text = true.
Proof.
  unfold _extract_keywords. split; [apply firstn_le_length|].
  intros k Hk. apply in_take in Hk. apply filter_In in Hk as [Hk Hstop].
  apply negb_true_iff in Hstop.
  destruct (findall_cjk_runs_spec text [] k eq_refl Hk) as [H1 [H2 H3]].
  repeat split; assumption.
Qed.

Lemma findall_no_cjk text :
  forallb (fun c => negb (is_cjk c)) text = true -> findall_cjk_runs text [] = [].
Proof.
  induction text as [|c rest IH]; [reflexivity|].
  cbn [forallb findall_cjk_runs]. intros H. apply andb_true_iff in H as [Hc Hr].
  apply negb_true_iff in Hc. rewrite Hc. cbn. now apply IH.
Qed.

Lemma extract_keywords_no_cjk text n :
  forallb (fun c => negb (is_cjk c)) text = true -> _extract_keywords text n = [].
Proof.
  intros H. unfold _extract_keywords. rewrite (findall_no_cjk text H).
  cbn. unfold take. now destruct n.
Qed.

(** ** The character check *)

(** X2: a personality description that is not empty and has no character
    of the class (one written in Latin script, say) yields no keyword, and
    the character then fails the check on every text, with score 70. *)
Theorem character_check_fails_without_keywords name text profile :
  char_personality profile <> [] ->
  forallb (fun c => negb (is_cjk c)) (char_personality profile) = true ->
  passed (check_character_consistency name text profile) = false /\
  score (check_character_consistency name text profile) = 70.
Proof.
  intros Hne Hcjk. unfold check_character_consistency.
  assert (Hlen : negb (len (char_personality profile) =? 0) = true).
  { destruct (char_personality profile); [congruence|reflexivity]. }
  rewrite Hlen, (extract_keywords_no_cjk _ 10%nat Hcjk).
  cbn [filter len List.length Z.of_nat Z.max].
  replace (float_of_int 0 / float_of_int (Z.max 0 1) <? 0.3)%float with true
    by (vm_compute; reflexivity).
  destruct (negb (len (char_abilities profile) =? 0)); try destruct (_ && _);
    split; reflexivity.
Qed.

Definition latin_profile : Character :=
  {| char_name := u "Ann"; char_identity := []; char_personality := u "brave and kind";
     char_motivation := []; char_importance := None; char_abilities := [];
     char_last_appearance := None; char_development_history := None;
     char_created_at := None; char_updated_at := None |}.

Lemma character_check_fails_without_keywords_witness :
  passed (check_character_consistency (u "Ann") (u "Ann is brave and kind.") latin_profile)
  = false /\
  score (check_character_consistency (u "Ann") (u "Ann is brave and kind.") latin_profile)
  = 70.
Proof.
  apply (character_check_fails_without_keywords (u "Ann") (u "Ann is brave and kind.")
           latin_profile).
  - intros H. vm_compute in H. discriminate H.
  - vm_compute. reflexivity.
Defined.

(** The profile with its ability list emptied. *)
Definition without_abilities (c : Character) : Character :=
  {| char_name := char_name c; char_identity := char_identity c;
     char_personality := char_personality c; char_motivation := char_motivation c;
     char_importance := char_importance c; char_abilities := [];
     char_last_appearance := char_last_appearance c;
     char_development_history := char_development_history c;
     char_created_at := char_created_at c; char_updated_at := char_updated_at c |}.

(** X3: the ability list never changes the verdict, the score or the
    suggestions of the character check; all it can do is add one issue at the
    end, and a profile with no personality always passes with 100. *)
Theorem character_check_abilities_only_add_issue name text profile :
  passed (check_character_consistency name text profile)
  = passed (check_character_consistency name text (without_abilities profile)) /\
  score (check_character_consistency name text profile)
  = score (check_character_consistency name text (without_abilities profile)) /\
  suggestions (check_character_consistency name text profile)
  = suggestions (check_character_consistency name text (without_abilities profile)) /\
  (issues (check_character_consistency name text profile)
   = issues (check_character_consistency name text (without_abilities profile)) \/
   issues (check_character_consistency name text profile)
   = issues (check_character_consistency name text (without_abilities profile))
     ++ [u "人物'" ++ name ++ u "'的能力未在场景中体现"]) /\
  (char_personality profile = [] ->
   passed (check_character_consistency name text profile) = true /\
   score (check_character_consistency name text profile) = 100).
Proof.
  unfold check_character_consistency, without_abilities.
  cbn [char_personality char_abilities].
  change (negb (len (@nil str) =? 0)) with false. cbv iota.
  assert (Hp : char_personality profile = [] ->
               negb (len (char_personality profile) =? 0) = false)
    by (intros ->; reflexivity).
  destruct (negb (len (char_personality profile) =? 0)) eqn:Ep.
  - destruct (PrimFloat.ltb _ _);
      (destruct (negb (len (char_abilities profile) =? 0)); [destruct (_ && _)|]);
      cbn [passed score issues suggestions];
      (split; [reflexivity|split; [reflexivity|split; [reflexivity|split]]]);
      try (intros H; apply Hp in H; discriminate H);
      [right|left|left|right|left|left]; reflexivity.
  - destruct (negb (len (char_abilities profile) =? 0)); [destruct (_ && _)|];
      cbn [passed score issues suggestions];
      (split; [reflexivity|split; [reflexivity|split; [reflexivity|split]]]);
      try (intros _; split; reflexivity);
      [right|left|left]; reflexivity.
Qed.

(** ** The plot check *)

Lemma plot_check_passed text previous :
  passed (check_plot_consistency text previous) = (len (_check_logical_issues text) =? 0).
Proof.
  unfold check_plot_consistency.
  destruct (negb (len previous =? 0)); [destruct (PrimFloat.ltb _ _)|];
    destruct (len (_check_logical_issues text) =? 0); reflexivity.
Qed.

Lemma plot_check_score_cases text previous :
  (passed (check_plot_consistency text previous) = true /\
   (score (check_plot_consistency text previous) = 100 \/
    score (check_plot_consistency text previous) = 80)) \/
  (passed (check_plot_consistency text previous) = false /\
   40 <= score (check_plot_consistency text previous) <= 90).
Proof.
  pose proof (logical_issues_at_most_4 text) as H4.
  pose proof (len_nonneg (_check_logical_issues text)) as H0.
  unfold check_plot_consistency.
  generalize dependent (len (_check_logical_issues text)). intros k Hk4 Hk0.
  destruct (negb (len previous =? 0)); [destruct (PrimFloat.ltb _ _)|];
    destruct (k =? 0) eqn:Ek; cbn [negb passed score];
    try (left; split; [reflexivity|]; first [left; reflexivity | right; reflexivity]);
    right; (split; [reflexivity|]); apply Z.eqb_neq in Ek; lia.
Qed.

(** X4: the plot check fails exactly when a logical issue is found; weak
    continuity alone never fails it.  A passing result scores 100 or 80, a
    failing one between 40 and 90, and with no previous summary a passing
    result scores 100. *)
Theorem plot_check_verdict text previous :
  passed (check_plot_consistency text previous) = (len (_check_logical_issues text) =? 0) /\
  (passed (check_plot_consistency text previous) = true ->
   score (check_plot_consistency text previous) = 100 \/
   score (check_plot_consistency text previous) = 80) /\
  (passed (check_plot_consistency text previous) = false ->
   40 <= score (check_plot_consistency text previous) <= 90) /\
  (previous = [] -> passed (check_plot_consistency text previous) = true ->
   score (check_plot_consistency text previous) = 100).
Proof.
  split; [apply plot_check_passed|].
  destruct (plot_check_score_cases text previous) as [[Hp Hs]|[Hp Hs]]; rewrite Hp.
  - repeat split; try discriminate; auto.
    intros -> _. clear Hs. revert Hp. unfold check_plot_consistency.
    change (negb (len (@nil str) =? 0)) with false. cbv iota.
    destruct (negb (len (_check_logical_issues text) =? 0)); [discriminate|reflexivity].
  - repeat split; try discriminate; try lia; intros; lia.
Qed.

Lemma negation_word : u "不存在" = 19981 :: u "存在".
Proof. vm_compute. reflexivity. Qed.

Lemma in_flat_map_len {A B : Type} (f : A -> list B) (l : list A) x y :
  In x l -> In y (f x) -> 0 < len (flat_map f l).
Proof.
  intros Hx Hy. assert (H : In y (flat_map f l)) by (apply in_flat_map; eauto).
  destruct (flat_map f l); [contradiction|]. unfold len. cbn [List.length]. lia.
Qed.

(** X5: a text that contains 不存在 contains 存在 as well, so the pair
    (存在, 不存在) of the contradiction table is found in it: every such
    text fails the plot check, with a score of at most 90. *)
Theorem plot_check_flags_negation text previous :
  contains (u "不存在") text = true ->
  passed (check_plot_consistency text previous) = false /\
  score (check_plot_consistency text previous) <= 90 /\
  In (u "可能存在'" ++ u "存在" ++ u "'和'" ++ u "不存在" ++ u "'的矛盾")
     (issues (check_plot_consistency text previous)).
Proof.
  intros H.
  assert (H' : contains (u "存在") text = true).
  { rewrite negation_word in H. now apply contains_tail in H. }
  assert (Hin : In (u "可能存在'" ++ u "存在" ++ u "'和'" ++ u "不存在" ++ u "'的矛盾")
                   (_check_logical_issues text)).
  { unfold _check_logical_issues. apply in_or_app. right.
    apply in_flat_map. exists (u "存在", u "不存在"). split.
    - unfold contradictions. right. right. left. reflexivity.
    - cbv beta iota. rewrite H, H'. left. reflexivity. }
  assert (Hlen : (len (_check_logical_issues text) =? 0) = false).
  { destruct (_check_logical_issues text); [contradiction|reflexivity]. }
  pose proof (plot_check_passed text previous) as Hp. rewrite Hlen in Hp.
  split; [exact Hp|]. split.
  - destruct (plot_check_score_cases text previous) as [[Hp' _]|[_ Hs]]; [congruence|lia].
  - unfold check_plot_consistency. rewrite Hlen. cbn [negb issues].
    apply in_or_app. now right.
Qed.

Lemma plot_check_flags_negation_witness :
  passed (check_plot_consistency (u "山洞里不存在出口。") []) = false /\
  score (check_plot_consistency (u "山洞里不存在出口。") []) <= 90 /\
  In (u "可能存在'" ++ u "存在" ++ u "'和'" ++ u "不存在" ++ u "'的矛盾")
     (issues (check_plot_consistency (u "山洞里不存在出口。") [])).
Proof.
  apply (plot_check_flags_negation (u "山洞里不存在出口。") []).
  vm_compute. reflexivity.
Defined.

(** X6: when there is a previous summary and either it or the chapter
    yields no keyword (a summary in Latin script, say), continuity is 0 and
    the plot check deducts its 20 points for weak continuity whatever the
    texts say. *)
Theorem plot_check_weak_without_keywords (text : str) (previous : list str) :
  previous <> [] ->
  _extract_keywords (last previous []) 10 = [] \/ _extract_keywords text 10 = [] ->
  score (check_plot_consistency text previous) <= 80 /\
  In (u "情节连贯性较弱") (issues (check_plot_consistency text previous)).
Proof.
  intros Hne Hkw.
  pose proof (logical_issues_at_most_4 text) as H4.
  pose proof (len_nonneg (_check_logical_issues text)) as H0.
  unfold check_plot_consistency.
  assert (Hlen : negb (len previous =? 0) = true)
    by (destruct previous; [congruence|reflexivity]).
  rewrite Hlen.
  assert (Hc : _calculate_continuity (_extract_keywords (last previous []) 10)
                                     (_extract_keywords text 10) = 0%float).
  { unfold _calculate_continuity. destruct Hkw as [-> | ->]; [reflexivity|].
    now rewrite orb_true_r. }
  rewrite Hc. replace (0 <? 0.2)%float with true by (vm_compute; reflexivity).
  generalize dependent (len (_check_logical_issues text)). intros k Hk4 Hk0.
  destruct (negb (k =? 0)); cbn [score issues]; split; try lia.
  - apply in_or_app. left. apply in_or_app. right. now left.
  - apply in_or_app. right. now left.
Qed.

Lemma plot_check_weak_without_keywords_witness :
  score (check_plot_consistency (u "新的章节开始了。") [u "The battle ended."]) <= 80 /\
  In (u "情节连贯性较弱")
     (issues (check_plot_consistency (u "新的章节开始了。") [u "The battle ended."])).
Proof.
  apply (plot_check_weak_without_keywords (u "新的章节开始了。") [u "The battle ended."]).
  - discriminate.
  - left. vm_compute. reflexivity.
Defined.

(** ** The world-rule check *)

(** X7: the world-rule check cannot fail and never deducts: on every text
    and worldview it passes with score 100; it reports at most one issue,
    with one suggestion, and none when the worldview has no culture text. *)
Theorem worldview_check_never_fails text worldview :
  passed (check_worldview_consistency text worldview) = true /\
  score (check_worldview_consistency text worldview) = 100 /\
  len (issues (check_worldview_consistency text worldview)) <= 1 /\
  len (suggestions (check_worldview_consistency text worldview))
  = len (issues (check_worldview_consistency text worldview)) /\
  (culture worldview = [] ->
   issues (check_worldview_consistency text worldview) = []).
Proof.
  unfold check_worldview_consistency.
  assert (Hc : culture worldview = [] -> negb (len (culture worldview) =? 0) = false)
    by (intros ->; reflexivity).
  destruct (truthy (special_rules worldview)); cbn [negb len List.length Z.of_nat Z.eqb];
    (destruct (negb (len (culture worldview) =? 0)) eqn:E; [destruct (_ && _)|]);
    cbn [passed score issues suggestions app];
    (split; [reflexivity|split; [reflexivity|split; [unfold len; cbn; lia|split]]]);
    try reflexivity;
    first [intros H; apply Hc in H; discriminate H | intros _; reflexivity].
Qed.

(** ** The per-chapter check *)

(** An invariant of the running result that holds at the start and is kept
    by every recorded check holds of the final result and the executed
    checks. *)
Lemma chapter_check_invariant (I : ChapterResult -> list Result -> Prop) :
  I {| ch_passed := true; ch_score := 100; detailed_checks := [];
       ch_issues := []; ch_suggestions := [] |} [] ->
  (forall key r results checks,
     I results checks -> I (record_check key r results) (checks ++ [r])) ->
  forall chapter_data context,
    I (check_chapter_consistency chapter_data context)
      (executed_checks chapter_data context).
Proof.
  intros H0 Hstep chapter_data context.
  assert (Hloop : forall characters results checks,
    I results checks ->
    I (fold_left (fun results character =>
         if contains (char_name character) (content chapter_data) then
           record_check (u "character_" ++ char_name character)
             (check_character_consistency (char_name character)
                (content chapter_data) character) results
         else results) characters results)
      (checks ++ flat_map (fun character =>
         if contains (char_name character) (content chapter_data)
         then [check_character_consistency (char_name character)
                 (content chapter_data) character]
         else []) characters)).
  { induction characters as [|c cs IH]; intros results checks H.
    - cbn. now rewrite app_nil_r.
    - cbn [fold_left flat_map].
      destruct (contains (char_name c) (content chapter_data)).
      + rewrite app_assoc. apply IH. now apply Hstep.
      + cbn [app]. now apply IH. }
  unfold check_chapter_consistency, executed_checks.
  destruct context as [cs ps wv]. cbn [ctx_characters ctx_previous_summaries ctx_worldview].
  destruct cs as [cs|].
  - apply (Hloop cs) in H0. cbn [app] in H0.
    destruct ps as [ps|], wv as [wv|]; rewrite ?app_nil_r.
    + rewrite app_assoc. now repeat apply Hstep.
    + now apply Hstep.
    + now apply Hstep.
    + exact H0.
  - cbn [app]. destruct ps as [ps|], wv as [wv|]; cbn [app].
    + apply (Hstep _ _ _ [_]). now apply (Hstep _ _ _ []).
    + now apply (Hstep _ _ _ []).
    + now apply (Hstep _ _ _ []).
    + exact H0.
Qed.

Definition failed (r : Result) : bool := negb (passed r).

(** Only the failed checks hand their issues and suggestions on. *)
Lemma chapter_check_reports chapter_data context :
  ch_issues (check_chapter_consistency chapter_data context)
  = flat_map issues (filter failed (executed_checks chapter_data context)) /\
  ch_suggestions (check_chapter_consistency chapter_data context)
  = flat_map suggestions (filter failed (executed_checks chapter_data context)).
Proof.
  apply (chapter_check_invariant
           (fun results checks =>
              ch_issues results = flat_map issues (filter failed checks) /\
              ch_suggestions results = flat_map suggestions (filter failed checks))).
  - split; reflexivity.
  - intros key r results checks [Hi Hs].
    rewrite filter_app, !flat_map_app. cbn [filter].
    unfold record_check. change (failed r) with (negb (passed r)).
    destruct (negb (passed r)); cbn [ch_issues ch_suggestions flat_map];
      rewrite ?app_nil_r, Hi, Hs; split; reflexivity.
Qed.

Lemma chapter_check_summary chapter_data context :
  ch_score (check_chapter_consistency chapter_data context)
  = weakest_failed (executed_checks chapter_data context) 100 /\
  ch_passed (check_chapter_consistency chapter_data context)
  = forallb passed (executed_checks chapter_data context).
Proof.
  apply (chapter_check_invariant
           (fun results checks =>
              ch_score results = weakest_failed checks 100 /\
              ch_passed results = forallb passed checks)).
  - split; reflexivity.
  - intros key r results checks [Hs Hp]. split.
    + rewrite record_check_score, weakest_failed_app, Hs. reflexivity.
    + rewrite record_check_passed, forallb_app, Hp. cbn [forallb].
      now rewrite andb_true_r.
Qed.

(** An executed check that failed scored 90 or less. *)
Lemma executed_failed_score chapter_data context r :
  In r (executed_checks chapter_data context) -> passed r = false -> score r <= 90.
Proof.
  unfold executed_checks. intros Hin Hf.
  apply in_app_or in Hin as [Hin|Hin]; [|apply in_app_or in Hin as [Hin|Hin]].
  - destruct (ctx_characters context) as [cs|]; [|contradiction].
    apply in_flat_map in Hin as [c [_ Hin]].
    destruct (contains (char_name c) (content chapter_data)); [|contradiction].
    destruct Hin as [<-|[]].
    destruct (character_check_cases (char_name c) (content chapter_data) c)
      as [[_ Hp]|[Hs _]]; [congruence|lia].
  - destruct (ctx_previous_summaries context) as [ps|]; [|contradiction].
    destruct Hin as [<-|[]].
    destruct (plot_check_score_cases (content chapter_data) ps) as [[Hp _]|[_ Hs]];
      [congruence|lia].
  - destruct (ctx_worldview context) as [wv|]; [|contradiction].
    destruct Hin as [<-|[]].
    destruct (worldview_check_passes (content chapter_data) wv) as [_ Hp]. congruence.
Qed.

Lemma weakest_failed_all_passed checks start :
  forallb passed checks = true -> weakest_failed checks start = start.
Proof.
  revert start. induction checks as [|r rs IH]; intros start H; [reflexivity|].
  cbn in H. apply andb_true_iff in H as [Hr Hrs]. cbn. rewrite Hr. now apply IH.
Qed.

(** X8: the per-chapter check passes exactly when its score is 100; its
    issues and suggestions are those of the failed checks, in the order the
    checks ran, and nothing of a check that passed: the issues of the
    world-rule check, which always passes, and the weak-continuity issue
    of a plot check that passed never reach the result. *)
Theorem chapter_check_passes_iff_full_score chapter_data context :
  (ch_passed (check_chapter_consistency chapter_data context) = true <->
   ch_score (check_chapter_consistency chapter_data context) = 100) /\
  ch_issues (check_chapter_consistency chapter_data context)
  = flat_map issues (filter failed (executed_checks chapter_data context)) /\
  ch_suggestions (check_chapter_consistency chapter_data context)
  = flat_map suggestions (filter failed (executed_checks chapter_data context)) /\
  (ch_passed (check_chapter_consistency chapter_data context) = true ->
   ch_issues (check_chapter_consistency chapter_data context) = [] /\
   ch_suggestions (check_chapter_consistency chapter_data context) = []).
Proof.
  destruct (chapter_check_summary chapter_data context) as [Hs Hp].
  destruct (chapter_check_reports chapter_data context) as [Hi Hg].
  split; [|split; [exact Hi|split; [exact Hg|]]].
  - rewrite Hs, Hp. split.
    + apply weakest_failed_all_passed.
    + intros H100.
      destruct (forallb passed (executed_checks chapter_data context)) eqn:E;
        [reflexivity|exfalso].
      assert (Hex : exists r, In r (executed_checks chapter_data context)
                              /\ passed r = false).
      { clear -E. induction (executed_checks chapter_data context) as [|x l IH];
          [discriminate|].
        cbn in E. destruct (passed x) eqn:Ex.
        - destruct (IH E) as [r [Hr Hf]]. exists r. split; [now right|exact Hf].
        - exists x. split; [now left|exact Ex]. }
      destruct Hex as [r [Hr Hf]].
      pose proof (weakest_failed_le (executed_checks chapter_data context) 100 r Hr Hf).
      pose proof (executed_failed_score chapter_data context r Hr Hf). lia.
  - rewrite Hp, Hi, Hg. intros Hall.
    assert (Hnone : filter failed (executed_checks chapter_data context) = []).
    { clear -Hall. induction (executed_checks chapter_data context) as [|x l IH];
        [reflexivity|].
      cbn in Hall. apply andb_true_iff in Hall as [Hx Hl].
      cbn [filter]. unfold failed at 1. rewrite Hx. cbn [negb]. now apply IH. }
    rewrite Hnone. split; reflexivity.
Qed.

(** ** The aggregate check *)

Lemma character_checks_no_chapter characters : character_checks characters [] = [].
Proof. unfold character_checks. induction characters; cbn; auto. Qed.

Lemma plot_checks_short chapters :
  (List.length chapters <= 1)%nat -> plot_checks chapters (sorted (keys chapters)) = [].
Proof.
  destruct chapters as [|[k c] [|x l]]; cbn [List.length]; intros H;
    [reflexivity|reflexivity|lia].
Qed.

(** X9: the overall score of the aggregate check never exceeds 70; with at
    most one chapter there is no pair of adjacent chapters, the plot
    component is 0 and the overall score is at most 30; with no chapter at
    all every component and the overall score are 0. *)
Theorem full_check_overall_ceiling outline characters chapters :
  overall_score (full_consistency_check outline characters chapters) <= 70 /\
  ((List.length chapters <= 1)%nat ->
   axis_score (plot_consistency (full_consistency_check outline characters chapters)) = 0 /\
   overall_score (full_consistency_check outline characters chapters) <= 30) /\
  (chapters = [] ->
   axis_score (character_consistency (full_consistency_check outline characters chapters)) = 0 /\
   overall_score (full_consistency_check outline characters chapters) = 0).
Proof.
  pose proof (full_check_character_axis outline characters chapters) as Hc.
  pose proof (full_check_plot_axis outline characters chapters) as Hp.
  pose proof (full_check_overall_exact outline characters chapters) as Ho.
  cbn zeta in Hc, Hp.
  assert (Hshort : (List.length chapters <= 1)%nat ->
    axis_score (plot_consistency (full_consistency_check outline characters chapters)) = 0).
  { intros H. unfold full_consistency_check. cbn [plot_consistency].
    now rewrite (plot_checks_short chapters H). }
  assert (Hnone : chapters = [] ->
    axis_score (character_consistency (full_consistency_check outline characters chapters)) = 0).
  { intros ->. unfold full_consistency_check. cbn [character_consistency].
    now rewrite character_checks_no_chapter. }
  rewrite Ho.
  set (c := axis_score (character_consistency
              (full_consistency_check outline characters chapters))) in *.
  set (p := axis_score (plot_consistency
              (full_consistency_check outline characters chapters))) in *.
  clearbody c p.
  split; [apply Z.div_le_upper_bound; lia|]. split.
  - intros H. rewrite (Hshort H). split; [reflexivity|].
    apply Z.div_le_upper_bound; lia.
  - intros H. assert (Hl : (List.length chapters <= 1)%nat) by (subst; cbn; lia).
    rewrite (Hnone H), (Hshort Hl). split; reflexivity.
Qed.

End CheckerExtras.

(* ===================================================================== *)
(** * Further properties of the memory *)
(* ===================================================================== *)

Module MemoryExtras.
Import SmartMemory PyFacts MemoryFacts.
Unset Implicit Arguments.

(** ** Dictionaries and ranges *)

Lemma has_set {V : Type} (k k0 : str) (v : V) (d : dict V) :
  has k (set k0 v d) = str_eqb k k0 || has k d.
Proof.
  destruct (str_eqb k k0) eqn:E.
  - apply str_eqb_eq in E. subst k0. cbn [orb].
    apply has_get. exists v. apply get_set_same.
  - cbn [orb]. unfold has, dict_mem.
    change (dict_get str_eqb k (set k0 v d)) with (get k (set k0 v d)).
    now rewrite get_set_other by exact E.
Qed.

Lemma len_set {V : Type} (k : str) (v : V) (d : dict V) :
  len (set k v d) = len d + (if has k d then 0 else 1).
Proof.
  unfold len, set, has, dict_mem. induction d as [|[k' v'] d IH]; [reflexivity|].
  cbn [dict_set dict_get]. destruct (str_eqb k k'); cbn [List.length]; [lia|].
  destruct (dict_get str_eqb k d); lia.
Qed.

(** An entry of [set k0 v0 d] is the new entry or an entry of [d]. *)
Lemma in_set_cases {V : Type} (k k0 : str) (v v0 : V) (d : dict V) :
  In (k, v) (set k0 v0 d) -> (k = k0 /\ v = v0) \/ In (k, v) d.
Proof.
  unfold set. induction d as [|[k' v'] d IH]; cbn [dict_set].
  - intros [H|[]]. injection H as <- <-. now left.
  - destruct (str_eqb k0 k') eqn:E.
    + apply str_eqb_eq in E. subst k'. intros [H|H].
      * injection H as <- <-. now left.
      * right. now right.
    + intros [H|H]; [right; now left|].
      destruct (IH H) as [Hl|Hr]; [now left|right; now right].
Qed.

Lemma in_has {V : Type} (k : str) (v : V) (d : dict V) : In (k, v) d -> has k d = true.
Proof.
  unfold has, dict_mem. induction d as [|[k' v'] d IH]; [intros []|].
  intros [H|H]; cbn [dict_get].
  - injection H as -> ->. now rewrite str_eqb_refl.
  - destruct (str_eqb k k'); [reflexivity|now apply IH].
Qed.

Lemma in_range_bounds a b x : In x (range a b) -> a <= x < b.
Proof.
  unfold range. intros H. apply in_map_iff in H as [i [<- Hi]].
  apply in_seq in Hi. lia.
Qed.

Lemma range_empty a b : b <= a -> range a b = [].
Proof. intros H. unfold range. now replace (Z.to_nat (b - a)) with O by lia. Qed.

Lemma range_snoc a b : a <= b -> range a (b + 1) = range a b ++ [b].
Proof.
  intros H. unfold range.
  replace (Z.to_nat (b + 1 - a)) with (Z.to_nat (b - a) + 1)%nat by lia.
  rewrite seq_app, map_app. cbn [seq map Nat.add]. do 2 f_equal. lia.
Qed.

Lemma range_sorted a b : StronglySorted Z.lt (range a b).
Proof.
  unfold range. generalize (Z.to_nat (b - a)) as n. generalize O as k.
  intros k n. revert k. induction n as [|n IH]; intros k; cbn [seq map]; constructor.
  - apply IH.
  - apply Forall_forall. intros x Hx. apply in_map_iff in Hx as [i [<- Hi]].
    apply in_seq in Hi. lia.
Qed.

Lemma len_filter_le {A : Type} (P : A -> bool) (l : list A) : len (filter P l) <= len l.
Proof.
  unfold len. induction l as [|x l IH]; cbn [filter List.length]; [lia|].
  destruct (P x); cbn [List.length]; lia.
Qed.

Lemma len_take {A : Type} (n : nat) (l : list A) : len (take n l) <= Z.of_nat n.
Proof. unfold len, take. pose proof (firstn_le_length n l). lia. Qed.

(** ** Recent summaries *)

(** The truncation of [_get_recent_summaries]. *)
Definition clipped (text : str) : str :=
  if 200 <? len text then take 200 text ++ u "..." else text.

Lemma len_clipped text : len (clipped text) <= 203.
Proof.
  unfold clipped. destruct (200 <? len text) eqn:E.
  - rewrite len_app. pose proof (len_take 200 text).
    change (len (u "...")) with 3. lia.
  - apply Z.ltb_ge in E. lia.
Qed.

Lemma clipped_twice text : clipped (clipped text) = clipped text.
Proof.
  unfold clipped at 2 3. destruct (200 <? len text) eqn:E; [|unfold clipped; now rewrite E].
  apply Z.ltb_lt in E.
  assert (Hlen : List.length (take 200 text) = 200%nat).
  { unfold take. rewrite length_firstn. unfold len in E. lia. }
  unfold clipped.
  assert (Hlong : (200 <? len (take 200 text ++ u "...")) = true).
  { apply Z.ltb_lt. rewrite len_app. unfold len at 1. rewrite Hlen.
    change (len (u "...")) with 3. lia. }
  rewrite Hlong. f_equal. unfold take at 1.
  rewrite firstn_app, Hlen, Nat.sub_diag, firstn_O, app_nil_r.
  apply firstn_all2. rewrite Hlen. lia.
Qed.

(** What the loop of [_get_recent_summaries] appends for one chapter. *)
Definition recent_entry (m : Memory) (chap_num : Z) : list (Z * str) :=
  match get (str_of_int chap_num) (chapter_summaries m) with
  | Some summary =>
      if summary_truthy summary then [(chap_num, clipped (summary_text_of summary))] else []
  | None => []
  end.

Lemma recent_summaries_entries m current_chapter window_size :
  _get_recent_summaries m current_chapter window_size
  = flat_map (recent_entry m) (range (Z.max 1 (current_chapter - window_size)) current_chapter).
Proof. reflexivity. Qed.

Lemma recent_entry_cases m n :
  recent_entry m n = [] \/ exists text, recent_entry m n = [(n, text)] /\ len text <= 203.
Proof.
  unfold recent_entry. destruct (get _ _) as [summary|]; [|now left].
  destruct (summary_truthy summary); [|now left].
  right. eexists. split; [reflexivity|apply len_clipped].
Qed.

Lemma recent_chapters_sorted m l :
  StronglySorted Z.lt l -> StronglySorted Z.lt (map fst (flat_map (recent_entry m) l)).
Proof.
  induction 1 as [|x l Hl IH Hx]; [constructor|].
  cbn [flat_map]. rewrite map_app.
  destruct (recent_entry_cases m x) as [->|[text [-> _]]]; [exact IH|].
  cbn [map fst app]. constructor; [exact IH|].
  apply Forall_forall. intros y Hy. apply in_map_iff in Hy as [[n t] [<- Hy]].
  apply in_flat_map in Hy as [z [Hz Hy]].
  destruct (recent_entry_cases m z) as [E|[t' [E _]]]; rewrite E in Hy; [contradiction|].
  destruct Hy as [Hy|[]]. injection Hy as <- <-. cbn [fst].
  rewrite Forall_forall in Hx. now apply Hx.
Qed.

Lemma len_recent_entries m l : len (flat_map (recent_entry m) l) <= len l.
Proof.
  unfold len. induction l as [|x l IH]; [cbn; lia|].
  cbn [flat_map]. rewrite length_app.
  destruct (recent_entry_cases m x) as [->|[text [-> _]]]; cbn [List.length]; lia.
Qed.

(** X10: [_get_recent_summaries] lists only chapters of the window
    [max(1, current - window) .. current - 1], in increasing order of chapter
    and at most one entry per chapter, so at most [window_size] entries;
    every text has at most 203 characters (200 and the dots); nothing is
    listed for the first chapter or for an empty window. *)
Theorem recent_summaries_window m current_chapter window_size :
  Forall (fun entry =>
            Z.max 1 (current_chapter - window_size) <= fst entry < current_chapter /\
            len (snd entry) <= 203)
         (_get_recent_summaries m current_chapter window_size) /\
  StronglySorted Z.lt (map fst (_get_recent_summaries m current_chapter window_size)) /\
  len (_get_recent_summaries m current_chapter window_size) <= Z.max 0 window_size /\
  (current_chapter <= 1 \/ window_size <= 0 ->
   _get_recent_summaries m current_chapter window_size = []).
Proof.
  rewrite recent_summaries_entries.
  split; [|split; [|split]].
  - apply Forall_flat_map, Forall_forall. intros n Hn. apply in_range_bounds in Hn.
    destruct (recent_entry_cases m n) as [->|[text [-> Ht]]]; [constructor|].
    constructor; [|constructor]. cbn [fst snd]. split; [exact Hn|exact Ht].
  - apply recent_chapters_sorted, range_sorted.
  - etransitivity; [apply len_recent_entries|].
    unfold len. rewrite range_length. lia.
  - intros H. rewrite range_empty; [reflexivity|lia].
Qed.

Lemma all_false_filter {A : Type} (P : A -> bool) (l : list A) :
  (forall x, In x l -> P x = false) -> filter P l = [].
Proof.
  induction l as [|x l IH]; intros H; [reflexivity|].
  cbn [filter]. rewrite (H x (or_introl eq_refl)). apply IH.
  intros y Hy. apply H. now right.
Qed.

(** X11: the summary [update_with_chapter] stores for chapter [n] is the
    last entry [_get_recent_summaries] gives for chapter [n + 1]: the
    chapter's summary, or its content when the summary is empty, cut to 200
    characters and the dots when longer. *)
Theorem stored_summary_is_latest_recent env n data s window_size :
  1 <= n -> 1 <= window_size ->
  exists earlier,
    _get_recent_summaries (self (snd (update_with_chapter env n data s))) (n + 1) window_size
    = earlier ++ [(n, clipped (if len (summary data) =? 0
                               then content data else summary data))].
Proof.
  intros Hn Hw. rewrite recent_summaries_entries.
  replace (n + 1 - window_size) with (n - (window_size - 1)) by lia.
  rewrite range_snoc by lia. rewrite flat_map_app. cbn [flat_map]. rewrite app_nil_r.
  eexists. f_equal.
  unfold recent_entry. rewrite update_with_chapter_summaries, get_set_same.
  cbn [summary_truthy summary_text_of].
  unfold chapter_summary_of. cbn [cs_summary].
  destruct (len (summary data) =? 0); [|reflexivity].
  change (if 200 <? len (content data) then take 200 (content data) ++ u "..."
          else content data) with (clipped (content data)).
  now rewrite clipped_twice.
Qed.

Lemma stored_summary_is_latest_recent_witness :
  exists earlier,
    _get_recent_summaries
      (self (snd (update_with_chapter Samples.sample_env 1 Samples.meeting
                    (Samples.start Samples.two_characters)))) (1 + 1) 5
    = earlier ++ [(1, clipped (if len (summary Samples.meeting) =? 0
                               then content Samples.meeting
                               else summary Samples.meeting))].
Proof.
  apply (stored_summary_is_latest_recent Samples.sample_env 1 Samples.meeting
           (Samples.start Samples.two_characters) 5); lia.
Defined.

(** ** Mentions and relevance *)

Definition is_summary_dict (entry : SummaryEntry) : bool :=
  match entry with SummaryDict _ => true | SummaryText _ => false end.

(** Every stored summary is a dict, as [update_with_chapter] stores them. *)
Definition all_dicts (d : dict SummaryEntry) : Prop :=
  Forall (fun entry => is_summary_dict (snd entry) = true) d.

Lemma all_dicts_get d k v : all_dicts d -> get k d = Some v -> is_summary_dict v = true.
Proof.
  unfold all_dicts, get. induction 1 as [|[k' v'] d Hx Hd IH]; [discriminate|].
  cbn [dict_get]. destruct (str_eqb k k'); [|exact IH].
  intros H. injection H as <-. exact Hx.
Qed.

Lemma all_dicts_set d k c : all_dicts d -> all_dicts (set k (SummaryDict c) d).
Proof.
  unfold all_dicts, set. induction 1 as [|[k' v'] d Hx Hd IH]; cbn [dict_set].
  - constructor; [reflexivity|constructor].
  - destruct (str_eqb k k'); constructor; auto.
Qed.

Lemma mentioned_in_dicts d name k :
  all_dicts d -> mem name summary_keys = false -> mentioned_in name (get k d) = false.
Proof.
  intros Hd Hname. destruct (get k d) as [v|] eqn:E; [|reflexivity].
  pose proof (all_dicts_get d k v Hd E) as Hv.
  destruct v; [exact Hname|discriminate].
Qed.

(** X12: [update_with_chapter] stores summaries as dicts, and
    [character_name in summary] on a dict tests its keys: in a store whose
    summaries are all dicts, and still after [update_with_chapter], the
    count of recent mentions is 0 for every name other than the five keys
    of a summary dict, whatever the summaries say. *)
Theorem dict_summaries_never_mention env n data s name up_to_chapter :
  all_dicts (chapter_summaries (self s)) ->
  mem name summary_keys = false ->
  _count_character_mentions (self s) name up_to_chapter = 0 /\
  all_dicts (chapter_summaries (self (snd (update_with_chapter env n data s)))) /\
  _count_character_mentions (self (snd (update_with_chapter env n data s)))
                            name up_to_chapter = 0.
Proof.
  intros Hd Hname.
  assert (Hzero : forall m, all_dicts (chapter_summaries m) ->
                            _count_character_mentions m name up_to_chapter = 0).
  { intros m Hm. unfold _count_character_mentions.
    rewrite all_false_filter; [reflexivity|].
    intros k _. now apply mentioned_in_dicts. }
  assert (Hd' : all_dicts (chapter_summaries (self (snd (update_with_chapter env n data s))))).
  { rewrite update_with_chapter_summaries. now apply all_dicts_set. }
  split; [now apply Hzero|]. split; [exact Hd'|now apply Hzero].
Qed.

Lemma dict_summaries_never_mention_witness :
  _count_character_mentions (self (Samples.start Samples.two_characters)) (u "甲") 2 = 0 /\
  all_dicts (chapter_summaries
               (self (snd (update_with_chapter Samples.sample_env 1 Samples.meeting
                             (Samples.start Samples.two_characters))))) /\
  _count_character_mentions
    (self (snd (update_with_chapter Samples.sample_env 1 Samples.meeting
                  (Samples.start Samples.two_characters)))) (u "甲") 2 = 0.
Proof.
  apply (dict_summaries_never_mention Samples.sample_env 1 Samples.meeting
           (Samples.start Samples.two_characters) (u "甲") 2).
  - constructor.
  - vm_compute. reflexivity.
Defined.

Lemma fmin_le a b : (a <=? a)%float = true -> (fmin a b <=? a)%float = true.
Proof.
  intros Ha. unfold fmin. destruct (b <? a)%float eqn:E; [|exact Ha].
  rewrite FloatAxioms.ltb_spec in E. rewrite FloatAxioms.leb_spec.
  unfold SFltb in E. unfold SFleb.
  destruct (SFcompare (Prim2SF b) (Prim2SF a)) as [[]|]; congruence.
Qed.

(** X13: the relevance of a character is at most 1.0, and 0.0 for a name
    that is not a stored character; the count of recent mentions lies
    between 0 and 5, and is 0 for chapter 1. *)
Theorem relevance_at_most_one m name chapter_number :
  (_calculate_character_relevance m name chapter_number <=? 1)%float = true /\
  (has name (characters m) = false ->
   _calculate_character_relevance m name chapter_number = 0%float) /\
  0 <= _count_character_mentions m name chapter_number <= 5 /\
  (chapter_number <= 1 -> _count_character_mentions m name chapter_number = 0).
Proof.
  split; [|split; [|split]].
  - unfold _calculate_character_relevance.
    destruct (get name (characters m)); [|reflexivity].
    cbv zeta. apply fmin_le. reflexivity.
  - intros H. unfold _calculate_character_relevance.
    destruct (get name (characters m)) as [c|] eqn:E; [|reflexivity].
    assert (Hh : has name (characters m) = true) by (apply has_get; now exists c).
    congruence.
  - unfold _count_character_mentions. split; [apply len_nonneg|].
    etransitivity; [apply len_filter_le|].
    unfold len. rewrite range_length. lia.
  - intros H. unfold _count_character_mentions.
    rewrite range_empty; [reflexivity|lia].
Qed.

(** ** The selection of characters *)

(** The test of rule 1. *)
Definition leading (name : str) (data : Character) : bool :=
  contains (u "主角") name || (8 <=? importance_or 0 data).

Lemma always_relevant_step chars acc :
  let selected :=
    fold_left (fun relevant_chars '(name, data) =>
                 if contains (u "主角") name || (8 <=? importance_or 0 data)
                 then set name data relevant_chars else relevant_chars) chars acc in
  (forall k v, In (k, v) selected ->
     In (k, v) acc \/ (In (k, v) chars /\ leading k v = true)) /\
  (forall k, has k acc = true -> has k selected = true) /\
  (forall k v, In (k, v) chars -> leading k v = true -> has k selected = true).
Proof.
  revert acc. induction chars as [|[name data] rest IH]; intros acc; cbn zeta.
  - cbn [fold_left]. split; [auto|]. split; [auto|]. intros k v [].
  - cbn [fold_left]. fold (leading name data).
    set (acc' := if leading name data then set name data acc else acc).
    destruct (IH acc') as [Hin [Hmono Hall]]. cbn zeta in Hin, Hmono, Hall.
    assert (Hacc : forall k, has k acc = true -> has k acc' = true).
    { intros k Hk. unfold acc'. destruct (leading name data); [|exact Hk].
      rewrite has_set, Hk. apply orb_true_r. }
    split; [|split].
    + intros k v H. destruct (Hin k v H) as [Ha|[Hr Hl]].
      * unfold acc' in Ha. destruct (leading name data) eqn:El.
        -- destruct (in_set_cases k name v data acc Ha) as [[-> ->]|Hacc'].
           ++ right. split; [now left|exact El].
           ++ now left.
        -- now left.
      * right. split; [now right|exact Hl].
    + intros k Hk. apply Hmono. now apply Hacc.
    + intros k v [H|H] Hl.
      * injection H as -> ->. apply Hmono. unfold acc'. rewrite Hl.
        rewrite has_set, str_eqb_refl. reflexivity.
      * now apply (Hall k v).
Qed.

Lemma opening_characters_spec chars acc :
  (forall k v, In (k, v) (opening_characters chars acc) ->
     In (k, v) acc \/ (In (k, v) chars /\ 6 <= importance_or 0 v)) /\
  (forall k, has k acc = true -> has k (opening_characters chars acc) = true) /\
  len (opening_characters chars acc) <= Z.max 5 (len acc + 1).
Proof.
  revert acc. induction chars as [|[name data] rest IH]; intros acc.
  - cbn [opening_characters]. split; [auto|]. split; [auto|]. lia.
  - cbn [opening_characters].
    destruct ((6 <=? importance_or 0 data) && negb (has name acc)) eqn:E.
    + apply andb_true_iff in E as [E6 Eh]. apply Z.leb_le in E6.
      apply negb_true_iff in Eh.
      assert (Hlen : len (set name data acc) = len acc + 1)
        by (rewrite len_set, Eh; reflexivity).
      assert (Hin : forall k v, In (k, v) (set name data acc) ->
                In (k, v) acc \/ (In (k, v) ((name, data) :: rest) /\ 6 <= importance_or 0 v)).
      { intros k v H. destruct (in_set_cases k name v data acc H) as [[-> ->]|Ha].
        - right. split; [now left|exact E6].
        - now left. }
      assert (Hmono : forall k, has k acc = true -> has k (set name data acc) = true).
      { intros k Hk. rewrite has_set, Hk. apply orb_true_r. }
      destruct (5 <=? len (set name data acc)) eqn:E5.
      * split; [exact Hin|]. split; [exact Hmono|]. lia.
      * apply Z.leb_gt in E5.
        destruct (IH (set name data acc)) as [IHin [IHmono IHlen]].
        split; [|split].
        -- intros k v H. destruct (IHin k v H) as [Ha|[Hr H6]].
           ++ now apply Hin.
           ++ right. split; [now right|exact H6].
        -- intros k Hk. apply IHmono. now apply Hmono.
        -- lia.
    + destruct (IH acc) as [IHin [IHmono IHlen]].
      split; [|split; [exact IHmono|exact IHlen]].
      intros k v H. destruct (IHin k v H) as [Ha|[Hr H6]]; [now left|].
      right. split; [now right|exact H6].
Qed.

Lemma scored_characters_spec m n chars acc :
  (forall k v, In (k, v) (scored_characters m n chars acc) ->
     In (k, v) acc \/ In (k, v) chars) /\
  (forall k, has k acc = true -> has k (scored_characters m n chars acc) = true) /\
  len (scored_characters m n chars acc) <= Z.max 8 (len acc + 1).
Proof.
  revert acc. induction chars as [|[name data] rest IH]; intros acc.
  - cbn [scored_characters]. split; [auto|]. split; [auto|]. lia.
  - cbn [scored_characters]. cbv zeta.
    set (chosen := ((0.3 <=? _calculate_character_relevance m name n)%float
                    || (7 <=? importance_or 0 data))).
    set (acc' := if chosen then set name data acc else acc).
    assert (Hlen : len acc' <= len acc + 1).
    { unfold acc'. destruct chosen; [|lia]. rewrite len_set. destruct (has name acc); lia. }
    assert (Hin : forall k v, In (k, v) acc' ->
              In (k, v) acc \/ In (k, v) ((name, data) :: rest)).
    { intros k v H. unfold acc' in H. destruct chosen; [|now left].
      destruct (in_set_cases k name v data acc H) as [[-> ->]|Ha]; [right; now left|now left]. }
    assert (Hmono : forall k, has k acc = true -> has k acc' = true).
    { intros k Hk. unfold acc'. destruct chosen; [|exact Hk].
      rewrite has_set, Hk. apply orb_true_r. }
    destruct (8 <=? len acc') eqn:E8.
    + split; [exact Hin|]. split; [exact Hmono|]. lia.
    + apply Z.leb_gt in E8.
      destruct (IH acc') as [IHin [IHmono IHlen]].
      split; [|split].
      * intros k v H. destruct (IHin k v H) as [Ha|Hr]; [now apply Hin|right; now right].
      * intros k Hk. apply IHmono. now apply Hmono.
      * lia.
Qed.

(** X14: the characters [_get_relevant_characters] selects are stored
    characters with their stored data; every protagonist (主角 in the name)
    and every character of importance 8 or more is selected, whatever the
    chapter; the number selected is at most 5 in chapters 1 to 3 and 8
    later, or one more than the number rule 1 selected when that is larger;
    in chapters 1 to 3 everyone selected is a protagonist or has importance
    6 or more. *)
Theorem relevant_characters_selection m chapter_number :
  (forall name data,
     In (name, data) (_get_relevant_characters m chapter_number) ->
     In (name, data) (characters m)) /\
  (forall name data,
     In (name, data) (characters m) ->
     contains (u "主角") name = true \/ 8 <= importance_or 0 data ->
     has name (_get_relevant_characters m chapter_number) = true) /\
  len (_get_relevant_characters m chapter_number)
  <= Z.max (if chapter_number <=? 3 then 5 else 8) (len (always_relevant (characters m)) + 1) /\
  (chapter_number <= 3 ->
   forall name data,
     In (name, data) (_get_relevant_characters m chapter_number) ->
     contains (u "主角") name = true \/ 6 <= importance_or 0 data).
Proof.
  destruct (always_relevant_step (characters m) []) as [Hin [_ Hall]].
  cbn zeta in Hin, Hall. fold (always_relevant (characters m)) in Hin, Hall.
  assert (Hlead : forall name data,
            contains (u "主角") name = true \/ 8 <= importance_or 0 data ->
            leading name data = true).
  { intros name data [H|H]; unfold leading.
    - rewrite H. reflexivity.
    - apply Z.leb_le in H. rewrite H. apply orb_true_r. }
  unfold _get_relevant_characters. cbv zeta.
  destruct (chapter_number <=? 3) eqn:E3.
  - destruct (opening_characters_spec (characters m) (always_relevant (characters m)))
      as [Oin [Omono Olen]].
    split; [|split; [|split]].
    + intros name data H. destruct (Oin name data H) as [Ha|[Hc _]]; [|exact Hc].
      destruct (Hin name data Ha) as [[]|[Hc _]]. exact Hc.
    + intros name data Hc Hl. apply Omono. apply (Hall name data Hc). now apply Hlead.
    + exact Olen.
    + intros _ name data H. destruct (Oin name data H) as [Ha|[_ H6]]; [|now right].
      destruct (Hin name data Ha) as [[]|[_ Hl]]. unfold leading in Hl.
      apply orb_true_iff in Hl as [Hl|Hl]; [now left|].
      apply Z.leb_le in Hl. right. lia.
  - destruct (scored_characters_spec m chapter_number (characters m)
                (always_relevant (characters m))) as [Sin [Smono Slen]].
    split; [|split; [|split]].
    + intros name data H. destruct (Sin name data H) as [Ha|Hc]; [|exact Hc].
      destruct (Hin name data Ha) as [[]|[Hc _]]. exact Hc.
    + intros name data Hc Hl. apply Smono. apply (Hall name data Hc). now apply Hlead.
    + exact Slen.
    + intros H. apply Z.leb_gt in E3. lia.
Qed.

(** ** The selection of locations *)

(** The hash [_get_relevant_locations] takes of a location and a chapter. *)
Definition location_hash (name : str) (chapter_number : Z) : Z :=
  MD5.hexdigest_int (encode (name ++ u "_" ++ str_of_int chapter_number)).

Lemma hashed_locations_cons n name data rest acc :
  hashed_locations n ((name, data) :: rest) acc
  = let acc' := if location_hash name n mod 3 =? 0 then set name data acc else acc in
    if 5 <=? len acc' then acc' else hashed_locations n rest acc'.
Proof. reflexivity. Qed.

Lemma hashed_locations_spec n locs acc :
  (forall k v, In (k, v) (hashed_locations n locs acc) ->
     In (k, v) acc \/ (In (k, v) locs /\ location_hash k n mod 3 = 0)) /\
  (forall k, has k acc = true -> has k (hashed_locations n locs acc) = true) /\
  (len acc < 5 -> len (hashed_locations n locs acc) <= 5) /\
  (len (hashed_locations n locs acc) < 5 ->
   forall k v, In (k, v) locs -> location_hash k n mod 3 = 0 ->
               has k (hashed_locations n locs acc) = true).
Proof.
  revert acc. induction locs as [|[name data] rest IH]; intros acc.
  - cbn [hashed_locations]. split; [auto|]. split; [auto|]. split; [lia|].
    intros _ k v [].
  - rewrite hashed_locations_cons. cbv zeta.
    set (h := location_hash name n mod 3 =? 0).
    assert (Eh : h = (location_hash name n mod 3 =? 0)) by reflexivity.
    clearbody h.
    set (acc' := if h then set name data acc else acc).
    assert (Hlen : len acc' <= len acc + 1).
    { unfold acc'. destruct h; [|lia]. rewrite len_set. destruct (has name acc); lia. }
    assert (Hin : forall k v, In (k, v) acc' ->
              In (k, v) acc \/ (In (k, v) ((name, data) :: rest)
                                /\ location_hash k n mod 3 = 0)).
    { intros k v H. unfold acc' in H. destruct h; [|now left].
      destruct (in_set_cases k name v data acc H) as [[-> ->]|Ha]; [|now left].
      right. split; [now left|]. symmetry in Eh. now apply Z.eqb_eq in Eh. }
    assert (Hmono : forall k, has k acc = true -> has k acc' = true).
    { intros k Hk. unfold acc'. destruct h; [|exact Hk].
      rewrite has_set, Hk. apply orb_true_r. }
    assert (Hhead : location_hash name n mod 3 = 0 -> has name acc' = true).
    { intros H0. apply Z.eqb_eq in H0. unfold acc'. rewrite Eh, H0.
      rewrite has_set, str_eqb_refl. reflexivity. }
    destruct (5 <=? len acc') eqn:E5.
    + apply Z.leb_le in E5. split; [exact Hin|]. split; [exact Hmono|].
      split; [lia|]. intros H. lia.
    + apply Z.leb_gt in E5.
      destruct (IH acc') as [IHin [IHmono [IHlen IHall]]].
      split; [|split; [|split]].
      * intros k v H. destruct (IHin k v H) as [Ha|[Hr H0]]; [now apply Hin|].
        right. split; [now right|exact H0].
      * intros k Hk. apply IHmono. now apply Hmono.
      * intros _. now apply IHlen.
      * intros Hfew k v [H|H] H0.
        -- injection H as -> ->. apply IHmono. now apply Hhead.
        -- now apply (IHall Hfew k v).
Qed.

(** X15: [_get_relevant_locations] returns at most 5 locations, each a
    stored location with its stored data whose hash with the chapter number
    is a multiple of 3; when fewer than 5 are returned, every stored
    location with such a hash is among them. *)
Theorem relevant_locations_selection m chapter_number :
  len (_get_relevant_locations m chapter_number) <= 5 /\
  (forall name data,
     In (name, data) (_get_relevant_locations m chapter_number) ->
     In (name, data) (locations m) /\ location_hash name chapter_number mod 3 = 0) /\
  (len (_get_relevant_locations m chapter_number) < 5 ->
   forall name data,
     In (name, data) (locations m) ->
     location_hash name chapter_number mod 3 = 0 ->
     has name (_get_relevant_locations m chapter_number) = true).
Proof.
  unfold _get_relevant_locations.
  destruct (hashed_locations_spec chapter_number (locations m) [])
    as [Hin [_ [Hlen Hall]]].
  split; [apply Hlen; reflexivity|]. split; [|exact Hall].
  intros name data H. destruct (Hin name data H) as [[]|Hr]. exact Hr.
Qed.

(** ** Active plot threads *)

(** A thread as [_extract_plots] creates it: it starts and ends in the
    same chapter. *)
Definition single_chapter (plot : Plot) : Prop :=
  plot_start_chapter plot = plot_end_chapter plot.

(** The threads after [_extract_plots]: the old ones, extended or not, and
    the new one if any. *)
Lemma extract_plots_threads env data n s :
  exists old created,
    plots (self (snd (_extract_plots env data n s))) = old ++ created /\
    Forall2 (extends_match (key_events data) n) (plots (self s)) old /\
    Forall (fun plot => plot_start_chapter plot = n /\ plot_end_chapter plot = n) created.
Proof.
  unfold _extract_plots.
  destruct (len (key_events data) =? 0) eqn:E0; cbn [negb].
  - apply len_zero_nil in E0. rewrite E0.
    exists (plots (self s)), []. rewrite app_nil_r.
    split; [reflexivity|]. split; [apply forall2_same_when_no_event|constructor].
  - unfold bind at 1. unfold get_self at 1. unfold bind at 1.
    destruct (extend_plots_spec env (plots (self s)) (key_events data) n s) as [HF Hself].
    destruct (extend_plots env (plots (self s)) (key_events data) n s) as [l' s1].
    cbn [fst snd] in HF, Hself.
    unfold bind at 1. unfold modify_self at 1.
    destruct (2 <=? len (key_events data)) eqn:E2.
    + unfold bind, datetime_now, modify_self. cbn [snd self plots set_plots].
      eexists l', [_]. split; [reflexivity|]. split; [exact HF|].
      constructor; [|constructor]. split; reflexivity.
    + cbn [ret snd self plots set_plots].
      exists l', []. rewrite app_nil_r.
      split; [reflexivity|]. split; [exact HF|constructor].
Qed.

Lemma extends_match_chapters events n p p' :
  extends_match events n p p' ->
  plot_start_chapter p' = plot_start_chapter p /\
  plot_end_chapter p' = plot_end_chapter p /\
  plot_name p' = plot_name p /\ plot_keywords p' = plot_keywords p.
Proof.
  unfold extends_match. destruct (plot_matches p events).
  - intros [t ->]. repeat split; reflexivity.
  - intros ->. repeat split; reflexivity.
Qed.

Lemma active_plots_active m chapter_number plot :
  In plot (_get_active_plots m chapter_number) ->
  In plot (plots m) /\
  plot_start_chapter plot <= chapter_number <= plot_end_chapter plot.
Proof.
  unfold _get_active_plots. intros H. apply CheckerExtras.in_take in H.
  apply filter_In in H as [Hin Hact]. split; [exact Hin|].
  apply andb_true_iff in Hact as [H1 H2].
  apply Z.leb_le in H1. apply Z.leb_le in H2. lia.
Qed.

(** X16: [_extract_plots] never moves the start or the end of an existing
    thread, and a thread it creates starts and ends in the current chapter.
    So when every stored thread starts and ends in one chapter this still
    holds afterwards, and [_get_active_plots] then lists, at most 5, only
    threads begun in the very chapter asked for: a thread is not active for
    any later chapter. *)
Theorem plot_threads_stay_single_chapter env data n s :
  map plot_start_chapter (firstn (List.length (plots (self s)))
                                 (plots (self (snd (_extract_plots env data n s)))))
  = map plot_start_chapter (plots (self s)) /\
  map plot_end_chapter (firstn (List.length (plots (self s)))
                               (plots (self (snd (_extract_plots env data n s)))))
  = map plot_end_chapter (plots (self s)) /\
  (forall plot,
     In plot (skipn (List.length (plots (self s)))
                    (plots (self (snd (_extract_plots env data n s))))) ->
     plot_start_chapter plot = n /\ plot_end_chapter plot = n) /\
  (Forall single_chapter (plots (self s)) ->
   Forall single_chapter (plots (self (snd (_extract_plots env data n s)))) /\
   forall chapter_number,
     len (_get_active_plots (self (snd (_extract_plots env data n s))) chapter_number) <= 5 /\
     forall plot,
       In plot (_get_active_plots (self (snd (_extract_plots env data n s))) chapter_number) ->
       plot_start_chapter plot = chapter_number /\ plot_end_chapter plot = chapter_number).
Proof.
  destruct (extract_plots_threads env data n s) as [old [created [Hplots [HF Hnew]]]].
  assert (Hlen : List.length old = List.length (plots (self s)))
    by (symmetry; apply (Forall2_length HF)).
  assert (Hold : map plot_start_chapter old = map plot_start_chapter (plots (self s)) /\
                 map plot_end_chapter old = map plot_end_chapter (plots (self s)) /\
                 (Forall single_chapter (plots (self s)) -> Forall single_chapter old)).
  { clear Hlen Hplots. induction HF as [|p p' l l' Hp HF IH].
    - repeat split. intros _. constructor.
    - destruct IH as [IH1 [IH2 IH3]].
      destruct (extends_match_chapters _ _ _ _ Hp) as [Hs [He _]].
      cbn [map]. rewrite IH1, IH2, Hs, He. repeat split.
      intros Hsingle. apply Forall_cons_iff in Hsingle as [Hp1 Hl1].
      constructor; [|now apply IH3]. unfold single_chapter in *. congruence. }
  destruct Hold as [Hstart [Hend Hkeep]].
  assert (Hfirst : firstn (List.length (plots (self s)))
                          (plots (self (snd (_extract_plots env data n s)))) = old).
  { rewrite Hplots, <- Hlen, firstn_app, Nat.sub_diag, firstn_O, app_nil_r.
    apply firstn_all. }
  assert (Hrest : skipn (List.length (plots (self s)))
                        (plots (self (snd (_extract_plots env data n s)))) = created).
  { rewrite Hplots, <- Hlen, skipn_app, Nat.sub_diag, skipn_all. reflexivity. }
  rewrite Hfirst, Hrest.
  split; [exact Hstart|]. split; [exact Hend|]. split.
  - intros plot Hin. rewrite Forall_forall in Hnew. now apply Hnew.
  - intros Hsingle.
    assert (Hall : Forall single_chapter (plots (self (snd (_extract_plots env data n s))))).
    { rewrite Hplots. apply Forall_app. split; [now apply Hkeep|].
      eapply Forall_impl; [|exact Hnew]. intros p [H1 H2]. unfold single_chapter. congruence. }
    split; [exact Hall|]. intros chapter_number. split.
    + unfold _get_active_plots. apply (len_take 5).
    + intros plot H. apply active_plots_active in H as [Hin Hact].
      rewrite Forall_forall in Hall. specialize (Hall plot Hin).
      unfold single_chapter in Hall. lia.
Qed.

(** The thread the sample chapter creates at chapter 5 is the one active
    thread of chapter 5. *)
Lemma plot_threads_stay_single_chapter_witness :
  Forall single_chapter (plots (self (Samples.start Samples.two_plots))) /\
  List.length (_get_active_plots
                 (self (snd (_extract_plots Samples.sample_env Samples.eventful 5
                               (Samples.start Samples.two_plots)))) 5) = 1%nat /\
  (forall plot,
     In plot (_get_active_plots
                (self (snd (_extract_plots Samples.sample_env Samples.eventful 5
                              (Samples.start Samples.two_plots)))) 5) ->
     plot_start_chapter plot = 5 /\ plot_end_chapter plot = 5) /\
  (forall plot,
     In plot (skipn (List.length (plots (self (Samples.start Samples.two_plots))))
                    (plots (self (snd (_extract_plots Samples.sample_env Samples.eventful 5
                                         (Samples.start Samples.two_plots)))))) ->
     plot_start_chapter plot = 5 /\ plot_end_chapter plot = 5) /\
  map plot_start_chapter
      (firstn (List.length (plots (self (Samples.start Samples.two_plots))))
              (plots (self (snd (_extract_plots Samples.sample_env Samples.eventful 5
                                   (Samples.start Samples.two_plots))))))
  = [1; 2].
Proof.
  assert (Hsingle : Forall single_chapter (plots (self (Samples.start Samples.two_plots))))
    by (repeat constructor).
  destruct (plot_threads_stay_single_chapter Samples.sample_env Samples.eventful 5
              (Samples.start Samples.two_plots)) as [Hstart [_ [Hnew Hactive]]].
  destruct (Hactive Hsingle) as [_ Hfive].
  split; [exact Hsingle|]. split; [vm_compute; reflexivity|].
  split; [apply (proj2 (Hfive 5))|]. split; [exact Hnew|].
  rewrite Hstart. reflexivity.
Defined.

(** ** Backups *)

Lemma length_insert_sorted_str x l :
  List.length (insert_sorted_str x l) = S (List.length l).
Proof.
  induction l as [|y l IH]; [reflexivity|].
  cbn [insert_sorted_str]. destruct (str_leb x y); cbn [List.length]; [reflexivity|].
  now rewrite IH.
Qed.

Lemma length_sorted_str l : List.length (sorted_str l) = List.length l.
Proof.
  unfold sorted_str. induction l as [|x l IH]; [reflexivity|].
  cbn [fold_right List.length]. now rewrite length_insert_sorted_str, IH.
Qed.

Lemma in_insert_sorted_str x y l : In y (insert_sorted_str x l) -> y = x \/ In y l.
Proof.
  induction l as [|z l IH]; cbn [insert_sorted_str].
  - intros [H|[]]. now left.
  - destruct (str_leb x z).
    + intros [H|H]; [now left|now right].
    + intros [H|H]; [right; now left|].
      destruct (IH H) as [E|Hl]; [now left|right; now right].
Qed.

Lemma in_sorted_str y l : In y (sorted_str l) -> In y l.
Proof.
  unfold sorted_str. induction l as [|x l IH]; [auto|].
  cbn [fold_right]. intros H. apply in_insert_sorted_str in H as [->|H];
    [now left|right; now apply IH].
Qed.

Lemma in_skipn {A : Type} (n : nat) (l : list A) x : In x (skipn n l) -> In x l.
Proof.
  intros H. rewrite <- (firstn_skipn n l). apply in_or_app. now right.
Qed.

(** X17: [_create_backup] under a timestamp that names no backup yet
    leaves [min(5, n + 1)] backups, each the new one or one of the [n]
    there were; under a timestamp that names an existing backup the list of
    backups is left as it is; the files of the store are never touched. *)
Theorem backup_keeps_at_most_five env s :
  let timestamp := strftime_backup (now env (ticks s)) in
  let after := disk (snd (_create_backup env s)) in
  (mem timestamp (backups (disk s)) = false ->
   List.length (backups after) = Nat.min 5 (S (List.length (backups (disk s)))) /\
   (forall b, In b (backups after) -> b = timestamp \/ In b (backups (disk s)))) /\
  (mem timestamp (backups (disk s)) = true -> backups after = backups (disk s)) /\
  core_settings_json after = core_settings_json (disk s) /\
  character_files after = character_files (disk s) /\
  chapter_summaries_json after = chapter_summaries_json (disk s) /\
  worldview_json after = worldview_json (disk s) /\
  timeline_json after = timeline_json (disk s) /\
  plot_files after = plot_files (disk s) /\
  location_files after = location_files (disk s).
Proof.
  cbv zeta. unfold _create_backup, bind, datetime_now, modify_disk.
  cbn [snd disk strftime_backup].
  destruct (mem (strftime_backup (now env (ticks s))) (backups (disk s))) eqn:E.
  - split; [discriminate|]. repeat split; reflexivity.
  - cbn [backups core_settings_json character_files chapter_summaries_json
         worldview_json timeline_json plot_files location_files].
    split; [|repeat split; discriminate].
    intros _. split.
    + rewrite length_skipn, length_sorted_str. cbn [List.length]. lia.
    + intros b Hb. apply in_skipn, in_sorted_str in Hb. destruct Hb as [<-|Hb]; auto.
Qed.

(** ** What a save leaves on the disk *)

(** The character file [k] after the writes [ws]. *)
Definition character_file_after (k : str) (ws : list Write) (before : option Character)
  : option Character :=
  fold_left (fun file w =>
               match w with
               | WriteCharacter name v => if str_eqb k name then Some v else file
               | _ => file
               end) ws before.

Definition location_file_after (k : str) (ws : list Write) (before : option Location)
  : option Location :=
  fold_left (fun file w =>
               match w with
               | WriteLocation name v => if str_eqb k name then Some v else file
               | _ => file
               end) ws before.

Lemma perform_all_app ws1 ws2 d :
  perform_all (ws1 ++ ws2) d = perform_all ws2 (perform_all ws1 d).
Proof. unfold perform_all. apply fold_left_app. Qed.

Lemma get_set {V : Type} (k k0 : str) (v : V) (d : dict V) :
  get k (set k0 v d) = if str_eqb k k0 then Some v else get k d.
Proof.
  destruct (str_eqb k k0) eqn:E.
  - apply str_eqb_eq in E. subst. apply get_set_same.
  - now apply get_set_other.
Qed.

Lemma perform_all_character_file k ws d :
  get k (character_files (perform_all ws d))
  = character_file_after k ws (get k (character_files d)).
Proof.
  unfold perform_all, character_file_after. revert d.
  induction ws as [|w ws IH]; intros d; [reflexivity|].
  cbn [fold_left]. rewrite IH. f_equal.
  destruct w; cbn [perform character_files]; try reflexivity. apply get_set.
Qed.

Lemma perform_all_location_file k ws d :
  get k (location_files (perform_all ws d))
  = location_file_after k ws (get k (location_files d)).
Proof.
  unfold perform_all, location_file_after. revert d.
  induction ws as [|w ws IH]; intros d; [reflexivity|].
  cbn [fold_left]. rewrite IH. f_equal.
  destruct w; cbn [perform location_files]; try reflexivity. apply get_set.
Qed.

(** Writes that leave alone what [f] reads of the disk. *)
Lemma perform_all_keeps {X : Type} (f : Disk -> X) ws d :
  Forall (fun w => forall d0, f (perform w d0) = f d0) ws -> f (perform_all ws d) = f d.
Proof.
  unfold perform_all. revert d. induction ws as [|w ws IH]; intros d H; [reflexivity|].
  apply Forall_cons_iff in H as [Hw Hws]. cbn [fold_left]. now rewrite IH, Hw.
Qed.

Lemma character_writes_keep {X : Type} (f : Disk -> X) env chars :
  (forall name v d0, f (perform (WriteCharacter name v) d0) = f d0) ->
  Forall (fun w => forall d0, f (perform w d0) = f d0)
         (map (fun '(char_name, char_data) => WriteCharacter (safe_name env char_name) char_data)
              chars).
Proof.
  intros H. apply Forall_forall. intros w Hw.
  apply in_map_iff in Hw as [[name data] [<- _]]. apply H.
Qed.

Lemma location_writes_keep {X : Type} (f : Disk -> X) env locs :
  (forall name v d0, f (perform (WriteLocation name v) d0) = f d0) ->
  Forall (fun w => forall d0, f (perform w d0) = f d0)
         (map (fun '(loc_name, loc_data) => WriteLocation (safe_name env loc_name) loc_data)
              locs).
Proof.
  intros H. apply Forall_forall. intros w Hw.
  apply in_map_iff in Hw as [[name data] [<- _]]. apply H.
Qed.

Lemma plot_writes_keep {X : Type} (f : Disk -> X) i l :
  (forall j v d0, f (perform (WritePlot j v) d0) = f d0) ->
  Forall (fun w => forall d0, f (perform w d0) = f d0) (plot_writes i l).
Proof.
  intros H. revert i. induction l as [|p l IH]; intros i; cbn [plot_writes];
    constructor; [apply H|apply IH].
Qed.

(** The single files after the writes of a save: what the store holds. *)
Lemma save_writes_single_files env m d :
  core_settings_json (perform_all (save_writes env m) d) = Some (core_settings m) /\
  chapter_summaries_json (perform_all (save_writes env m) d) = Some (chapter_summaries m) /\
  worldview_json (perform_all (save_writes env m) d) = Some (worldview m) /\
  timeline_json (perform_all (save_writes env m) d) = Some (timeline m).
Proof.
  unfold save_writes. rewrite !perform_all_app.
  repeat split.
  - rewrite (perform_all_keeps core_settings_json) by (now apply location_writes_keep).
    rewrite (perform_all_keeps core_settings_json) by (now apply plot_writes_keep).
    rewrite (perform_all_keeps core_settings_json) by (repeat constructor).
    rewrite (perform_all_keeps core_settings_json) by (now apply character_writes_keep).
    reflexivity.
  - rewrite (perform_all_keeps chapter_summaries_json) by (now apply location_writes_keep).
    rewrite (perform_all_keeps chapter_summaries_json) by (now apply plot_writes_keep).
    reflexivity.
  - rewrite (perform_all_keeps worldview_json) by (now apply location_writes_keep).
    rewrite (perform_all_keeps worldview_json) by (now apply plot_writes_keep).
    reflexivity.
  - rewrite (perform_all_keeps timeline_json) by (now apply location_writes_keep).
    rewrite (perform_all_keeps timeline_json) by (now apply plot_writes_keep).
    reflexivity.
Qed.

Lemma plot_writes_plots i l w :
  In w (plot_writes i l) -> exists j v, w = WritePlot j v.
Proof.
  revert i. induction l as [|p l IH]; intros i; [intros []|].
  cbn [plot_writes]. intros [<-|H]; [now eexists _, _|now apply (IH _ H)].
Qed.

Lemma character_file_after_app k ws1 ws2 before :
  character_file_after k (ws1 ++ ws2) before
  = character_file_after k ws2 (character_file_after k ws1 before).
Proof. unfold character_file_after. apply fold_left_app. Qed.

Lemma location_file_after_app k ws1 ws2 before :
  location_file_after k (ws1 ++ ws2) before
  = location_file_after k ws2 (location_file_after k ws1 before).
Proof. unfold location_file_after. apply fold_left_app. Qed.

Lemma character_file_after_others k ws before :
  (forall w, In w ws -> forall name v, w <> WriteCharacter name v) ->
  character_file_after k ws before = before.
Proof.
  unfold character_file_after. revert before.
  induction ws as [|w ws IH]; intros before H; [reflexivity|].
  cbn [fold_left]. rewrite IH by (intros w' Hw'; apply H; now right).
  destruct w; try reflexivity. exfalso. now apply (H _ (or_introl eq_refl) name v).
Qed.

Lemma location_file_after_others k ws before :
  (forall w, In w ws -> forall name v, w <> WriteLocation name v) ->
  location_file_after k ws before = before.
Proof.
  unfold location_file_after. revert before.
  induction ws as [|w ws IH]; intros before H; [reflexivity|].
  cbn [fold_left]. rewrite IH by (intros w' Hw'; apply H; now right).
  destruct w; try reflexivity. exfalso. now apply (H _ (or_introl eq_refl) name v).
Qed.

Lemma character_file_after_characters env k chars before :
  character_file_after k
    (map (fun '(char_name, char_data) => WriteCharacter (safe_name env char_name) char_data)
         chars) before
  = fold_left (fun file '(name, data) =>
                 if str_eqb k (safe_name env name) then Some data else file) chars before.
Proof.
  unfold character_file_after. revert before.
  induction chars as [|[name data] chars IH]; intros before; [reflexivity|].
  cbn [map fold_left]. apply IH.
Qed.

Lemma location_file_after_locations env k locs before :
  location_file_after k
    (map (fun '(loc_name, loc_data) => WriteLocation (safe_name env loc_name) loc_data)
         locs) before
  = fold_left (fun file '(name, data) =>
                 if str_eqb k (safe_name env name) then Some data else file) locs before.
Proof.
  unfold location_file_after. revert before.
  induction locs as [|[name data] locs IH]; intros before; [reflexivity|].
  cbn [map fold_left]. apply IH.
Qed.

Lemma create_backup_files env s :
  character_files (disk (snd (_create_backup env s))) = character_files (disk s) /\
  location_files (disk (snd (_create_backup env s))) = location_files (disk s).
Proof.
  unfold _create_backup, bind, datetime_now, modify_disk. cbn [snd disk].
  destruct (mem _ _); split; reflexivity.
Qed.

(** X18: after a save in which no write fails, the four single files hold
    the core settings, the summaries, the worldview and the timeline of the
    store, and the character file of name [k] holds the data of the last
    stored character whose name cleans to [k], or what it held before the
    save when there is none (the same for the location files): characters
    whose names clean to the same file name overwrite each other, and the
    file of a character that is no longer stored is left in place. *)
Theorem save_writes_every_category env s :
  forallb (fun w => negb (write_fails env (target w))) (save_writes env (self s)) = true ->
  let after := disk (snd (_save_to_disk env s)) in
  fst (_save_to_disk env s) = true /\
  core_settings_json after = Some (core_settings (self s)) /\
  chapter_summaries_json after = Some (chapter_summaries (self s)) /\
  worldview_json after = Some (worldview (self s)) /\
  timeline_json after = Some (timeline (self s)) /\
  (forall k,
     get k (character_files after)
     = fold_left (fun file '(name, data) =>
                    if str_eqb k (safe_name env name) then Some data else file)
                 (characters (self s)) (get k (character_files (disk s)))) /\
  (forall k,
     get k (location_files after)
     = fold_left (fun file '(name, data) =>
                    if str_eqb k (safe_name env name) then Some data else file)
                 (locations (self s)) (get k (location_files (disk s)))).
Proof.
  intros Hok. cbv zeta. rewrite (save_without_failure env s Hok). cbn [fst snd disk].
  set (d := disk (snd (_create_backup env s))).
  destruct (create_backup_files env s) as [Hc Hl]. fold d in Hc, Hl.
  split; [reflexivity|].
  assert (Hchars : forall w,
            In w (map (fun '(char_name, char_data) =>
                         WriteCharacter (safe_name env char_name) char_data)
                      (characters (self s))) ->
            exists name v, w = WriteCharacter name v).
  { intros w Hw. apply in_map_iff in Hw as [[name data] [<- _]]. now eexists _, _. }
  assert (Hlocs : forall w,
            In w (map (fun '(loc_name, loc_data) =>
                         WriteLocation (safe_name env loc_name) loc_data)
                      (locations (self s))) ->
            exists name v, w = WriteLocation name v).
  { intros w Hw. apply in_map_iff in Hw as [[name data] [<- _]]. now eexists _, _. }
  destruct (save_writes_single_files env (self s) d) as [H1 [H2 [H3 H4]]].
  split; [exact H1|]. split; [exact H2|]. split; [exact H3|]. split; [exact H4|].
  unfold save_writes. split.
  - intros k. rewrite perform_all_character_file, Hc.
    rewrite !character_file_after_app.
    rewrite (character_file_after_others k (plot_writes 0 (plots (self s)))).
    2:{ intros w Hw name v E. apply plot_writes_plots in Hw as [j [p Hw]]. congruence. }
    rewrite (character_file_after_others k (map _ (locations (self s)))).
    2:{ intros w Hw name v E. apply Hlocs in Hw as [n' [v' Hw]]. congruence. }
    rewrite (character_file_after_others k [_; _; _]).
    2:{ intros w [<-|[<-|[<-|[]]]] name v; discriminate. }
    rewrite character_file_after_characters. reflexivity.
  - intros k. rewrite perform_all_location_file, Hl.
    rewrite !location_file_after_app.
    rewrite location_file_after_locations.
    rewrite (location_file_after_others k (plot_writes 0 (plots (self s)))).
    2:{ intros w Hw name v E. apply plot_writes_plots in Hw as [j [p Hw]]. congruence. }
    rewrite (location_file_after_others k [_; _; _]).
    2:{ intros w [<-|[<-|[<-|[]]]] name v; discriminate. }
    rewrite (location_file_after_others k (map _ (characters (self s)))).
    2:{ intros w Hw name v E. apply Hchars in Hw as [n' [v' Hw]]. congruence. }
    reflexivity.
Qed.

Lemma save_writes_every_category_witness :
  fst (_save_to_disk Samples.sample_env (Samples.start Samples.small_store)) = true /\
  core_settings_json
    (disk (snd (_save_to_disk Samples.sample_env (Samples.start Samples.small_store))))
  = Some (core_settings Samples.small_store).
Proof.
  destruct (save_writes_every_category Samples.sample_env
              (Samples.start Samples.small_store)) as [H1 [H2 _]].
  - vm_compute. reflexivity.
  - split; [exact H1|exact H2].
Defined.

(** ** The worldview and its copy in the core settings *)

Lemma save_worldview_self env w s :
  self (snd (save_worldview env w s))
  = (if has (u "worldview") (core_settings (self s)) then set_worldview w (self s)
     else set_core_settings (set (u "worldview") (VDict w) (core_settings (self s)))
            (set_worldview w (self s))).
Proof.
  unfold save_worldview. rewrite !bind_snd. cbn [ret snd].
  rewrite save_to_disk_self. unfold modify_self. cbn [snd fst self].
  cbn [set_worldview core_settings]. reflexivity.
Qed.

(** X19: [save_worldview] replaces the worldview of the store on every
    call, but copies it into the core settings only when they hold no
    ['worldview'] yet: after a first save of [w1] and a second of [w2] the
    store's worldview is [w2] while the core settings still hold [w1]; core
    settings that already have the key are not changed at all. *)
Theorem worldview_copy_is_first_saved env w1 w2 s :
  has (u "worldview") (core_settings (self s)) = false ->
  worldview (self (snd (save_worldview env w1 s))) = w1 /\
  get (u "worldview") (core_settings (self (snd (save_worldview env w1 s)))) = Some (VDict w1) /\
  worldview (self (snd (save_worldview env w2 (snd (save_worldview env w1 s))))) = w2 /\
  get (u "worldview")
      (core_settings (self (snd (save_worldview env w2 (snd (save_worldview env w1 s))))))
  = Some (VDict w1) /\
  core_settings (self (snd (save_worldview env w2 (snd (save_worldview env w1 s)))))
  = core_settings (self (snd (save_worldview env w1 s))).
Proof.
  intros Hnew.
  assert (H1 : self (snd (save_worldview env w1 s))
               = set_core_settings (set (u "worldview") (VDict w1) (core_settings (self s)))
                   (set_worldview w1 (self s)))
    by (rewrite save_worldview_self, Hnew; reflexivity).
  assert (Hhas : has (u "worldview") (core_settings (self (snd (save_worldview env w1 s))))
                 = true).
  { rewrite H1. cbn [core_settings set_core_settings].
    apply has_get. eexists. apply get_set_same. }
  assert (H2 : self (snd (save_worldview env w2 (snd (save_worldview env w1 s))))
               = set_worldview w2 (self (snd (save_worldview env w1 s))))
    by (rewrite save_worldview_self, Hhas; reflexivity).
  rewrite H2. cbn [worldview core_settings set_worldview]. rewrite H1.
  cbn [worldview core_settings set_core_settings set_worldview].
  repeat split; apply get_set_same.
Qed.

Lemma worldview_copy_is_first_saved_witness :
  worldview (self (snd (save_worldview Samples.sample_env [(u "era", VStr (u "唐"))]
                          (Samples.start Samples.empty_memory))))
  = [(u "era", VStr (u "唐"))] /\
  get (u "worldview")
      (core_settings
         (self (snd (save_worldview Samples.sample_env [(u "era", VStr (u "宋"))]
                       (snd (save_worldview Samples.sample_env [(u "era", VStr (u "唐"))]
                               (Samples.start Samples.empty_memory)))))))
  = Some (VDict [(u "era", VStr (u "唐"))]).
Proof.
  destruct (worldview_copy_is_first_saved Samples.sample_env
              [(u "era", VStr (u "唐"))] [(u "era", VStr (u "宋"))]
              (Samples.start Samples.empty_memory)) as [H1 [_ [_ [H4 _]]]].
  - reflexivity.
  - split; [exact H1|exact H4].
Defined.

(** ** Export and import *)

Lemma import_memory_self env data s :
  forallb (fun b => b) (required_keys data) = true ->
  fst (import_memory env (FileData data) s) = true /\
  self (snd (import_memory env (FileData data) s))
  = {| core_settings := or_default [] (imp_core_settings data);
       characters := or_default [] (imp_characters data);
       worldview := or_default [] (imp_worldview data);
       chapter_summaries := or_default [] (imp_chapter_summaries data);
       relationship_graph := relationship_graph (self s);
       timeline := or_default [] (imp_timeline data);
       plots := or_default [] (imp_plots data);
       locations := or_default [] (imp_locations data) |}.
Proof.
  intros H. unfold import_memory. rewrite H. split.
  - unfold bind. destruct (modify_self _ s) as [[] s1].
    destruct (_save_to_disk env s1) as [ok s2]. reflexivity.
  - rewrite !bind_snd. cbn [ret snd]. rewrite save_to_disk_self. reflexivity.
Qed.

(** X20: what [export_memory] writes, read by [import_memory] into any
    store, is accepted and gives that store the exporter's core settings,
    characters, worldview, summaries, timeline, plots and locations; the
    relationship graph is not exported, and the importing store keeps its
    own.  The export changes neither the store nor its files, and returns
    failure, writing nothing, when the export file cannot be opened. *)
Theorem export_then_import_restores env s :
  exists export_data,
    fst (export_memory env false s) = Some export_data /\
    fst (export_memory env true s) = None /\
    self (snd (export_memory env false s)) = self s /\
    disk (snd (export_memory env false s)) = disk s /\
    forall s',
      fst (import_memory env (exported_file export_data) s') = true /\
      self (snd (import_memory env (exported_file export_data) s'))
      = set_relationship_graph (relationship_graph (self s')) (self s).
Proof.
  eexists. split; [reflexivity|]. split; [reflexivity|].
  split; [reflexivity|]. split; [reflexivity|].
  intros s'. unfold exported_file.
  match goal with
  | |- context [import_memory env (FileData ?d) s'] =>
      destruct (import_memory_self env d s' eq_refl) as [H1 H2]
  end.
  split; [exact H1|]. rewrite H2. reflexivity.
Qed.

(** ** The two writers of the relationship graph *)

(** [c] leaves the disk alone. *)
Definition leaves_disk {A : Type} (c : M A) : Prop :=
  forall s, disk (snd (c s)) = disk s.

Lemma leaves_disk_bind {A B : Type} (c : M A) (k : A -> M B) :
  leaves_disk c -> (forall a, leaves_disk (k a)) -> leaves_disk (bind c k).
Proof.
  intros Hc Hk s. rewrite bind_snd. rewrite Hk. apply Hc.
Qed.

Lemma leaves_disk_ret {A : Type} (a : A) : leaves_disk (ret a).
Proof. intros s. reflexivity. Qed.

Lemma leaves_disk_modify_self g : leaves_disk (modify_self g).
Proof. intros s. reflexivity. Qed.

Lemma leaves_disk_now env : leaves_disk (datetime_now env).
Proof. intros s. reflexivity. Qed.

Lemma leaves_disk_get_self : leaves_disk get_self.
Proof. intros s. reflexivity. Qed.

Lemma leaves_disk_for_each {A : Type} (l : list A) (body : A -> M unit) :
  (forall a, leaves_disk (body a)) -> leaves_disk (for_each l body).
Proof.
  intros Hb. induction l as [|a l IH]; [apply leaves_disk_ret|].
  cbn [for_each]. apply leaves_disk_bind; [apply Hb|intros _; exact IH].
Qed.

Ltac leaves_disk_step :=
  match goal with
  | |- leaves_disk (bind _ _) => apply leaves_disk_bind; [|intros ?]
  | |- leaves_disk (ret _) => apply leaves_disk_ret
  | |- leaves_disk get_self => apply leaves_disk_get_self
  | |- leaves_disk (datetime_now _) => apply leaves_disk_now
  | |- leaves_disk (modify_self _) => apply leaves_disk_modify_self
  | |- leaves_disk (for_each _ _) => apply leaves_disk_for_each; intros ?
  | |- leaves_disk (if ?b then _ else _) => destruct b
  | |- leaves_disk (match ?x with Some _ => _ | None => _ end) => destruct x
  | |- leaves_disk (let (_, _) := ?x in _) => destruct x
  end.

Lemma extend_plots_leaves_disk env l events n : leaves_disk (extend_plots env l events n).
Proof.
  induction l as [|p l IH]; cbn [extend_plots]; repeat leaves_disk_step. exact IH.
Qed.

Lemma before_relationships_leaves_disk env n data :
  leaves_disk (before_relationships env n data).
Proof.
  unfold before_relationships, record_event, _extract_locations, record_location,
    _extract_plots.
  repeat leaves_disk_step. apply extend_plots_leaves_disk.
Qed.

Lemma development_leaves_disk env n items :
  leaves_disk (for_each items (record_development env n)).
Proof.
  apply leaves_disk_for_each. intros [name development]. unfold record_development.
  repeat leaves_disk_step.
Qed.

(** The end of [update_with_chapter]: when it raises nothing is saved. *)
Lemma relationships_then_save_raising env n data s :
  fst ((ok <- _update_relationships data n ;;
        if ok then _save_to_disk env ;;; ret true else ret false) s) = false ->
  disk (snd ((ok <- _update_relationships data n ;;
              if ok then _save_to_disk env ;;; ret true else ret false) s)) = disk s.
Proof.
  unfold _update_relationships, bind, get_self, modify_self, ret.
  destruct (record_interactions n _ _) as [ok g]. cbn [fst snd].
  destruct ok; cbn [fst snd disk]; [|reflexivity].
  destruct (_save_to_disk env _) as [saved s3]. discriminate.
Qed.

(** A call of [update_with_chapter] that raises leaves the disk alone. *)
Lemma update_with_chapter_raising env n data s :
  fst (update_with_chapter env n data s) = false ->
  disk (snd (update_with_chapter env n data s)) = disk s.
Proof.
  rewrite update_with_chapter_phases.
  set (s1 := snd (for_each (character_development data) (record_development env n)
                    (summary_stored env n data s))).
  assert (Hd1 : disk s1 = disk s)
    by (unfold s1; now rewrite development_leaves_disk).
  destruct (after_development_relationships env n data s1) as [-> ->].
  intros Hfail. rewrite (relationships_then_save_raising env n data _ Hfail).
  now rewrite before_relationships_leaves_disk.
Qed.

Lemma record_interactions_on_list n pairs l :
  pairs <> [] -> record_interactions n pairs (RelList l) = (false, RelList l).
Proof. destruct pairs as [|[a b] rest]; [congruence|reflexivity]. Qed.

Lemma add_relationship_graph env a b r s :
  fst (add_relationship env a b r s) = true ->
  exists l, relationship_graph (self (snd (add_relationship env a b r s))) = RelList l /\
            characters (self (snd (add_relationship env a b r s))) = characters (self s).
Proof.
  unfold add_relationship, bind, get_self.
  destruct (relationship_graph (self s)) as [|d|l] eqn:Eg.
  - unfold datetime_now, modify_self, ret.
    destruct (_save_to_disk env _) as [saved s3] eqn:E. cbn [fst snd]. intros _.
    change s3 with (snd (saved, s3)). rewrite <- E, save_to_disk_self.
    cbn [self relationship_graph characters set_relationship_graph].
    eexists. split; reflexivity.
  - unfold modify_self, ret. cbn [fst]. discriminate.
  - unfold datetime_now, modify_self, ret.
    destruct (_save_to_disk env _) as [saved s3] eqn:E. cbn [fst snd]. intros _.
    change s3 with (snd (saved, s3)). rewrite <- E, save_to_disk_self.
    cbn [self relationship_graph characters set_relationship_graph].
    eexists. split; reflexivity.
Qed.

(** X21: once [add_relationship] has succeeded the graph holds its list,
    which [_update_relationships] cannot index by a pair: every later
    [update_with_chapter] for a chapter in which two stored characters
    interact raises before the save.  The chapter's summary is then in the
    store, but nothing of the call is on the disk, and the graph is still
    the list. *)
Theorem update_raises_after_manual_relationship env a b r s0 n data :
  fst (add_relationship env a b r s0) = true ->
  character_interactions (self s0) (content data) <> [] ->
  let s := snd (add_relationship env a b r s0) in
  fst (update_with_chapter env n data s) = false /\
  disk (snd (update_with_chapter env n data s)) = disk s /\
  relationship_graph (self (snd (update_with_chapter env n data s)))
  = relationship_graph (self s) /\
  get (str_of_int n) (chapter_summaries (self (snd (update_with_chapter env n data s))))
  = Some (SummaryDict (chapter_summary_of n data (isoformat (now env (ticks s))))).
Proof.
  intros Hadd Hint. cbv zeta.
  destruct (add_relationship_graph env a b r s0 Hadd) as [l [Hg Hc]].
  set (s := snd (add_relationship env a b r s0)) in *.
  assert (Hpairs : character_interactions (self s) (content data) <> []).
  { rewrite (character_interactions_keys (self s) (self s0) (content data));
      [exact Hint|now rewrite Hc]. }
  pose proof (record_interactions_on_list n _ l Hpairs) as Hrec.
  destruct (update_with_chapter_relationships env n data s) as [Hgraph Hfst].
  assert (Hf : fst (update_with_chapter env n data s) = false).
  { rewrite Hfst, Hg. exact (f_equal fst Hrec). }
  split; [exact Hf|]. split; [now apply update_with_chapter_raising|]. split.
  - rewrite Hgraph, Hg. exact (f_equal snd Hrec).
  - rewrite update_with_chapter_summaries. apply get_set_same.
Qed.

Lemma update_raises_after_manual_relationship_witness :
  fst (update_with_chapter Samples.sample_env 1 Samples.meeting
         (snd (add_relationship Samples.sample_env (u "甲") (u "乙") (u "师徒")
                 (Samples.start Samples.two_characters)))) = false /\
  disk (snd (update_with_chapter Samples.sample_env 1 Samples.meeting
               (snd (add_relationship Samples.sample_env (u "甲") (u "乙") (u "师徒")
                       (Samples.start Samples.two_characters)))))
  = disk (snd (add_relationship Samples.sample_env (u "甲") (u "乙") (u "师徒")
                 (Samples.start Samples.two_characters))).
Proof.
  destruct (update_raises_after_manual_relationship Samples.sample_env
              (u "甲") (u "乙") (u "师徒") (Samples.start Samples.two_characters)
              1 Samples.meeting) as [H1 [H2 _]].
  - vm_compute. reflexivity.
  - vm_compute. discriminate.
  - split; [exact H1|exact H2].
Defined.

Lemma record_interaction_dict n g interaction g' :
  record_interaction n g interaction = Some g' -> exists d, g' = RelDict d.
Proof.
  unfold record_interaction. destruct interaction as [c1 c2].
  destruct g as [|d|l]; [| |discriminate].
  - destruct (get _ _); intros H; injection H as <-; now eexists.
  - destruct (get _ _); intros H; injection H as <-; now eexists.
Qed.

Lemma record_interactions_dict n pairs g g' :
  pairs <> [] -> record_interactions n pairs g = (true, g') -> exists d, g' = RelDict d.
Proof.
  revert g. induction pairs as [|interaction rest IH]; intros g Hne; [congruence|].
  cbn [record_interactions].
  destruct (record_interaction n g interaction) as [g1|] eqn:E; [|discriminate].
  destruct (record_interaction_dict n g interaction g1 E) as [d ->].
  destruct rest as [|x rest].
  - cbn [record_interactions]. intros H. injection H as <-. now exists d.
  - apply IH. discriminate.
Qed.

(** X22: and the other way round: once [update_with_chapter] has recorded
    an interaction the graph holds its dict, which has no [append]: every
    later [add_relationship] raises, and leaves the store, the disk and the
    clock as they were. *)
Theorem manual_relationship_raises_after_update env n data s0 a b r :
  fst (update_with_chapter env n data s0) = true ->
  character_interactions (self s0) (content data) <> [] ->
  add_relationship env a b r (snd (update_with_chapter env n data s0))
  = (false, snd (update_with_chapter env n data s0)).
Proof.
  intros Hok Hint.
  destruct (update_with_chapter_relationships env n data s0) as [Hg Hf].
  rewrite Hok in Hf.
  destruct (record_interactions n (character_interactions (self s0) (content data))
              (relationship_graph (self s0))) as [ok g] eqn:E.
  cbn [fst snd] in Hg, Hf. subst ok.
  destruct (record_interactions_dict n _ _ g Hint E) as [d ->].
  set (s := snd (update_with_chapter env n data s0)) in *.
  unfold add_relationship, bind, get_self, modify_self, ret. rewrite Hg.
  f_equal. destruct s as [m dk t]. cbn [self disk ticks] in *. f_equal.
  destruct m. cbn in Hg. subst. reflexivity.
Qed.

Lemma manual_relationship_raises_after_update_witness :
  add_relationship Samples.sample_env (u "甲") (u "乙") (u "师徒")
    (snd (update_with_chapter Samples.sample_env 1 Samples.meeting
            (Samples.start Samples.two_characters)))
  = (false, snd (update_with_chapter Samples.sample_env 1 Samples.meeting
                   (Samples.start Samples.two_characters))).
Proof.
  apply (manual_relationship_raises_after_update Samples.sample_env 1 Samples.meeting
           (Samples.start Samples.two_characters) (u "甲") (u "乙") (u "师徒")).
  - vm_compute. reflexivity.
  - vm_compute. discriminate.
Defined.

(** ** The timeline *)

(** The events the loop over [key_events] appends, the clock at [t]. *)
Fixpoint recorded_events env (n : Z) (events : list str) (t : nat) : list TimelineEvent :=
  match events with
  | [] => []
  | event :: rest =>
      {| ev_chapter := n; ev_description := event;
         ev_timestamp := isoformat (now env t); ev_type := u "chapter_event" |}
      :: recorded_events env n rest (S t)
  end.

Lemma record_events_timeline env n events s :
  timeline (self (snd (for_each events (record_event env n) s)))
  = timeline (self s) ++ recorded_events env n events (ticks s).
Proof.
  revert s. induction events as [|event rest IH]; intros s.
  - cbn. now rewrite app_nil_r.
  - cbn [for_each]. rewrite bind_snd, IH.
    unfold record_event, bind, datetime_now, modify_self.
    cbn [snd fst self ticks timeline set_timeline recorded_events].
    now rewrite <- app_assoc.
Qed.

Lemma recorded_events_spec env n events t :
  map ev_description (recorded_events env n events t) = events /\
  Forall (fun e => ev_chapter e = n /\ ev_type e = u "chapter_event")
         (recorded_events env n events t).
Proof.
  revert t. induction events as [|event rest IH]; intros t; [split; constructor|].
  destruct (IH (S t)) as [IH1 IH2]. cbn [recorded_events map ev_description].
  rewrite IH1. split; [reflexivity|]. constructor; [split; reflexivity|exact IH2].
Qed.

Lemma after_events_keeps_timeline env n data :
  keeps timeline (_extract_locations env (content data) n ;;;
                  _extract_plots env data n ;;;
                  ok <- _update_relationships data n ;;
                  if ok then _save_to_disk env ;;; ret true else ret false).
Proof.
  apply keeps_bind; [now apply extract_locations_keeps|intros _].
  apply keeps_bind; [now apply extract_plots_keeps|intros _].
  apply keeps_bind; [now apply update_relationships_keeps|intros ok].
  keeps_tac.
Qed.

(** X23: every call of [update_with_chapter], whether it returns or
    raises, appends one event per key event of the chapter to the timeline,
    in their order, each with the chapter's number, and changes nothing of
    what the timeline held: a second call for the same chapter appends the
    same events again. *)
Theorem timeline_grows_with_key_events env n data s :
  exists events,
    timeline (self (snd (update_with_chapter env n data s))) = timeline (self s) ++ events /\
    map ev_description events = key_events data /\
    Forall (fun e => ev_chapter e = n /\ ev_type e = u "chapter_event") events /\
    len (timeline (self (snd (update_with_chapter env n data
                                (snd (update_with_chapter env n data s))))))
    = len (timeline (self s)) + 2 * len (key_events data).
Proof.
  assert (Hone : forall s0, exists t,
            timeline (self (snd (update_with_chapter env n data s0)))
            = timeline (self s0) ++ recorded_events env n (key_events data) t).
  { intros s0. rewrite update_with_chapter_phases.
    set (s1 := snd (for_each (character_development data) (record_development env n)
                      (summary_stored env n data s0))).
    assert (H1 : timeline (self s1) = timeline (self s0)).
    { unfold s1. rewrite (keeps_for_each timeline); [reflexivity|].
      intros item. now apply record_development_keeps. }
    unfold after_development. rewrite bind_snd.
    rewrite after_events_keeps_timeline, record_events_timeline, H1. now eexists. }
  assert (Hlen : forall t, len (recorded_events env n (key_events data) t)
                           = len (key_events data)).
  { intros t. destruct (recorded_events_spec env n (key_events data) t) as [Hd _].
    unfold len. rewrite <- Hd at 2. now rewrite length_map. }
  destruct (Hone s) as [t Ht].
  destruct (Hone (snd (update_with_chapter env n data s))) as [t' Ht'].
  destruct (recorded_events_spec env n (key_events data) t) as [Hd Hf].
  exists (recorded_events env n (key_events data) t).
  split; [exact Ht|]. split; [exact Hd|]. split; [exact Hf|].
  rewrite Ht', Ht, !len_app, !Hlen. lia.
Qed.

(** ** Locations *)

Import ConsistencyChecker.

Lemma take_class_spec n s :
  (List.length (take_class n s) <= n)%nat /\
  forallb is_cjk (take_class n s) = true /\
  startswith (take_class n s) s = true.
Proof.
  revert s. induction n as [|n IH]; intros s; [repeat split; cbn; lia|].
  destruct s as [|c r]; [repeat split; cbn; lia|].
  cbn [take_class]. destruct (is_cjk c) eqn:E; [|repeat split; cbn; lia].
  destruct (IH r) as [I1 [I2 I3]]. cbn [List.length forallb startswith].
  rewrite E, I2, I3, Z.eqb_refl. repeat split. lia.
Qed.

Lemma contains_skipn k n s : contains k (skipn n s) = true -> contains k s = true.
Proof.
  revert s. induction n as [|n IH]; intros s; [auto|].
  destruct s as [|c r]; [auto|]. cbn [skipn]. intros H.
  apply CheckerExtras.contains_cons. now apply IH.
Qed.

(** A location name, as the four patterns capture it: 2 to 6 characters,
    all of them CJK. *)
Definition location_like (content loc : str) : Prop :=
  2 <= len loc <= 6 /\ forallb is_cjk loc = true /\ contains loc content = true.

Lemma match_here_group p s group k :
  match_here p s = Some (group, k) -> location_like s group.
Proof.
  unfold match_here. destruct (startswith (lp_literal p) s); [|discriminate].
  destruct (take_class_spec 6 (skipn (List.length (lp_literal p)) s)) as [H1 [H2 H3]].
  set (g := take_class 6 (skipn (List.length (lp_literal p)) s)) in *. clearbody g.
  destruct (2 <=? len g) eqn:E; [|discriminate].
  intros H. injection H as <- _. apply Z.leb_le in E.
  split; [|split].
  - unfold len in *. lia.
  - exact H2.
  - eapply contains_skipn. apply CheckerExtras.startswith_contains. exact H3.
Qed.

Lemma findall_pattern_groups p s skip group :
  In group (findall_pattern p s skip) -> location_like s group.
Proof.
  revert skip. induction s as [|c r IH]; intros skip; [intros []|].
  assert (Htail : forall k, In group (findall_pattern p r k) -> location_like (c :: r) group).
  { intros k H. destruct (IH k H) as [H1 [H2 H3]].
    split; [exact H1|]. split; [exact H2|]. now apply CheckerExtras.contains_cons. }
  cbn [findall_pattern]. destruct skip as [|k]; [|apply Htail].
  destruct (match_here p (c :: r)) as [[g m]|] eqn:E; [|apply Htail].
  intros [<-|H]; [|now apply (Htail _ H)].
  now apply (match_here_group p (c :: r) g m).
Qed.

Lemma in_distinct x l : In x (distinct l) <-> In x l.
Proof.
  induction l as [|y l IH]; [reflexivity|].
  cbn [distinct]. split.
  - intros [H|H]; [now left|]. apply filter_In in H as [H _]. right. now apply IH.
  - intros [H|H]; [now left|].
    destruct (str_eqb y x) eqn:E.
    + apply str_eqb_eq in E. now left.
    + right. apply filter_In. split; [now apply IH|]. now rewrite E.
Qed.

Lemma distinct_nodup l : NoDup (distinct l).
Proof.
  induction l as [|y l IH]; [constructor|].
  cbn [distinct]. constructor; [|now apply NoDup_filter].
  intros H. apply filter_In in H as [_ H]. now rewrite str_eqb_refl in H.
Qed.

(** The pattern without a marker, [([一-龥]{2,6})中?]. *)
Definition bare_pattern : LocationPattern := {| lp_literal := []; lp_optional := u "中" |}.

Lemma take_class_two a b post :
  is_cjk a = true -> is_cjk b = true ->
  take_class 6 (a :: b :: post) = a :: b :: take_class 4 post.
Proof.
  intros Ha Hb.
  change (take_class 6 (a :: b :: post))
    with (if is_cjk a then a :: (if is_cjk b then b :: take_class 4 post else []) else []).
  now rewrite Ha, Hb.
Qed.

Lemma bare_pattern_finds pre a b post :
  is_cjk a = true -> is_cjk b = true ->
  exists group rest, findall_pattern bare_pattern (pre ++ a :: b :: post) O = group :: rest.
Proof.
  intros Ha Hb. induction pre as [|c pre IH].
  - cbn [app findall_pattern]. unfold match_here.
    cbn [bare_pattern lp_literal startswith List.length skipn].
    rewrite (take_class_two a b post Ha Hb).
    set (group := a :: b :: take_class 4 post).
    assert (E : (2 <=? len group) = true).
    { apply Z.leb_le. unfold len, group. cbn [List.length]. lia. }
    rewrite E. now eexists _, _.
  - cbn [app findall_pattern].
    destruct (match_here bare_pattern (c :: pre ++ a :: b :: post)) as [[g m]|];
      [now eexists _, _|exact IH].
Qed.

(** X24: the names [_extract_locations] finds in a chapter have 2 to 6
    characters, all of them CJK, and occur in the content; and since the
    fourth pattern has no marker, a content with two adjacent CJK
    characters anywhere always yields a location, whether or not 在, 来到
    or 位于 occurs in it. *)
Theorem locations_are_cjk_runs env content :
  (forall l, Permutation (set_order env l) l) ->
  (forall loc, In loc (locations_found env content) -> location_like content loc) /\
  NoDup (locations_found env content) /\
  (forall pre a b post,
     content = pre ++ a :: b :: post -> is_cjk a = true -> is_cjk b = true ->
     locations_found env content <> []).
Proof.
  intros Horder. unfold locations_found.
  set (found := flat_map (fun pattern =>
                            filter (fun m => 2 <=? len m) (findall_pattern pattern content O))
                         location_patterns).
  split; [|split].
  - intros loc H. apply (Permutation_in _ (Horder _)) in H.
    apply (proj1 (in_distinct _ _)) in H. unfold found in H.
    apply in_flat_map in H as [p [_ H]]. apply filter_In in H as [H _].
    now apply (findall_pattern_groups p content O).
  - apply (Permutation_NoDup (Permutation_sym (Horder _))). apply distinct_nodup.
  - intros pre a b post Hc Ha Hb Hnil.
    destruct (bare_pattern_finds pre a b post Ha Hb) as [group [rest Hfind]].
    rewrite <- Hc in Hfind.
    assert (Hin : In group found).
    { unfold found. apply in_flat_map. exists bare_pattern. split.
      - unfold location_patterns. right. right. right. left. reflexivity.
      - apply filter_In. split; [rewrite Hfind; now left|].
        assert (Hg : In group (findall_pattern bare_pattern content O))
          by (rewrite Hfind; now left).
        apply findall_pattern_groups in Hg as [[Hg _] _]. now apply Z.leb_le. }
    apply (proj2 (in_distinct _ _)) in Hin.
    apply (Permutation_in _ (Permutation_sym (Horder _))) in Hin.
    rewrite Hnil in Hin. contradiction.
Qed.

Lemma locations_are_cjk_runs_witness :
  locations_found Samples.sample_env (u "他走进青云山") <> [].
Proof.
  destruct (locations_are_cjk_runs Samples.sample_env (u "他走进青云山")) as [_ [_ H]].
  - intros l. apply Permutation_refl.
  - apply (H [] 20182 36208 (u "进青云山")); reflexivity.
Defined.

Lemma record_location_locations env n name s :
  locations (self (snd (record_location env n name s)))
  = set name
        match get name (locations (self s)) with
        | Some l =>
            {| loc_name := loc_name l; loc_first_appearance := loc_first_appearance l;
               loc_last_appearance := n;
               loc_appearance_count := loc_appearance_count l + 1;
               loc_description := loc_description l; loc_created_at := loc_created_at l |}
        | None =>
            {| loc_name := name; loc_first_appearance := n; loc_last_appearance := n;
               loc_appearance_count := 1;
               loc_description := u "在" ++ name ++ u "发生的事件";
               loc_created_at := isoformat (now env (ticks s)) |}
        end
        (locations (self s)).
Proof.
  unfold record_location, bind, get_self.
  destruct (get name (locations (self s))); reflexivity.
Qed.

(** The loop of [_extract_locations] over names without repetition. *)
Lemma record_locations_loop env n names :
  NoDup names ->
  forall s loc,
    (In loc names ->
     exists l',
       get loc (locations (self (snd (for_each names (record_location env n) s)))) = Some l' /\
       loc_last_appearance l' = n /\
       match get loc (locations (self s)) with
       | Some l => loc_appearance_count l' = loc_appearance_count l + 1 /\
                   loc_first_appearance l' = loc_first_appearance l
       | None => loc_appearance_count l' = 1 /\ loc_first_appearance l' = n
       end) /\
    (~ In loc names ->
     get loc (locations (self (snd (for_each names (record_location env n) s))))
     = get loc (locations (self s))).
Proof.
  induction 1 as [|name rest Hname Hnd IH]; intros s loc.
  - split; [intros []|reflexivity].
  - cbn [for_each]. rewrite bind_snd.
    set (s1 := snd (record_location env n name s)).
    pose proof (record_location_locations env n name s) as H1. fold s1 in H1.
    destruct (IH s1 loc) as [IHin IHout].
    split.
    + intros [->|Hin].
      * rewrite (proj2 (IH s1 loc) Hname), H1, get_set_same.
        eexists. split; [reflexivity|].
        destruct (get loc (locations (self s))); repeat split.
      * assert (Hne : str_eqb loc name = false).
        { apply str_eqb_neq. intros ->. contradiction. }
        destruct (IHin Hin) as [l' [Hget [Hlast Hcount]]].
        exists l'. split; [exact Hget|]. split; [exact Hlast|].
        rewrite H1, get_set_other in Hcount by exact Hne. exact Hcount.
    + intros Hout.
      assert (Hne : str_eqb loc name = false).
      { apply str_eqb_neq. intros ->. apply Hout. now left. }
      rewrite IHout by (intros H; apply Hout; now right).
      rewrite H1. now apply get_set_other.
Qed.

(** X25: [_extract_locations] counts a chapter once for every name it
    finds, however often the name occurs in the chapter: a known location
    gets [appearance_count + 1] and keeps its first appearance, a new one
    starts at 1 with the chapter as first appearance, both with the chapter
    as last appearance; the locations not found in it are left as they
    were. *)
Theorem extract_locations_counts_chapter_once env content n s loc :
  (forall l, Permutation (set_order env l) l) ->
  (In loc (locations_found env content) ->
   exists l',
     get loc (locations (self (snd (_extract_locations env content n s)))) = Some l' /\
     loc_last_appearance l' = n /\
     match get loc (locations (self s)) with
     | Some l => loc_appearance_count l' = loc_appearance_count l + 1 /\
                 loc_first_appearance l' = loc_first_appearance l
     | None => loc_appearance_count l' = 1 /\ loc_first_appearance l' = n
     end) /\
  (~ In loc (locations_found env content) ->
   get loc (locations (self (snd (_extract_locations env content n s))))
   = get loc (locations (self s))).
Proof.
  intros Horder. unfold _extract_locations.
  apply record_locations_loop.
  unfold locations_found.
  apply (Permutation_NoDup (Permutation_sym (Horder _))). apply distinct_nodup.
Qed.

(** A chapter that names 青云山, known since chapter 1, and 白鹿洞, new. *)
Lemma extract_locations_counts_chapter_once_witness :
  locations_found Samples.sample_env (u "go 青云山 to 白鹿洞") = [u "青云山"; u "白鹿洞"] /\
  (exists known,
     get (u "青云山")
         (locations (self (snd (_extract_locations Samples.sample_env
                                  (u "go 青云山 to 白鹿洞") 2
                                  (Samples.start Samples.small_store_elsewhere)))))
     = Some known /\
     loc_last_appearance known = 2 /\
     loc_appearance_count known = 1 + 1 /\
     loc_first_appearance known = 1) /\
  (exists new,
     get (u "白鹿洞")
         (locations (self (snd (_extract_locations Samples.sample_env
                                  (u "go 青云山 to 白鹿洞") 2
                                  (Samples.start Samples.small_store_elsewhere)))))
     = Some new /\
     loc_last_appearance new = 2 /\
     loc_appearance_count new = 1 /\
     loc_first_appearance new = 2).
Proof.
  assert (Horder : forall l, Permutation (set_order Samples.sample_env l) l)
    by (intros l; apply Permutation_refl).
  split; [vm_compute; reflexivity|]. split.
  - destruct (extract_locations_counts_chapter_once Samples.sample_env
                (u "go 青云山 to 白鹿洞") 2
                (Samples.start Samples.small_store_elsewhere) (u "青云山") Horder)
      as [H _].
    destruct H as [l' [Hget [Hlast Hcount]]]; [vm_compute; left; reflexivity|].
    exists l'. split; [exact Hget|]. split; [exact Hlast|].
    vm_compute in Hcount. exact Hcount.
  - destruct (extract_locations_counts_chapter_once Samples.sample_env
                (u "go 青云山 to 白鹿洞") 2
                (Samples.start Samples.small_store_elsewhere) (u "白鹿洞") Horder)
      as [H _].
    destruct H as [l' [Hget [Hlast Hcount]]]; [vm_compute; right; left; reflexivity|].
    exists l'. split; [exact Hget|]. split; [exact Hlast|].
    vm_compute in Hcount. exact Hcount.
Defined.

(** ** The plan after a chapter *)

Lemma update_with_chapter_core_settings env n data s :
  core_settings (self (snd (update_with_chapter env n data s))) = core_settings (self s).
Proof.
  rewrite update_with_chapter_phases.
  assert (H : keeps core_settings (after_development env n data)).
  { unfold after_development.
    apply keeps_bind; [apply keeps_for_each; intros e; now apply record_event_keeps|intros _].
    apply keeps_bind; [now apply extract_locations_keeps|intros _].
    apply keeps_bind; [now apply extract_plots_keeps|intros _].
    apply keeps_bind; [now apply update_relationships_keeps|intros ok].
    keeps_tac. }
  rewrite H. rewrite (keeps_for_each core_settings); [reflexivity|].
  intros item. now apply record_development_keeps.
Qed.

Lemma nth_error_range a b i :
  (i < Z.to_nat (b - a))%nat -> nth_error (range a b) i = Some (a + Z.of_nat i).
Proof.
  intros H. unfold range. rewrite nth_error_map, nth_error_seq.
  destruct (Nat.ltb_spec i (Z.to_nat (b - a))); [reflexivity|lia].
Qed.

(** X26: after [update_with_chapter] for a chapter within the plan,
    [get_chapter_plan] has [max(10, target_words // 3000)] entries and its
    entry for that chapter, at index [n - 1], is marked 已完成 and carries
    the stored summary (the chapter's summary, or its content cut to 200
    characters when the summary is empty), itself cut to 100 characters and
    the dots when longer. *)
Theorem stored_chapter_is_done_in_plan env n data s target_words :
  target_words_of (self s) = Some target_words ->
  1 <= n <= Z.max 10 (target_words / 3000) ->
  exists plan entry,
    get_chapter_plan (self (snd (update_with_chapter env n data s))) = Some plan /\
    len plan = Z.max 10 (target_words / 3000) /\
    nth_error plan (Z.to_nat (n - 1)) = Some entry /\
    plan_chapter entry = n /\
    plan_status entry = u "已完成" /\
    plan_summary entry
    = (let stored := if len (summary data) =? 0 then clipped (content data)
                     else summary data in
       if 100 <? len stored then take 100 stored ++ u "..." else stored).
Proof.
  intros Htw Hn.
  set (m' := self (snd (update_with_chapter env n data s))).
  assert (Htw' : target_words_of m' = Some target_words).
  { unfold target_words_of, m'. rewrite update_with_chapter_core_settings. exact Htw. }
  unfold get_chapter_plan. rewrite Htw'. cbv zeta.
  set (N := Z.max 10 (target_words / 3000)) in *.
  eexists _, (plan_entry m' N n). split; [reflexivity|]. split; [|split].
  - unfold len. rewrite length_map, range_length. lia.
  - rewrite nth_error_map, nth_error_range by lia.
    cbn [option_map]. do 2 f_equal. lia.
  - assert (Hget : get (str_of_int n) (chapter_summaries m')
                   = Some (SummaryDict (chapter_summary_of n data
                                          (isoformat (now env (ticks s)))))).
    { unfold m'. rewrite update_with_chapter_summaries. apply get_set_same. }
    assert (Hhas : has (str_of_int n) (chapter_summaries m') = true)
      by (apply has_get; eexists; exact Hget).
    unfold plan_entry. cbn [plan_chapter plan_status plan_summary].
    rewrite Hhas, Hget. split; [reflexivity|]. split; [reflexivity|].
    unfold chapter_summary_of. cbn [cs_summary]. reflexivity.
Qed.

Lemma stored_chapter_is_done_in_plan_witness :
  exists plan entry,
    get_chapter_plan (self (snd (update_with_chapter Samples.sample_env 2 Samples.meeting
                                   (Samples.start Samples.small_store)))) = Some plan /\
    len plan = Z.max 10 (60000 / 3000) /\
    nth_error plan (Z.to_nat (2 - 1)) = Some entry /\
    plan_chapter entry = 2 /\
    plan_status entry = u "已完成" /\
    plan_summary entry
    = (let stored := if len (summary Samples.meeting) =? 0
                     then clipped (content Samples.meeting)
                     else summary Samples.meeting in
       if 100 <? len stored then take 100 stored ++ u "..." else stored).
Proof.
  apply (stored_chapter_is_done_in_plan Samples.sample_env 2 Samples.meeting
           (Samples.start Samples.small_store) 60000).
  - reflexivity.
  - vm_compute. split; discriminate.
Defined.

(** ** Timeline events for the context *)

(** The code points of a decimal numeral. *)
Fixpoint digit_codes (d : Decimal.uint) : str :=
  match d with
  | Decimal.Nil => []
  | Decimal.D0 d => 48 :: digit_codes d
  | Decimal.D1 d => 49 :: digit_codes d
  | Decimal.D2 d => 50 :: digit_codes d
  | Decimal.D3 d => 51 :: digit_codes d
  | Decimal.D4 d => 52 :: digit_codes d
  | Decimal.D5 d => 53 :: digit_codes d
  | Decimal.D6 d => 54 :: digit_codes d
  | Decimal.D7 d => 55 :: digit_codes d
  | Decimal.D8 d => 56 :: digit_codes d
  | Decimal.D9 d => 57 :: digit_codes d
  end.

Lemma u_cons_ascii (c : ascii) (rest : string) :
  (Z.of_N (Byte.to_N (byte_of_ascii c)) <? 128) = true ->
  u (String c rest) = Z.of_N (Byte.to_N (byte_of_ascii c)) :: u rest.
Proof.
  intros H. unfold u, bytes_of_string.
  unfold list_byte_of_string. cbn [list_ascii_of_string map utf8_decode]. now rewrite H.
Qed.

Lemma u_string_of_uint d : u (NilEmpty.string_of_uint d) = digit_codes d.
Proof.
  induction d; cbn [NilEmpty.string_of_uint digit_codes]; [reflexivity| | | | | | | | | |];
    rewrite u_cons_ascii by reflexivity; rewrite IHd; reflexivity.
Qed.

Lemma str_of_int_positive p : str_of_int (Z.pos p) = digit_codes (Pos.to_uint p).
Proof.
  unfold str_of_int. cbn [Z.to_int NilZero.string_of_int NilZero.string_of_uint].
  pose proof (DecimalPos.Unsigned.to_uint_nonnil p) as Hnil.
  destruct (Pos.to_uint p) eqn:E; [congruence| | | | | | | | | |];
    rewrite <- u_string_of_uint; reflexivity.
Qed.

Definition is_digit (c : Z) : bool := (48 <=? c) && (c <=? 57).

Lemma digit_codes_digits d : forallb is_digit (digit_codes d) = true.
Proof. induction d; cbn [digit_codes forallb]; try rewrite IHd; reflexivity. Qed.

Lemma decimal_digits_codes d : decimal_digits (digit_codes d) = Some d.
Proof. induction d; cbn [digit_codes decimal_digits]; try rewrite IHd; reflexivity. Qed.

Lemma int_of_str_positive p : int_of_str (str_of_int (Z.pos p)) = Some (Z.pos p).
Proof.
  rewrite str_of_int_positive. unfold int_of_str.
  rewrite decimal_digits_codes. cbn [option_map].
  assert (Hv : Z.of_uint (Pos.to_uint p) = Z.pos p).
  { unfold Z.of_uint. now rewrite DecimalPos.Unsigned.of_to. }
  rewrite Hv.
  pose proof (DecimalPos.Unsigned.to_uint_nonnil p) as Hnil.
  destruct (Pos.to_uint p); [congruence| | | | | | | | | |]; reflexivity.
Qed.

Lemma split_on_cons sep c r :
  split_on sep (c :: r)
  = if c =? sep then [] :: split_on sep r
    else (c :: hd [] (split_on sep r)) :: tl (split_on sep r).
Proof. reflexivity. Qed.

Lemma split_on_parts sep s :
  split_on sep s = hd [] (split_on sep s) :: tl (split_on sep s).
Proof.
  destruct s as [|c r]; [reflexivity|].
  rewrite split_on_cons. destruct (c =? sep); reflexivity.
Qed.

(** The first part after digits: the digits and the first part of the rest. *)
Lemma split_on_after_digits sep digits s :
  forallb is_digit digits = true -> is_digit sep = false ->
  hd [] (split_on sep (digits ++ s)) = digits ++ hd [] (split_on sep s).
Proof.
  intros Hd Hsep. induction digits as [|c r IH]; [reflexivity|].
  cbn [forallb] in Hd. apply andb_true_iff in Hd as [Hc Hr].
  cbn [app]. rewrite split_on_cons.
  destruct (c =? sep) eqn:E.
  - apply Z.eqb_eq in E. subst c. congruence.
  - cbn [hd]. now rewrite IH.
Qed.

Lemma event_key_line event :
  0 < ev_chapter event -> event_key (event_line event) = Some (ev_chapter event).
Proof.
  intros Hpos. unfold event_key, event_line.
  destruct (ev_chapter event) as [|p|p] eqn:E; [lia| |lia].
  change (u "第") with [31532]. change (u "章: ") with [31456; 58; 32].
  cbn [app]. rewrite split_on_cons, Z.eqb_refl. cbn [nth_error].
  rewrite split_on_parts. cbn [nth_error].
  rewrite str_of_int_positive.
  rewrite split_on_after_digits by (apply digit_codes_digits || reflexivity).
  rewrite split_on_cons. change (31456 =? 31532) with false. cbn [hd].
  rewrite split_on_parts.
  rewrite split_on_after_digits by (apply digit_codes_digits || reflexivity).
  rewrite split_on_cons, Z.eqb_refl. cbn [hd]. rewrite app_nil_r.
  rewrite <- str_of_int_positive. apply int_of_str_positive.
Qed.

(** The events [_get_timeline_events] formats. *)
Definition in_scope (up_to_chapter : Z) (event : TimelineEvent) : bool :=
  (0 <? ev_chapter event) && (ev_chapter event <=? up_to_chapter).

Lemma scoped_lines m up_to_chapter :
  flat_map (fun event =>
              let event_chapter := ev_chapter event in
              if (0 <? event_chapter) && (event_chapter <=? up_to_chapter)
              then [event_line event] else [])
           (timeline m)
  = map event_line (filter (in_scope up_to_chapter) (timeline m)).
Proof.
  change (flat_map (fun event => if in_scope up_to_chapter event
                                 then [event_line event] else []) (timeline m)
          = map event_line (filter (in_scope up_to_chapter) (timeline m))).
  induction (timeline m) as [|e l IH]; [reflexivity|].
  cbn [flat_map filter].
  destruct (in_scope up_to_chapter e); cbn [app map]; now rewrite IH.
Qed.

Lemma keyed_lines events :
  Forall (fun e => 0 < ev_chapter e) events ->
  keyed (map event_line events) = Some (map (fun e => (ev_chapter e, event_line e)) events).
Proof.
  induction 1 as [|e l He Hl IH]; [reflexivity|].
  cbn [map keyed]. now rewrite (event_key_line e He), IH.
Qed.

(** Sorting the events themselves by chapter. *)
Definition by_chapter (events : list TimelineEvent) : list (Z * TimelineEvent) :=
  sort_keyed (map (fun e => (ev_chapter e, e)) events).

Lemma insert_keyed_map {A B : Type} (f : A -> B) (x : Z * A) (l : list (Z * A)) :
  insert_keyed (fst x, f (snd x)) (map (fun y => (fst y, f (snd y))) l)
  = map (fun y => (fst y, f (snd y))) (insert_keyed x l).
Proof.
  induction l as [|y r IH]; [reflexivity|].
  cbn [map insert_keyed fst]. destruct (fst x <=? fst y); cbn [map]; [reflexivity|].
  now rewrite IH.
Qed.

Lemma sort_keyed_map {A B : Type} (f : A -> B) (l : list (Z * A)) :
  sort_keyed (map (fun y => (fst y, f (snd y))) l)
  = map (fun y => (fst y, f (snd y))) (sort_keyed l).
Proof.
  unfold sort_keyed. induction l as [|x l IH]; [reflexivity|].
  cbn [map fold_right]. rewrite IH. apply (insert_keyed_map f x).
Qed.

Lemma insert_keyed_spec {A : Type} (x : Z * A) (l : list (Z * A)) :
  StronglySorted Z.le (map fst l) ->
  StronglySorted Z.le (map fst (insert_keyed x l)) /\
  Permutation (insert_keyed x l) (x :: l).
Proof.
  induction l as [|y r IH]; intros Hs.
  - split; [repeat constructor|apply Permutation_refl].
  - cbn [insert_keyed]. cbn [map] in Hs. apply StronglySorted_inv in Hs as [Hr Hy].
    destruct (fst x <=? fst y) eqn:E.
    + apply Z.leb_le in E. split; [|apply Permutation_refl].
      cbn [map]. constructor; [constructor; assumption|].
      constructor; [exact E|].
      eapply Forall_impl; [|exact Hy]. intros z Hz. cbv beta in Hz. lia.
    + apply Z.leb_gt in E. destruct (IH Hr) as [IHs IHp]. split.
      * cbn [map]. constructor; [exact IHs|].
        apply Forall_forall. intros z Hz.
        apply in_map_iff in Hz as [w [<- Hw]].
        apply (Permutation_in _ IHp) in Hw. destruct Hw as [<-|Hw]; [lia|].
        rewrite Forall_forall in Hy. apply Hy. now apply in_map.
      * transitivity (y :: x :: r); [now constructor|apply perm_swap].
Qed.

Lemma sort_keyed_spec {A : Type} (l : list (Z * A)) :
  StronglySorted Z.le (map fst (sort_keyed l)) /\ Permutation (sort_keyed l) l.
Proof.
  unfold sort_keyed. induction l as [|x l [IHs IHp]]; [split; constructor|].
  cbn [fold_right]. destruct (insert_keyed_spec x _ IHs) as [Hs Hp].
  split; [exact Hs|]. transitivity (x :: fold_right insert_keyed [] l); [exact Hp|].
  now constructor.
Qed.

Lemma sorted_skipn n (l : list Z) :
  StronglySorted Z.le l -> StronglySorted Z.le (skipn n l).
Proof.
  revert l. induction n as [|n IH]; intros l H; [exact H|].
  destruct l as [|x l]; [constructor|]. cbn [skipn].
  apply StronglySorted_inv in H as [H _]. now apply IH.
Qed.

(** X27: [_get_timeline_events] never raises: the sort key read back from
    every formatted line is the event's chapter.  It returns the lines
    [第n章: description] of at most 10 events of the timeline, each with
    [0 < chapter <= up_to_chapter], in non-decreasing order of chapter; when
    there are 10 or fewer such events it returns them all. *)
Theorem timeline_events_sorted_by_chapter m up_to_chapter :
  exists selected,
    _get_timeline_events m up_to_chapter = Some (map event_line selected) /\
    (forall event, In event selected ->
       In event (timeline m) /\ 0 < ev_chapter event <= up_to_chapter) /\
    StronglySorted Z.le (map ev_chapter selected) /\
    List.length selected
    = Nat.min 10 (List.length (filter (in_scope up_to_chapter) (timeline m))) /\
    ((List.length (filter (in_scope up_to_chapter) (timeline m)) <= 10)%nat ->
     Permutation selected (filter (in_scope up_to_chapter) (timeline m))).
Proof.
  set (scoped := filter (in_scope up_to_chapter) (timeline m)).
  assert (Hpos : Forall (fun e => 0 < ev_chapter e) scoped).
  { apply Forall_forall. intros e He. apply filter_In in He as [_ He].
    apply andb_true_iff in He as [He _]. now apply Z.ltb_lt. }
  set (sorted := by_chapter scoped).
  destruct (sort_keyed_spec (map (fun e => (ev_chapter e, e)) scoped)) as [Hs Hp].
  fold (by_chapter scoped) in Hs, Hp. fold sorted in Hs, Hp.
  assert (Hkeys : forall x, In x sorted -> fst x = ev_chapter (snd x)).
  { intros x Hx. apply (Permutation_in _ Hp) in Hx.
    apply in_map_iff in Hx as [e [<- _]]. reflexivity. }
  assert (Hsnd : Permutation (map snd sorted) scoped).
  { transitivity (map snd (map (fun e => (ev_chapter e, e)) scoped)).
    - now apply Permutation_map.
    - rewrite map_map. cbn [snd]. rewrite map_id. apply Permutation_refl. }
  assert (Hchapters : map ev_chapter (map snd sorted) = map fst sorted).
  { rewrite map_map. apply map_ext_in. intros x Hx. symmetry. now apply Hkeys. }
  assert (Hlen : List.length (map snd sorted) = List.length scoped)
    by (apply Permutation_length; exact Hsnd).
  exists (skipn (List.length (map snd sorted) - 10) (map snd sorted)).
  split; [|split; [|split; [|split]]].
  - unfold _get_timeline_events. cbv zeta. rewrite scoped_lines. fold scoped.
    rewrite (keyed_lines scoped Hpos).
    change (map (fun e => (ev_chapter e, event_line e)) scoped)
      with (map (fun e => (fst (ev_chapter e, e), event_line (snd (ev_chapter e, e)))) scoped).
    rewrite <- (map_map (fun e => (ev_chapter e, e))
                        (fun y => (fst y, event_line (snd y))) scoped).
    rewrite (sort_keyed_map event_line). fold (by_chapter scoped). fold sorted.
    rewrite map_map. cbn [snd]. rewrite <- (map_map snd event_line sorted).
    rewrite skipn_map, !length_map. reflexivity.
  - intros event He. apply in_skipn in He. apply (Permutation_in _ Hsnd) in He.
    unfold scoped in He. apply filter_In in He as [Hin Hsc]. split; [exact Hin|].
    apply andb_true_iff in Hsc as [H1 H2].
    apply Z.ltb_lt in H1. apply Z.leb_le in H2. lia.
  - rewrite <- skipn_map, Hchapters. now apply sorted_skipn.
  - rewrite length_skipn, Hlen. fold scoped. lia.
  - fold scoped. intros Hfew.
    replace (List.length (map snd sorted) - 10)%nat with O by lia. exact Hsnd.
Qed.

(** ** The core settings *)

Lemma update_settings_get (k : str) (settings d : dict value) :
  get k (fold_left (fun d0 '(key, v) => set key v d0) settings d)
  = fold_left (fun found '(key, v) => if str_eqb k key then Some v else found)
              settings (get k d).
Proof.
  revert d. induction settings as [|[key v] rest IH]; intros d; [reflexivity|].
  cbn [fold_left]. rewrite IH. f_equal. apply get_set.
Qed.

Lemma update_settings_absent (k : str) (settings : dict value) found :
  has k settings = false ->
  fold_left (fun found0 '(key, v) => if str_eqb k key then Some v else found0)
            settings found = found.
Proof.
  revert found. induction settings as [|[key v] rest IH]; intros found Hk; [reflexivity|].
  unfold has, dict_mem in Hk. cbn [dict_get] in Hk. cbn [fold_left].
  destruct (str_eqb k key); [discriminate|]. now apply IH.
Qed.

Lemma update_settings_present (k : str) (v : value) (settings : dict value) found :
  NoDup (keys settings) -> In (k, v) settings ->
  fold_left (fun found0 '(key, v0) => if str_eqb k key then Some v0 else found0)
            settings found = Some v.
Proof.
  revert found. induction settings as [|[key v0] rest IH]; intros found Hnd Hin;
    [contradiction|].
  cbn [keys map fst] in Hnd. apply NoDup_cons_iff in Hnd as [Hkey Hnd].
  cbn [fold_left]. destruct Hin as [E|Hin]; [|now apply IH].
  injection E as -> ->. rewrite str_eqb_refl.
  apply update_settings_absent. now apply not_in_keys_has.
Qed.

Lemma create_backup_core_settings env s :
  core_settings_json (disk (snd (_create_backup env s))) = core_settings_json (disk s).
Proof.
  unfold _create_backup, bind, datetime_now, modify_disk. cbn [snd disk].
  destruct (mem _ _); reflexivity.
Qed.

(** X28: [save_core_settings] merges the given settings into the stored
    ones: a key that is not given keeps its value (a saved chapter plan or
    worldview copy survives), a given key takes the given value; and when
    no write of the save fails, [core_settings.json] holds the merged
    settings. *)
Theorem save_core_settings_merges env settings s :
  let after := snd (save_core_settings env settings s) in
  (forall k, has k settings = false ->
     get k (core_settings (self after)) = get k (core_settings (self s))) /\
  (forall k v, NoDup (keys settings) -> In (k, v) settings ->
     get k (core_settings (self after)) = Some v) /\
  (forallb (fun w => negb (write_fails env (target w))) (save_writes env (self after)) = true ->
   core_settings_json (disk after) = Some (core_settings (self after))).
Proof.
  cbv zeta.
  assert (Hself : self (snd (save_core_settings env settings s))
                  = set_core_settings
                      (fold_left (fun d '(key, v) => set key v d) settings
                                 (core_settings (self s))) (self s)).
  { unfold save_core_settings. rewrite !bind_snd. cbn [ret snd].
    rewrite save_to_disk_self. reflexivity. }
  split; [|split].
  - intros k Hk. rewrite Hself. cbn [core_settings set_core_settings].
    rewrite update_settings_get. now apply update_settings_absent.
  - intros k v Hnd Hin. rewrite Hself. cbn [core_settings set_core_settings].
    rewrite update_settings_get. now apply update_settings_present.
  - intros Hok. unfold save_core_settings.
    rewrite !bind_snd. cbn [ret snd].
    set (s1 := snd (modify_self _ s)).
    assert (Hs1 : self (snd (_save_to_disk env s1)) = self s1) by apply save_to_disk_self.
    assert (Hsame : self s1 = self (snd (save_core_settings env settings s)))
      by (rewrite Hself; reflexivity).
    rewrite <- Hsame in Hok.
    rewrite (save_without_failure env s1 Hok). cbn [snd disk self].
    destruct (save_writes_single_files env (self s1)
                (disk (snd (_create_backup env s1)))) as [H1 _].
    exact H1.
Qed.

(** ** The acts of the plan *)

Lemma int_le_float_down (f : float) (i j : Z) :
  i <= j -> int_le_float j f = true -> int_le_float i f = true.
Proof.
  intros Hij. unfold int_le_float.
  destruct (Prim2SF f) as [sign|sign| |sign mantissa e]; auto.
  - intros H. apply Z.leb_le in H. apply Z.leb_le. lia.
  - assert (Hpow : 0 < 2 ^ (- e) \/ 2 ^ (- e) = 0).
    { destruct (Z.le_gt_cases 0 (- e)) as [He|He].
      - left. now apply Z.pow_pos_nonneg.
      - right. now apply Z.pow_neg_r. }
    destruct sign; destruct (0 <=? e); intros H; apply Z.leb_le in H; apply Z.leb_le;
      try lia; destruct Hpow as [Hp|Hp]; try nia; rewrite Hp in *; lia.
Qed.

Lemma plan_act_cases m estimated_chapters i :
  let first := int_le_float i (float_of_int estimated_chapters * 0.3)%float in
  let second := int_le_float i (float_of_int estimated_chapters * 0.7)%float in
  plan_act (plan_entry m estimated_chapters i)
  = (if first then u "第一幕：建立" else if second then u "第二幕：对抗" else u "第三幕：解决").
Proof. reflexivity. Qed.

Lemma act_names_differ :
  u "第一幕：建立" <> u "第二幕：对抗" /\ u "第一幕：建立" <> u "第三幕：解决" /\
  u "第二幕：对抗" <> u "第三幕：解决".
Proof. vm_compute. repeat split; discriminate. Qed.

(** X29: the acts of the plan [get_chapter_plan] builds come in order:
    when a chapter is in the first act so is every earlier chapter, and
    when a chapter is in the third act so is every later one; so each act
    is one block of consecutive chapters. *)
Theorem plan_acts_in_order m estimated_chapters i j :
  i <= j ->
  (plan_act (plan_entry m estimated_chapters j) = u "第一幕：建立" ->
   plan_act (plan_entry m estimated_chapters i) = u "第一幕：建立") /\
  (plan_act (plan_entry m estimated_chapters i) = u "第三幕：解决" ->
   plan_act (plan_entry m estimated_chapters j) = u "第三幕：解决").
Proof.
  intros Hij. rewrite !plan_act_cases. cbv zeta.
  destruct act_names_differ as [H12 [H13 H23]].
  pose proof (int_le_float_down (float_of_int estimated_chapters * 0.3)%float i j Hij) as H1.
  pose proof (int_le_float_down (float_of_int estimated_chapters * 0.7)%float i j Hij) as H2.
  set (a1 := u "第一幕：建立") in *. set (a2 := u "第二幕：对抗") in *.
  set (a3 := u "第三幕：解决") in *. clearbody a1 a2 a3.
  destruct (int_le_float j (float_of_int estimated_chapters * 0.3)%float);
    destruct (int_le_float j (float_of_int estimated_chapters * 0.7)%float);
    destruct (int_le_float i (float_of_int estimated_chapters * 0.3)%float);
    destruct (int_le_float i (float_of_int estimated_chapters * 0.7)%float);
    split; intros H; try reflexivity; try congruence;
    try (specialize (H1 eq_refl); discriminate);
    try (specialize (H2 eq_refl); discriminate).
Qed.

Lemma plan_acts_in_order_witness :
  2 <= 6 /\ plan_act (plan_entry Samples.small_store 20 2) = u "第一幕：建立".
Proof.
  split; [lia|].
  destruct (plan_acts_in_order Samples.small_store 20 2 6) as [H _]; [lia|].
  apply H. vm_compute. reflexivity.
Defined.

End MemoryExtras.
